(** * moodify: the authentication subsystem (internal/auth/auth.go)

    A shallow embedding of the token store, the refresh logic, the callback
    handler and the login race of [internal/auth/auth.go], together with the
    parts of the Go standard library these functions are built on
    ([unicode/utf8], the string and time codecs of [encoding/json] and
    [time], and the file-system calls of [os]).

    The definitions come first: the library, the world the package acts
    on, then [getConfigDir], [getTokenPath], [saveToken], [loadToken],
    [exchangeCodeForToken], [refreshToken], [GetAuthenticatedClient],
    [QuickCheck], the handler and the [select] of [Login], and
    [isPortAvailable]; then the rest of the package ([deleteToken] and
    [Logout], the PKCE parameters with [encoding/base64], [crypto/sha256]
    and [url.QueryEscape], [Login] as a call, [SmartLogin]) and what the
    commands of [cmd] do with it.  The facts on the library follow, then
    the theorems on the package, one group per property.  What [Login] and
    the commands print, the browser [Login] opens and [formatDuration] are
    left out. *)

From Stdlib Require Import ZArith Ascii String List Lia Bool.
From stdpp Require Import gmap strings.

Local Open Scope Z_scope.
#[local] Arguments String.append !_ _ / : simpl nomatch.

(** ** Bytes

    A Go [string] is a sequence of bytes; it is modelled by [string], whose
    characters are the 256 values of [ascii]. *)

Definition byte_val (c : ascii) : Z := Z.of_N (N_of_ascii c).
Definition byte_of (z : Z) : ascii := ascii_of_N (Z.to_N z).

Fixpoint take_bytes (n : nat) (s : string) : string :=
  match n, s with
  | S n', String c r => String c (take_bytes n' r)
  | _, _ => EmptyString
  end.

Fixpoint drop_bytes (n : nat) (s : string) : string :=
  match n, s with
  | S n', String _ r => drop_bytes n' r
  | _, _ => s
  end.

(** ** unicode/utf8 *)

Module utf8.

Definition RuneError : Z := 0xFFFD.
Definition RuneSelf : Z := 0x80.
Definition MaxRune : Z := 0x10FFFF.
Definition surrogateMin : Z := 0xD800.
Definition surrogateMax : Z := 0xDFFF.
Definition rune1Max : Z := 0x7F.
Definition rune2Max : Z := 0x7FF.
Definition rune3Max : Z := 0xFFFF.
Definition locb : Z := 0x80.
Definition hicb : Z := 0xBF.

(** The table [first] of the package, with the accept range of the second
    byte: what a leading byte announces. *)
Inductive lead : Type :=
| LeadASCII
| LeadInvalid
| LeadSeq (sz : nat) (lo hi : Z).

Definition first (p0 : Z) : lead :=
  if p0 <? 0x80 then LeadASCII
  else if p0 <? 0xC2 then LeadInvalid
  else if p0 <? 0xE0 then LeadSeq 2 locb hicb
  else if p0 =? 0xE0 then LeadSeq 3 0xA0 hicb
  else if p0 <? 0xED then LeadSeq 3 locb hicb
  else if p0 =? 0xED then LeadSeq 3 locb 0x9F
  else if p0 <? 0xF0 then LeadSeq 3 locb hicb
  else if p0 =? 0xF0 then LeadSeq 4 0x90 hicb
  else if p0 <? 0xF4 then LeadSeq 4 locb hicb
  else if p0 =? 0xF4 then LeadSeq 4 locb 0x8F
  else LeadInvalid.

Definition in_range (lo hi b : Z) : bool := (lo <=? b) && (b <=? hi).

(** [DecodeRune p]: the first rune of [p] and its width in bytes;
    [(RuneError, 1)] on an invalid encoding, [(RuneError, 0)] on the empty
    string.  The masks [p0 & mask2], [b & maskx] are written [mod], the
    shifts [<< 6] as multiplications and the [|] of disjoint bit fields as
    a sum. *)
Definition DecodeRune (p : string) : Z * nat :=
  match p with
  | EmptyString => (RuneError, 0%nat)
  | String c0 p1 =>
    let p0 := byte_val c0 in
    match first p0 with
    | LeadASCII => (p0, 1%nat)
    | LeadInvalid => (RuneError, 1%nat)
    | LeadSeq sz lo hi =>
      match p1 with
      | EmptyString => (RuneError, 1%nat)
      | String c1 p2 =>
        let b1 := byte_val c1 in
        if negb (in_range lo hi b1) then (RuneError, 1%nat)
        else if (sz <=? 2)%nat then ((p0 mod 32) * 64 + b1 mod 64, 2%nat)
        else
          match p2 with
          | EmptyString => (RuneError, 1%nat)
          | String c2 p3 =>
            let b2 := byte_val c2 in
            if negb (in_range locb hicb b2) then (RuneError, 1%nat)
            else if (sz <=? 3)%nat then
              ((p0 mod 16) * 4096 + (b1 mod 64) * 64 + b2 mod 64, 3%nat)
            else
              match p3 with
              | EmptyString => (RuneError, 1%nat)
              | String c3 _ =>
                let b3 := byte_val c3 in
                if negb (in_range locb hicb b3) then (RuneError, 1%nat)
                else ((p0 mod 8) * 262144 + (b1 mod 64) * 4096
                      + (b2 mod 64) * 64 + b3 mod 64, 4%nat)
              end
          end
      end
    end
  end.

Definition bytes3 (r : Z) : string :=
  String (byte_of (0xE0 + r / 4096))
    (String (byte_of (0x80 + (r / 64) mod 64))
       (String (byte_of (0x80 + r mod 64)) EmptyString)).

(** [EncodeRune r] (AppendRune): the UTF-8 encoding of [r]; a rune out of
    range or a surrogate half is encoded as [RuneError]. *)
Definition EncodeRune (r : Z) : string :=
  if (0 <=? r) && (r <=? rune1Max) then String (byte_of r) EmptyString
  else if (0 <=? r) && (r <=? rune2Max) then
    String (byte_of (0xC0 + r / 64))
      (String (byte_of (0x80 + r mod 64)) EmptyString)
  else if (r <? 0) || (MaxRune <? r) || in_range surrogateMin surrogateMax r
  then bytes3 RuneError
  else if r <=? rune3Max then bytes3 r
  else
    String (byte_of (0xF0 + r / 262144))
      (String (byte_of (0x80 + (r / 4096) mod 64))
         (String (byte_of (0x80 + (r / 64) mod 64))
            (String (byte_of (0x80 + r mod 64)) EmptyString))).

(** [ValidString s]: [s] consists of valid UTF-8 encodings only. *)
Fixpoint valid_fuel (n : nat) (s : string) : bool :=
  match n with
  | O => match s with EmptyString => true | _ => false end
  | S n' =>
    match s with
    | EmptyString => true
    | _ =>
      let '(r, size) := DecodeRune s in
      if (r =? RuneError) && (size =? 1)%nat then false
      else valid_fuel n' (drop_bytes size s)
    end
  end.

Definition ValidString (s : string) : bool := valid_fuel (String.length s) s.

(** What [DecodeRune] returns, case by case, in arithmetic form. *)
Inductive decoded : string -> Z -> nat -> Prop :=
| dec_empty : decoded EmptyString RuneError 0
| dec_error c0 rest : 0x80 <= byte_val c0 -> decoded (String c0 rest) RuneError 1
| dec_ascii c0 rest : byte_val c0 < 0x80 -> decoded (String c0 rest) (byte_val c0) 1
| dec_two c0 c1 rest r :
    0xC2 <= byte_val c0 <= 0xDF -> 0x80 <= byte_val c1 <= 0xBF ->
    r = (byte_val c0 - 0xC0) * 64 + (byte_val c1 - 0x80) ->
    decoded (String c0 (String c1 rest)) r 2
| dec_three c0 c1 c2 rest r :
    0xE0 <= byte_val c0 <= 0xEF -> 0x80 <= byte_val c1 <= 0xBF ->
    0x80 <= byte_val c2 <= 0xBF ->
    r = (byte_val c0 - 0xE0) * 4096 + (byte_val c1 - 0x80) * 64
        + (byte_val c2 - 0x80) ->
    0x800 <= r <= 0xFFFF -> ~ (0xD800 <= r <= 0xDFFF) ->
    decoded (String c0 (String c1 (String c2 rest))) r 3
| dec_four c0 c1 c2 c3 rest r :
    0xF0 <= byte_val c0 <= 0xF4 -> 0x80 <= byte_val c1 <= 0xBF ->
    0x80 <= byte_val c2 <= 0xBF -> 0x80 <= byte_val c3 <= 0xBF ->
    r = (byte_val c0 - 0xF0) * 262144 + (byte_val c1 - 0x80) * 4096
        + (byte_val c2 - 0x80) * 64 + (byte_val c3 - 0x80) ->
    0x10000 <= r <= 0x10FFFF ->
    decoded (String c0 (String c1 (String c2 (String c3 rest)))) r 4.

End utf8.

(** ** unicode/utf16 *)

Module utf16.

Definition IsSurrogate (r : Z) : bool := (0xD800 <=? r) && (r <? 0xE000).

(** [DecodeRune r1 r2]: the rune of a surrogate pair, [RuneError] when the
    pair is not valid. *)
Definition DecodeRune (r1 r2 : Z) : Z :=
  if (0xD800 <=? r1) && (r1 <? 0xDC00) && (0xDC00 <=? r2) && (r2 <? 0xE000)
  then (r1 - 0xD800) * 1024 + (r2 - 0xDC00) + 0x10000
  else utf8.RuneError.

End utf16.

(** ** encoding/json: string literals *)

Definition dquote : ascii := "034"%char.
Definition bslash : ascii := "092"%char.
Definition newline : ascii := "010"%char.

Definition prepend (c : ascii) (o : option (string * string))
  : option (string * string) :=
  match o with
  | Some (a, r) => Some (String c a, r)
  | None => None
  end.

Definition prepend_str (p : string) (o : option string) : option string :=
  match o with
  | Some a => Some (p +:+ a)
  | None => None
  end.

Module json.

(** [hex[n]] for the table [hex = 0123456789abcdef]. *)
Definition hex (n : Z) : ascii :=
  if n <? 10 then byte_of (48 + n) else byte_of (87 + n).

(** [htmlSafeSet]: the ASCII bytes [Marshal] copies as they are. *)
Definition htmlSafeSet (b : Z) : bool :=
  (0x20 <=? b) && (b <? 0x80) &&
  negb ((b =? 0x22) || (b =? 0x26) || (b =? 0x3C) || (b =? 0x3E) || (b =? 0x5C)).

(** The escape [appendString] writes for an ASCII byte outside
    [htmlSafeSet]. *)
Definition escape_byte (c : ascii) : string :=
  let b := byte_val c in
  if htmlSafeSet b then String c EmptyString
  else if (b =? 0x5C) || (b =? 0x22) then String bslash (String c EmptyString)
  else if b =? 8 then String bslash "b"
  else if b =? 12 then String bslash "f"
  else if b =? 10 then String bslash "n"
  else if b =? 13 then String bslash "r"
  else if b =? 9 then String bslash "t"
  else String bslash ("u00" +:+ String (hex (b / 16)) (String (hex (b mod 16)) EmptyString)).

(** The loop of [appendString] (with [escapeHTML] set, as [Marshal] and
    [MarshalIndent] do), one source rune per step; the fuel is the length
    of the source. *)
Fixpoint appendBody (n : nat) (src : string) : string :=
  match n with
  | O => EmptyString
  | S n' =>
    match src with
    | EmptyString => EmptyString
    | String c rest =>
      if byte_val c <? utf8.RuneSelf then escape_byte c +:+ appendBody n' rest
      else
        let '(r, size) := utf8.DecodeRune src in
        if (r =? utf8.RuneError) && (size =? 1)%nat then
          String bslash "ufffd" +:+ appendBody n' rest
        else if (r =? 0x2028) || (r =? 0x2029) then
          String bslash ("u202" +:+ String (hex (r mod 16)) EmptyString)
            +:+ appendBody n' (drop_bytes size src)
        else take_bytes size src +:+ appendBody n' (drop_bytes size src)
    end
  end.

Definition appendString (src : string) : string :=
  String dquote (appendBody (String.length src) src +:+ String dquote EmptyString).

(** The string states of the scanner: from just after the opening quote,
    the raw text of the literal and what follows its closing quote. *)
Fixpoint scan_string (esc : bool) (s : string) : option (string * string) :=
  match s with
  | EmptyString => None
  | String c r =>
    if esc then prepend c (scan_string false r)
    else if byte_val c =? 0x22 then Some (EmptyString, r)
    else if byte_val c =? 0x5C then prepend c (scan_string true r)
    else if byte_val c <? 0x20 then None
    else prepend c (scan_string false r)
  end.

Definition hexval (c : ascii) : option Z :=
  let b := byte_val c in
  if (48 <=? b) && (b <=? 57) then Some (b - 48)
  else if (97 <=? b) && (b <=? 102) then Some (b - 97 + 10)
  else if (65 <=? b) && (b <=? 70) then Some (b - 65 + 10)
  else None.

(** Four hexadecimal digits at the head of [s]. *)
Definition hex4 (s : string) : option Z :=
  match s with
  | String a (String b (String c (String d _))) =>
    match hexval a, hexval b, hexval c, hexval d with
    | Some x, Some y, Some z, Some w => Some (((x * 16 + y) * 16 + z) * 16 + w)
    | _, _, _, _ => None
    end
  | _ => None
  end.

(** [getu4 s]: the rune of a [\uXXXX] escape at the head of [s], or [-1]. *)
Definition getu4 (s : string) : Z :=
  match s with
  | String b (String u r) =>
    if (byte_val b =? 0x5C) && (byte_val u =? 117) then
      match hex4 r with Some v => v | None => -1 end
    else -1
  | _ => -1
  end.

Definition simple_escape (e : ascii) : option ascii :=
  let b := byte_val e in
  if (b =? 0x22) || (b =? 0x5C) || (b =? 0x2F) then Some e
  else if b =? 98 then Some (byte_of 8)
  else if b =? 102 then Some (byte_of 12)
  else if b =? 110 then Some (byte_of 10)
  else if b =? 114 then Some (byte_of 13)
  else if b =? 116 then Some (byte_of 9)
  else None.

(** [unquote] on the raw text of a literal (between its quotes); the fuel
    is the length of the text. *)
Fixpoint unquoteBody (n : nat) (s : string) : option string :=
  match s with
  | EmptyString => Some EmptyString
  | String c rest =>
    match n with
    | O => None
    | S n' =>
      let b := byte_val c in
      if b =? 0x5C then
        match rest with
        | EmptyString => None
        | String e rest' =>
          match simple_escape e with
          | Some d => prepend_str (String d EmptyString) (unquoteBody n' rest')
          | None =>
            if byte_val e =? 117 then
              let rr := getu4 s in
              if rr <? 0 then None
              else
                let after := drop_bytes 6 s in
                if utf16.IsSurrogate rr then
                  let dec := utf16.DecodeRune rr (getu4 after) in
                  if negb (dec =? utf8.RuneError) then
                    prepend_str (utf8.EncodeRune dec)
                      (unquoteBody n' (drop_bytes 6 after))
                  else
                    prepend_str (utf8.EncodeRune utf8.RuneError)
                      (unquoteBody n' after)
                else prepend_str (utf8.EncodeRune rr) (unquoteBody n' after)
            else None
          end
        end
      else if (b =? 0x22) || (b <? 0x20) then None
      else if b <? utf8.RuneSelf then
        prepend_str (String c EmptyString) (unquoteBody n' rest)
      else
        let '(rr, size) := utf8.DecodeRune s in
        prepend_str (utf8.EncodeRune rr) (unquoteBody n' (drop_bytes size s))
    end
  end.

Definition unquote (raw : string) : option string :=
  unquoteBody (String.length raw) raw.

(** [closed esc s]: the scanner, started in state [esc], runs through [s]
    without meeting a closing quote or a control character and ends outside
    an escape. *)
Fixpoint closed (esc : bool) (s : string) : bool :=
  match s with
  | EmptyString => negb esc
  | String c r =>
    if esc then closed false r
    else if byte_val c =? 0x22 then false
    else if byte_val c =? 0x5C then closed true r
    else if byte_val c <? 0x20 then false
    else closed false r
  end.

End json.


(** ** time *)

Module time.

Definition Nanosecond : Z := 1.
Definition Second : Z := 1000000000.
Definition Minute : Z := 60 * Second.

(** A 64-bit signed integer ([int], [int64], [time.Duration]) is a [Z];
    arithmetic that can overflow wraps around. *)
Definition wrap64 (z : Z) : Z := (z + 2 ^ 63) mod 2 ^ 64 - 2 ^ 63.

(** A [time.Time]: the instant, in nanoseconds of wall-clock time since the
    Unix epoch, and the offset of its location at that instant, in seconds
    east of UTC.  The monotonic clock reading a [Time] may carry is not
    modelled: the comparisons of this program have an operand read back
    from the token file, which has none, and [Before] and [After] then
    compare wall-clock instants. *)
Record Time : Type := mkTime { unixNano : Z; zoneOffset : Z }.

Definition Add (t : Time) (d : Z) : Time :=
  mkTime (unixNano t + d) (zoneOffset t).
Definition Before (t u : Time) : bool := unixNano t <? unixNano u.
Definition After (t u : Time) : bool := unixNano u <? unixNano t.

(** *** The calendar

    The proleptic Gregorian calendar, as [absDate] and [Date] compute it:
    days are counted from 1970-01-01, and a 400-year era of 146097 days
    starts on a March 1st. *)
Definition daysToCivil (z : Z) : Z * Z * Z :=
  let z := z + 719468 in
  let era := z / 146097 in
  let doe := z mod 146097 in
  let yoe := (doe - doe / 1460 + doe / 36524 - doe / 146096) / 365 in
  let doy := doe - (365 * yoe + yoe / 4 - yoe / 100) in
  let mp := (5 * doy + 2) / 153 in
  let d := doy - (153 * mp + 2) / 5 + 1 in
  let m := if mp <? 10 then mp + 3 else mp - 9 in
  let y := yoe + era * 400 in
  (if m <=? 2 then y + 1 else y, m, d).

Definition civilToDays (y m d : Z) : Z :=
  let y := if m <=? 2 then y - 1 else y in
  let era := y / 400 in
  let yoe := y mod 400 in
  let mp := if 2 <? m then m - 3 else m + 9 in
  let doy := (153 * mp + 2) / 5 + d - 1 in
  let doe := yoe * 365 + yoe / 4 - yoe / 100 + doy in
  era * 146097 + doe - 719468.

Definition isLeap (year : Z) : bool :=
  (year mod 4 =? 0) && (negb (year mod 100 =? 0) || (year mod 400 =? 0)).

Definition daysIn (month year : Z) : Z :=
  if month =? 2 then (if isLeap year then 29 else 28)
  else if (month =? 4) || (month =? 6) || (month =? 9) || (month =? 11) then 30
  else 31.

(** *** Formatting: [appendFormatRFC3339] with nanoseconds *)

Definition digit (d : Z) : ascii := byte_of (48 + d).

(** [appendInt b x 2] and [appendInt b x 4] for [x] in range of the width. *)
Definition pad2 (x : Z) : string :=
  String (digit (x / 10)) (String (digit (x mod 10)) EmptyString).
Definition pad4 (x : Z) : string :=
  String (digit (x / 1000)) (String (digit ((x / 100) mod 10))
    (String (digit ((x / 10) mod 10)) (String (digit (x mod 10)) EmptyString))).

(** [w] decimal digits of [x], most significant first. *)
Fixpoint padN (w : nat) (x : Z) : string :=
  match w with
  | O => EmptyString
  | S w' => padN w' (x / 10) +:+ String (digit (x mod 10)) EmptyString
  end.

(** Trailing zero digits removed. *)
Fixpoint trimZeros (s : string) : string :=
  match s with
  | EmptyString => EmptyString
  | String c r =>
    match trimZeros r with
    | EmptyString => if byte_val c =? 48 then EmptyString else String c EmptyString
    | r' => String c r'
    end
  end.

(** [appendNano] for the layout [.999999999]: nothing for a whole second,
    else the period and the nine digits without their trailing zeros. *)
Definition appendNano (nanosec : Z) : string :=
  if nanosec =? 0 then EmptyString
  else String "."%char (trimZeros (padN 9 nanosec)).

Definition appendZone (offset : Z) : string :=
  if offset =? 0 then "Z"
  else
    let zone := Z.quot offset 60 in
    let sign := if zone <? 0 then "-"%char else "+"%char in
    let zone := Z.abs zone in
    String sign (pad2 (zone / 60) +:+ String ":"%char (pad2 (zone mod 60))).

Definition localSec (t : Time) : Z := unixNano t / Second + zoneOffset t.

Definition appendFormatRFC3339 (t : Time) : string :=
  let abs := localSec t in
  let '(year, month, day) := daysToCivil (abs / 86400) in
  let sod := abs mod 86400 in
  pad4 year +:+ String "-"%char (pad2 month +:+ String "-"%char (pad2 day +:+
  String "T"%char (pad2 (sod / 3600) +:+ String ":"%char
    (pad2 ((sod / 60) mod 60) +:+ String ":"%char (pad2 (sod mod 60) +:+
  appendNano (unixNano t mod Second) +:+ appendZone (zoneOffset t)))))).

(** [appendStrictRFC3339]: the text, unless the year is not four digits
    wide or the hour of the zone offset is not two digits under 24. *)
Definition appendStrictRFC3339 (t : Time) : option string :=
  let '(year, _, _) := daysToCivil (localSec t / 86400) in
  if (year <? 0) || (9999 <? year) then None
  else if negb (zoneOffset t =? 0) && (24 <=? Z.abs (Z.quot (zoneOffset t) 60) / 60)
  then None
  else Some (appendFormatRFC3339 t).

(** [Time.MarshalJSON]: the strict RFC 3339 text between quotes. *)
Definition MarshalJSON (t : Time) : option string :=
  match appendStrictRFC3339 t with
  | Some txt => Some (String dquote (txt +:+ String dquote EmptyString))
  | None => None
  end.

(** *** Parsing: [parseRFC3339] *)

Definition isDigit (c : ascii) : bool :=
  (48 <=? byte_val c) && (byte_val c <=? 57).

(** The decimal value of a string of digits. *)
Fixpoint atoi_acc (acc : Z) (s : string) : option Z :=
  match s with
  | EmptyString => Some acc
  | String c r =>
    if isDigit c then atoi_acc (acc * 10 + (byte_val c - 48)) r else None
  end.

(** The closure [parseUint] of [parseRFC3339]: digits only, value in
    [min..max]. *)
Definition parseUint (s : string) (min max : Z) : option Z :=
  match atoi_acc 0 s with
  | Some x => if (x <? min) || (max <? x) then None else Some x
  | None => None
  end.

(** The run of digits at the head of [s], and what follows it. *)
Fixpoint spanDigits (s : string) : string * string :=
  match s with
  | EmptyString => (EmptyString, EmptyString)
  | String c r =>
    if isDigit c then let '(ds, rest) := spanDigits r in (String c ds, rest)
    else (EmptyString, s)
  end.

(** [parseNanoseconds] on the digits after the period: at most nine are
    read, and scaled to nanoseconds. *)
Definition parseNanoseconds (ds : string) : Z :=
  let ds9 := take_bytes 9 ds in
  match atoi_acc 0 ds9 with
  | Some ns => ns * 10 ^ (9 - Z.of_nat (String.length ds9))
  | None => 0
  end.

Fixpoint allDigits (s : string) : bool :=
  match s with
  | EmptyString => true
  | String c r => isDigit c && allDigits r
  end.

Definition expect (c : ascii) (s : string) : option string :=
  match s with
  | String c' r => if Ascii.eqb c' c then Some r else None
  | EmptyString => None
  end.

(** The zone of an RFC 3339 text: [Z], or a sign, two digits of hours, a
    colon and two digits of minutes, and nothing after it. *)
Definition parseZone (s : string) : option Z :=
  match s with
  | String z EmptyString =>
    if Ascii.eqb z "Z"%char then Some 0 else None
  | String sg (String h1 (String h2 (String col (String m1 (String m2 EmptyString))))) =>
    match parseUint (String h1 (String h2 EmptyString)) 0 23,
          parseUint (String m1 (String m2 EmptyString)) 0 59 with
    | Some hr, Some mm =>
      if Ascii.eqb col ":"%char then
        if Ascii.eqb sg "-"%char then Some (- ((hr * 60 + mm) * 60))
        else if Ascii.eqb sg "+"%char then Some ((hr * 60 + mm) * 60)
        else None
      else None
    | _, _ => None
    end
  | _ => None
  end.

Definition bind {A B : Type} (o : option A) (f : A -> option B) : option B :=
  match o with Some a => f a | None => None end.

(** [parseRFC3339 s]: the fields are read at their fixed positions, here
    one after the other. *)
Definition parseRFC3339 (s : string) : option Time :=
  bind (parseUint (take_bytes 4 s) 0 9999) (fun year =>
  bind (expect "-"%char (drop_bytes 4 s)) (fun s =>
  bind (parseUint (take_bytes 2 s) 1 12) (fun month =>
  bind (expect "-"%char (drop_bytes 2 s)) (fun s =>
  bind (parseUint (take_bytes 2 s) 1 (daysIn month year)) (fun day =>
  bind (expect "T"%char (drop_bytes 2 s)) (fun s =>
  bind (parseUint (take_bytes 2 s) 0 23) (fun hour =>
  bind (expect ":"%char (drop_bytes 2 s)) (fun s =>
  bind (parseUint (take_bytes 2 s) 0 59) (fun min =>
  bind (expect ":"%char (drop_bytes 2 s)) (fun s =>
  bind (parseUint (take_bytes 2 s) 0 59) (fun sec =>
  let s := drop_bytes 2 s in
  let '(nsec, s) :=
    match s with
    | String p (String d r) =>
      if Ascii.eqb p "."%char && isDigit d then
        let '(ds, rest) := spanDigits (String d r) in (parseNanoseconds ds, rest)
      else (0, s)
    | _ => (0, s)
    end in
  bind (parseZone s) (fun offset =>
  let unix := civilToDays year month day * 86400
              + hour * 3600 + min * 60 + sec - offset in
  Some (mkTime (unix * Second + nsec) offset))))))))))))).

(** [Time.UnmarshalJSON] on the raw text of a JSON string literal (between
    its quotes, escapes not interpreted).  Go falls back to the
    layout-driven [Parse] for a text [parseRFC3339] refuses, which accepts
    a few more spellings; that fallback is not modelled, and such a text is
    an error here. *)
Definition UnmarshalJSON (raw : string) : option Time := parseRFC3339 raw.

End time.

(** ** Errors

    A Go [error] is a message, possibly wrapping another error
    ([fmt.Errorf] with [%w]), or an error of the operating system. *)

Inductive errno : Type :=
| ENOENT | ENOTDIR | EISDIR | EACCES | EEXIST
| EUSER.  (** [user.Current] could not find the user *)

Inductive error : Type :=
| ErrOS (e : errno)
| ErrJSON (msg : string)
| Errorf (msg : string)
| ErrorfInt (msg : string) (n : Z)
| ErrWrap (msg : string) (e : error).

Inductive result (A : Type) : Type :=
| Ok (a : A)
| Err (e : error).
Arguments Ok {A} a.
Arguments Err {A} e.

(** [os.IsNotExist]. *)
Definition IsNotExist (e : error) : bool :=
  match e with
  | ErrOS ENOENT => true
  | _ => false
  end.

(** ** The data of package auth *)

Definition DefaultClientID : string := "e16f7d194de8467882f2f198eec1729f".
Definition DefaultPort : string := "8808".
Definition DefaultRedirectURI : string := "http://127.0.0.1:8808/callback".
Definition TokenFileName : string := "token.json".
Definition ConfigDirName : string := "moodify".

Definition CommonPorts : list string := ["8808"; "8080"; "3000"; "8000"; "9000"].

Record Config : Type := mkConfig {
  ClientID : string;
  RedirectURI : string;
  Port : string;
  Scopes : list string
}.

Definition DefaultConfig : Config :=
  {| ClientID := DefaultClientID;
     RedirectURI := DefaultRedirectURI;
     Port := DefaultPort;
     Scopes := ["user-top-read"; "playlist-modify-private"; "user-read-private"] |}.

(** [oauth2.Token], with the four fields this package reads and writes. *)
Record Token : Type := mkToken {
  AccessToken : string;
  RefreshToken : string;
  TokenType : string;
  Expiry : time.Time
}.

(** [TokenStore]: the record written to the token file, with the JSON keys
    [access_token], [refresh_token], [token_type] and [expiry]. *)
Record TokenStore : Type := mkTokenStore {
  ts_AccessToken : string;
  ts_RefreshToken : string;
  ts_TokenType : string;
  ts_Expiry : time.Time
}.

(** The zero [time.Time]: January 1, year 1, 00:00:00 UTC. *)
Definition zeroTime : time.Time := time.mkTime (-62135596800 * time.Second) 0.

Definition zeroTokenStore : TokenStore :=
  mkTokenStore EmptyString EmptyString EmptyString zeroTime.

(** ** encoding/json: the token file *)

Module tokenjson.
Import json.

Definition indent : string := "  ".

(** A string literal with the raw text [body]. *)
Definition quoted (body : string) : string :=
  String dquote (body +:+ String dquote EmptyString).

(** One member of the indented object: the key, a colon, a space and the
    value, on a line of its own. *)
Definition member (key value rest : string) : string :=
  String newline (indent +:+ appendString key +:+ String ":"%char
    (String " "%char (value +:+ rest))).

(** [json.MarshalIndent(tokenStore, "", "  ")]; it fails when [Expiry]
    cannot be written as an RFC 3339 time. *)
Definition MarshalIndent (ts : TokenStore) : option string :=
  match time.MarshalJSON (ts_Expiry ts) with
  | None => None
  | Some expiry =>
    Some (String "{"%char
      (member "access_token" (appendString (ts_AccessToken ts)) (String ","%char
      (member "refresh_token" (appendString (ts_RefreshToken ts)) (String ","%char
      (member "token_type" (appendString (ts_TokenType ts)) (String ","%char
      (member "expiry" expiry (String newline (String "}"%char EmptyString))))))))))
  end.

Definition isSpace (c : ascii) : bool :=
  let b := byte_val c in (b =? 32) || (b =? 9) || (b =? 13) || (b =? 10).

Fixpoint skip_ws (s : string) : string :=
  match s with
  | EmptyString => EmptyString
  | String c r => if isSpace c then skip_ws r else s
  end.

Definition is_empty (s : string) : bool :=
  match s with EmptyString => true | _ => false end.

(** A value of the token file: a string literal (its raw text) or [null]. *)
Inductive jvalue : Type :=
| JString (raw : string)
| JNull.

Definition scan_value (s : string) : option (jvalue * string) :=
  match s with
  | String c r =>
    if byte_val c =? 0x22 then
      match scan_string false r with
      | Some (raw, rest) => Some (JString raw, rest)
      | None => None
      end
    else if String.eqb (take_bytes 4 s) "null" then Some (JNull, drop_bytes 4 s)
    else None
  | EmptyString => None
  end.

(** Keys are matched to fields without regard to the case of ASCII
    letters. *)
Definition foldByte (c : ascii) : ascii :=
  let b := byte_val c in
  if (97 <=? b) && (b <=? 122) then byte_of (b - 32) else c.

Fixpoint foldName (s : string) : string :=
  match s with
  | EmptyString => EmptyString
  | String c r => String (foldByte c) (foldName r)
  end.

Definition keyIs (name key : string) : bool :=
  String.eqb (foldName name) (foldName key).

Definition set_string (v : jvalue) (old : string) : option string :=
  match v with
  | JNull => Some old
  | JString raw => unquote raw
  end.

(** One member decoded into the record: a [null] leaves the field as it
    is, a key that names no field is skipped. *)
Definition set_field (key : string) (v : jvalue) (ts : TokenStore)
  : option TokenStore :=
  if keyIs "access_token" key then
    match set_string v (ts_AccessToken ts) with
    | Some s => Some (mkTokenStore s (ts_RefreshToken ts) (ts_TokenType ts) (ts_Expiry ts))
    | None => None
    end
  else if keyIs "refresh_token" key then
    match set_string v (ts_RefreshToken ts) with
    | Some s => Some (mkTokenStore (ts_AccessToken ts) s (ts_TokenType ts) (ts_Expiry ts))
    | None => None
    end
  else if keyIs "token_type" key then
    match set_string v (ts_TokenType ts) with
    | Some s => Some (mkTokenStore (ts_AccessToken ts) (ts_RefreshToken ts) s (ts_Expiry ts))
    | None => None
    end
  else if keyIs "expiry" key then
    match v with
    | JNull => Some ts
    | JString raw =>
      match time.UnmarshalJSON raw with
      | Some t => Some (mkTokenStore (ts_AccessToken ts) (ts_RefreshToken ts) (ts_TokenType ts) t)
      | None => None
      end
    end
  else
    match set_string v EmptyString with
    | Some _ => Some ts
    | None => None
    end.

(** The members of an object, from the first key to the closing brace and
    the end of the text. *)
Fixpoint object_members (n : nat) (s : string) (ts : TokenStore)
  : option TokenStore :=
  match n with
  | O => None
  | S n' =>
    match skip_ws s with
    | String q r =>
      if byte_val q =? 0x22 then
        match scan_string false r with
        | Some (rawk, r1) =>
          match unquote rawk, time.expect ":"%char (skip_ws r1) with
          | Some key, Some r2 =>
            match scan_value (skip_ws r2) with
            | Some (v, r3) =>
              match set_field key v ts, skip_ws r3 with
              | Some ts', String d r4 =>
                if byte_val d =? 0x2C then object_members n' r4 ts'
                else if byte_val d =? 0x7D then
                  (if is_empty (skip_ws r4) then Some ts' else None)
                else None
              | _, _ => None
              end
            | None => None
            end
          | _, _ => None
          end
        | None => None
        end
      else None
    | EmptyString => None
    end
  end.

(** [json.Unmarshal(data, &tokenStore)] on the JSON texts made of one
    object whose values are string literals or [null] (every file
    [saveToken] writes is one), and on [null].  A text with a value of
    another kind is not modelled and is an error here. *)
Definition Unmarshal (data : string) (ts : TokenStore) : option TokenStore :=
  match skip_ws data with
  | String c r =>
    if byte_val c =? 0x7B then
      match skip_ws r with
      | String d r' =>
        if byte_val d =? 0x7D then (if is_empty (skip_ws r') then Some ts else None)
        else object_members (String.length data) r ts
      | EmptyString => None
      end
    else if String.eqb (take_bytes 4 (String c r)) "null"
            && is_empty (skip_ws (drop_bytes 4 (String c r)))
    then Some ts
    else None
  | EmptyString => None
  end.

End tokenjson.

(** ** The world: os, os/user, time, net/http and log

    The package acts on the file system, reads the clock, posts forms to
    the token endpoint and writes log lines.  A [World] holds what these
    calls read and change. *)

(** A path is the list of its components from the root;
    [filepath.Join] appends components. *)
Inductive node : Type :=
| Dir (perm : Z)
| File (perm : Z) (data : string).

(** File modes, written in octal in the source. *)
Definition mode_0600 : Z := 6 * 64.
Definition mode_0755 : Z := 7 * 64 + 5 * 8 + 5.

(** The JSON body the token endpoint answers with. *)
Record tokenResp : Type := mkTokenResp {
  tr_AccessToken : string;
  tr_TokenType : string;
  tr_RefreshToken : string;
  tr_ExpiresIn : Z;
  tr_Scope : string
}.

(** What [http.PostForm] to the token endpoint gives: an error of the
    transport, or a response with its status and its body decoded into
    [tokenResp] ([None] when the body does not decode). *)
Inductive PostResult : Type :=
| PostFailed (e : error)
| PostResponse (status : Z) (body : option tokenResp).

Inductive logEntry : Type :=
| LogLine (msg : string)
| LogWarning (msg : string) (e : error).

Record World : Type := mkWorld {
  home : option (list string);
    (** [user.Current]: the home directory, or no current user *)
  umask : Z;
  fs : gmap (list string) node;
  clock : Z;
    (** the wall clock, in nanoseconds since the Unix epoch *)
  zone : Z;
    (** the offset of the local time zone, in seconds *)
  endpoint : nat -> list (string * string) -> PostResult * Z;
    (** the answer of the token endpoint to the n-th form posted, and the
        time the exchange takes *)
  posts : list (list (string * string));
    (** the forms posted to the token endpoint so far *)
  logged : list logEntry;
  can_listen : string -> bool
    (** whether [net.Listen] on a TCP address succeeds *)
}.

Definition set_fs (w : World) (f : gmap (list string) node) : World :=
  mkWorld (home w) (umask w) f (clock w) (zone w) (endpoint w) (posts w)
    (logged w) (can_listen w).

Definition add_log (w : World) (l : logEntry) : World :=
  mkWorld (home w) (umask w) (fs w) (clock w) (zone w) (endpoint w) (posts w)
    (logged w ++ [l]) (can_listen w).

Definition add_post (w : World) (form : list (string * string)) (elapsed : Z)
  : World :=
  mkWorld (home w) (umask w) (fs w) (clock w + elapsed) (zone w) (endpoint w)
    (posts w ++ [form]) (logged w) (can_listen w).

(** *** Functions that may fail and act on the world *)

Definition M (A : Type) : Type := World -> result A * World.

Definition ret {A : Type} (a : A) : M A := fun w => (Ok a, w).

Definition fail {A : Type} (e : error) : M A := fun w => (Err e, w).

Definition bindM {A B : Type} (m : M A) (k : A -> M B) : M B :=
  fun w =>
    match m w with
    | (Ok a, w') => k a w'
    | (Err e, w') => (Err e, w')
    end.

Notation "'do' x <- m ; k" := (bindM m (fun x => k))
  (at level 10, x name, m at level 100, k at level 200).

(** [if err != nil { return fmt.Errorf("msg: %w", err) }]. *)
Definition wrapErr {A : Type} (msg : string) (m : M A) : M A :=
  fun w =>
    match m w with
    | (Err e, w') => (Err (ErrWrap msg e), w')
    | r => r
    end.

(** A call whose error the caller looks at without returning it. *)
Definition attempt {A : Type} (m : M A) : M (result A) :=
  fun w => let '(r, w') := m w in (Ok r, w').

(** *** os

    Access is decided by the owner bits of a node, and of the directory a
    node is created in: the process is taken to own the tree and not to
    run as root.  A failure of the device is not modelled. *)

Definition can_read (perm : Z) : bool := Z.testbit perm 8.
Definition can_write (perm : Z) : bool := Z.testbit perm 7.
Definition can_search (perm : Z) : bool := Z.testbit perm 6.

Definition node_at (f : gmap (list string) node) (p : list string) : option node :=
  match p with
  | [] => Some (Dir mode_0755)
  | _ => f !! p
  end.

Definition parent (p : list string) : list string := removelast p.

(** [os.Mkdir]: the new directory gets [perm] less the bits of the umask. *)
Definition os_Mkdir (p : list string) (perm : Z) : M unit :=
  fun w =>
    match node_at (fs w) p with
    | Some _ => (Err (ErrOS EEXIST), w)
    | None =>
      match node_at (fs w) (parent p) with
      | Some (Dir m) =>
        if can_write m && can_search m
        then (Ok tt, set_fs w (<[p := Dir (Z.ldiff perm (umask w))]> (fs w)))
        else (Err (ErrOS EACCES), w)
      | Some (File _ _) => (Err (ErrOS ENOTDIR), w)
      | None => (Err (ErrOS ENOENT), w)
      end
    end.

(** [os.MkdirAll]: nothing to do for a directory that exists; else the
    parent is made first, then the directory itself. *)
Fixpoint MkdirAll_rec (n : nat) (p : list string) (perm : Z) : M unit :=
  fun w =>
    match node_at (fs w) p with
    | Some (Dir _) => (Ok tt, w)
    | Some (File _ _) => (Err (ErrOS ENOTDIR), w)
    | None =>
      match n with
      | O => (Err (ErrOS ENOENT), w)
      | S n' =>
        match MkdirAll_rec n' (parent p) perm w with
        | (Ok _, w') => os_Mkdir p perm w'
        | (Err e, w') => (Err e, w')
        end
      end
    end.

Definition os_MkdirAll (p : list string) (perm : Z) : M unit :=
  MkdirAll_rec (length p) p perm.

(** [os.WriteFile]: a file that exists is truncated and written, its mode
    unchanged; else it is created with [perm] less the bits of the umask. *)
Definition os_WriteFile (p : list string) (data : string) (perm : Z) : M unit :=
  fun w =>
    match node_at (fs w) p with
    | Some (Dir _) => (Err (ErrOS EISDIR), w)
    | Some (File m _) =>
      if can_write m then (Ok tt, set_fs w (<[p := File m data]> (fs w)))
      else (Err (ErrOS EACCES), w)
    | None =>
      match node_at (fs w) (parent p) with
      | Some (Dir m) =>
        if can_write m && can_search m
        then (Ok tt, set_fs w (<[p := File (Z.ldiff perm (umask w)) data]> (fs w)))
        else (Err (ErrOS EACCES), w)
      | Some (File _ _) => (Err (ErrOS ENOTDIR), w)
      | None => (Err (ErrOS ENOENT), w)
      end
    end.

Definition os_ReadFile (p : list string) : M string :=
  fun w =>
    match node_at (fs w) p with
    | Some (File m data) =>
      if can_read m then (Ok data, w) else (Err (ErrOS EACCES), w)
    | Some (Dir _) => (Err (ErrOS EISDIR), w)
    | None => (Err (ErrOS ENOENT), w)
    end.

Definition user_Current : M (list string) :=
  fun w =>
    match home w with
    | Some h => (Ok h, w)
    | None => (Err (ErrOS EUSER), w)
    end.

(** [time.Now()]: the wall clock in the local zone. *)
Definition now_of (w : World) : time.Time := time.mkTime (clock w) (zone w).

Definition time_Now : M time.Time := fun w => (Ok (now_of w), w).

Definition log_Println (msg : string) : M unit :=
  fun w => (Ok tt, add_log w (LogLine msg)).

Definition log_Printf (msg : string) (e : error) : M unit :=
  fun w => (Ok tt, add_log w (LogWarning msg e)).

(** [http.PostForm] to [https://accounts.spotify.com/api/token]. *)
Definition http_PostForm (form : list (string * string))
  : M (Z * option tokenResp) :=
  fun w =>
    let '(res, elapsed) := endpoint w (length (posts w)) form in
    let w' := add_post w form elapsed in
    match res with
    | PostFailed e => (Err e, w')
    | PostResponse status body => (Ok (status, body), w')
    end.

Definition StatusOK : Z := 200.
Definition StatusBadRequest : Z := 400.
Definition StatusInternalServerError : Z := 500.

(** ** The token store *)

Definition getConfigDir : M (list string) :=
  do usr <- wrapErr "failed to get current user" user_Current ;
  ret (usr ++ [".config"; ConfigDirName]).

Definition getTokenPath : M (list string) :=
  do configDir <- getConfigDir ;
  do _ <- wrapErr "failed to create config directory"
         (os_MkdirAll configDir mode_0755) ;
  ret (configDir ++ [TokenFileName]).

Definition saveToken (token : Token) : M unit :=
  do tokenPath <- getTokenPath ;
  let tokenStore :=
    mkTokenStore (AccessToken token) (RefreshToken token) (TokenType token)
      (Expiry token) in
  do data <- (match tokenjson.MarshalIndent tokenStore with
           | Some data => ret data
           | None => fail (ErrWrap "failed to marshal token"
                             (ErrJSON "Time.MarshalJSON"))
           end) ;
  wrapErr "failed to write token file" (os_WriteFile tokenPath data mode_0600).

Definition loadToken : M Token :=
  do tokenPath <- getTokenPath ;
  do data <- (fun w =>
             match os_ReadFile tokenPath w with
             | (Err e, w') =>
               if IsNotExist e
               then (Err (Errorf "no token found, please run login first"), w')
               else (Err (ErrWrap "failed to read token file" e), w')
             | r => r
             end) ;
  match tokenjson.Unmarshal data zeroTokenStore with
  | None => fail (ErrWrap "failed to unmarshal token" (ErrJSON "Unmarshal"))
  | Some tokenStore =>
    ret (mkToken (ts_AccessToken tokenStore) (ts_RefreshToken tokenStore)
           (ts_TokenType tokenStore) (ts_Expiry tokenStore))
  end.

(** ** The token endpoint *)

Definition tokenOfResponse (r : tokenResp) (refresh : string) (now : time.Time)
  : Token :=
  mkToken (tr_AccessToken r) refresh (tr_TokenType r)
    (time.Add now (time.wrap64 (tr_ExpiresIn r * time.Second))).

Definition exchangeCodeForToken (config : Config) (code codeVerifier : string)
  : M Token :=
  let data := [("grant_type", "authorization_code");
               ("client_id", ClientID config);
               ("code", code);
               ("redirect_uri", RedirectURI config);
               ("code_verifier", codeVerifier)] in
  do resp <- wrapErr "token request failed" (http_PostForm data) ;
  let '(status, body) := resp in
  if negb (status =? StatusOK) then
    fail (ErrorfInt "token request failed with status" status)
  else
    match body with
    | None => fail (ErrWrap "failed to decode token response" (ErrJSON "Decode"))
    | Some tokenResp =>
      do now <- time_Now ;
      ret (tokenOfResponse tokenResp (tr_RefreshToken tokenResp) now)
    end.

Definition refreshToken (config : Config) (refreshToken : string) : M Token :=
  let data := [("grant_type", "refresh_token");
               ("refresh_token", refreshToken);
               ("client_id", ClientID config)] in
  do resp <- wrapErr "refresh request failed" (http_PostForm data) ;
  let '(status, body) := resp in
  if negb (status =? StatusOK) then
    fail (ErrorfInt "refresh request failed with status" status)
  else
    match body with
    | None => fail (ErrWrap "failed to decode refresh response" (ErrJSON "Decode"))
    | Some tokenResp =>
      (* Use existing refresh token if new one not provided *)
      let refresh :=
        if String.eqb (tr_RefreshToken tokenResp) EmptyString
        then refreshToken else tr_RefreshToken tokenResp in
      do now <- time_Now ;
      ret (tokenOfResponse tokenResp refresh now)
    end.

(** ** The orchestrator *)

(** A [spotify.Client]: the OAuth2 configuration and the token its HTTP
    client is bound to. *)
Record Client : Type := mkClient {
  client_ClientID : string;
  client_RedirectURL : string;
  client_Scopes : list string;
  client_token : Token
}.

Definition needsRefresh (token : Token) (now : time.Time) : bool :=
  time.Before (Expiry token) (time.Add now (5 * time.Minute)).

Definition GetAuthenticatedClient (config : Config) : M Client :=
  do token <- loadToken ;
  do now <- time_Now ;
  do token <- (if needsRefresh token now then
              do _ <- log_Println "Token expired or expiring soon, refreshing..." ;
              do refreshedToken <- wrapErr "failed to refresh token"
                                  (refreshToken config (RefreshToken token)) ;
              do saved <- attempt (saveToken refreshedToken) ;
              do _ <- (match saved with
                    | Err e => log_Printf "Warning: failed to save refreshed token" e
                    | Ok _ => ret tt
                    end) ;
              ret refreshedToken
            else ret token) ;
  ret (mkClient (ClientID config) (RedirectURI config) (Scopes config) token).

Definition QuickCheck : World -> bool * World :=
  fun w =>
    match loadToken w with
    | (Err _, w') => (false, w')
    | (Ok token, w') =>
      (time.After (Expiry token) (time.Add (now_of w') (1 * time.Minute)), w')
    end.

(** ** Login: the callback handler and the race

    [Login] starts an HTTP server whose handler for [/callback] runs once
    per request, each in a goroutine of its own, and then waits in a
    [select] for a token, an error or the end of the context.  The PKCE
    verifier and the state are drawn from [crypto/rand] at the start of the
    attempt. *)

Record Attempt : Type := mkAttempt {
  at_config : Config;
  at_state : string;
  at_codeVerifier : string
}.

(** A request: the parsed form, as [r.FormValue] reads it. *)
Record Request : Type := mkRequest { form : list (string * string) }.

Fixpoint FormValue_rec (f : list (string * string)) (key : string) : string :=
  match f with
  | [] => EmptyString
  | (k, v) :: rest => if String.eqb k key then v else FormValue_rec rest key
  end.

Definition FormValue (r : Request) (key : string) : string :=
  FormValue_rec (form r) key.

(** What the handler writes to the [http.ResponseWriter]. *)
Inductive Reply : Type :=
| HttpError (msg : string) (code : Z)
| SuccessPage.

(** The send the handler ends with. *)
Inductive Signal : Type :=
| SendErr (e : error)
| SendToken (token : Token).

(** The handler registered for [/callback]. *)
Definition callback (a : Attempt) (r : Request) : World -> (Reply * Signal) * World :=
  fun w =>
    (* Check state parameter *)
    if negb (String.eqb (FormValue r "state") (at_state a)) then
      ((HttpError "Invalid state parameter" StatusBadRequest,
        SendErr (Errorf "invalid state parameter")), w)
    else
      (* Check for authorization error *)
      let authError := FormValue r "error" in
      if negb (String.eqb authError EmptyString) then
        let errorDesc := FormValue r "error_description" in
        ((HttpError ("Authorization error: " +:+ authError +:+ " - " +:+ errorDesc)
            StatusBadRequest,
          SendErr (Errorf ("authorization error: " +:+ authError +:+ " - " +:+ errorDesc))),
         w)
      else
        (* Get authorization code *)
        let code := FormValue r "code" in
        if String.eqb code EmptyString then
          ((HttpError "No authorization code received" StatusBadRequest,
            SendErr (Errorf "no authorization code received")), w)
        else
          (* Exchange code for token with PKCE *)
          match exchangeCodeForToken (at_config a) code (at_codeVerifier a) w with
          | (Err err, w') =>
            ((HttpError "Failed to exchange code for token" StatusInternalServerError,
              SendErr (ErrWrap "failed to exchange code for token" err)), w')
          | (Ok token, w') => ((SuccessPage, SendToken token), w')
          end.

Inductive ServerState : Type :=
| Serving     (** [ListenAndServe] is running *)
| ListenFailed  (** [ListenAndServe] returned an error *)
| ShutDown.   (** [server.Shutdown] was called *)

(** The state of one [Login]: the two channels of capacity one (what is
    buffered, and the values of the handlers blocked in a send on a full
    channel), what the handlers wrote, the server, the context, and the
    value [Login] returned once it has.  [sends] counts the sends the
    handlers have started. *)
Record LoginState : Type := mkLoginState {
  world : World;
  tokenChan : list Token;
  tokenBlocked : list Token;
  errChan : list error;
  errBlocked : list error;
  sends : nat;
  replies : list Reply;
  server : ServerState;
  ctxDone : bool;
  returned : option (option error)
}.

Definition Login_start (w : World) : LoginState :=
  mkLoginState w [] [] [] [] 0 [] Serving false None.

(** A send on a channel of capacity one: buffered when the slot is free,
    else the sender blocks. *)
Definition chan_send {A : Type} (buf blocked : list A) (x : A) : list A * list A :=
  match buf with
  | [] => ([x], blocked)
  | _ => (buf, blocked ++ [x])
  end.

(** A receive: the buffered value, and the first blocked sender moves its
    value into the slot. *)
Definition chan_recv {A : Type} (buf blocked : list A) : option (A * list A * list A) :=
  match buf with
  | [] => None
  | x :: _ =>
    match blocked with
    | [] => Some (x, [], [])
    | y :: rest => Some (x, [y], rest)
    end
  end.

Definition deliver (sig : Signal) (s : LoginState) : LoginState :=
  match sig with
  | SendErr e =>
    let '(buf, blocked) := chan_send (errChan s) (errBlocked s) e in
    mkLoginState (world s) (tokenChan s) (tokenBlocked s) buf blocked
      (S (sends s)) (replies s) (server s) (ctxDone s) (returned s)
  | SendToken t =>
    let '(buf, blocked) := chan_send (tokenChan s) (tokenBlocked s) t in
    mkLoginState (world s) buf blocked (errChan s) (errBlocked s)
      (S (sends s)) (replies s) (server s) (ctxDone s) (returned s)
  end.

(** The cases of the [select]. *)
Inductive SelectCase : Type :=
| CaseToken
| CaseErr
| CaseDone.

Inductive Event : Type :=
| EvRequest (r : Request)     (** the server serves a request to [/callback] *)
| EvListenError (e : error)   (** [ListenAndServe] fails *)
| EvCancel                    (** the context is cancelled or expires *)
| EvSelect (c : SelectCase).  (** the [select] of [Login] takes a case *)

(** [Login] returns [err] after [server.Shutdown(ctx)]. *)
Definition finish (s : LoginState) (w : World) (tc tb : list Token)
  (ec eb : list error) (err : option error) : LoginState :=
  mkLoginState w tc tb ec eb (sends s) (replies s) ShutDown (ctxDone s) (Some err).

(** One step of a [Login] in progress; [None] when the event cannot
    happen in the state. *)
Definition Login_step (a : Attempt) (s : LoginState) (ev : Event)
  : option LoginState :=
  match ev with
  | EvRequest r =>
    match server s with
    | Serving =>
      let '((reply, sig), w') := callback a r (world s) in
      Some (deliver sig
              (mkLoginState w' (tokenChan s) (tokenBlocked s) (errChan s)
                 (errBlocked s) (sends s) (replies s ++ [reply]) (server s)
                 (ctxDone s) (returned s)))
    | _ => None
    end
  | EvListenError e =>
    match server s with
    | Serving =>
      let '(buf, blocked) :=
        chan_send (errChan s) (errBlocked s) (ErrWrap "callback server error" e) in
      Some (mkLoginState (world s) (tokenChan s) (tokenBlocked s) buf blocked
              (sends s) (replies s) ListenFailed (ctxDone s) (returned s))
    | _ => None
    end
  | EvCancel =>
    Some (mkLoginState (world s) (tokenChan s) (tokenBlocked s) (errChan s)
            (errBlocked s) (sends s) (replies s) (server s) true (returned s))
  | EvSelect c =>
    match returned s with
    | Some _ => None
    | None =>
      match c with
      | CaseToken =>
        match chan_recv (tokenChan s) (tokenBlocked s) with
        | Some (token, tc, tb) =>
          (* Save token *)
          match saveToken token (world s) with
          | (Err err, w') =>
            Some (finish s w' tc tb (errChan s) (errBlocked s)
                    (Some (ErrWrap "failed to save token" err)))
          | (Ok _, w') =>
            Some (finish s w' tc tb (errChan s) (errBlocked s) None)
          end
        | None => None
        end
      | CaseErr =>
        match chan_recv (errChan s) (errBlocked s) with
        | Some (err, ec, eb) =>
          Some (finish s (world s) (tokenChan s) (tokenBlocked s) ec eb (Some err))
        | None => None
        end
      | CaseDone =>
        if ctxDone s then
          Some (finish s (world s) (tokenChan s) (tokenBlocked s) (errChan s)
                  (errBlocked s) (Some (Errorf "authentication cancelled")))
        else None
      end
    end
  end.

(** A run of events from a state. *)
Fixpoint Login_run (a : Attempt) (s : LoginState) (evs : list Event)
  : option LoginState :=
  match evs with
  | [] => Some s
  | ev :: rest =>
    match Login_step a s ev with
    | Some s' => Login_run a s' rest
    | None => None
    end
  end.

(** ** Listening addresses *)

(** The server of [Login] listens on [server.Addr]. *)
Definition server_Addr (config : Config) : string := ":" +:+ Port config.

(** [isPortAvailable port]: whether [net.Listen("tcp", ":"+port)]
    succeeds; the listener is closed at once. *)
Definition probe_Addr (port : string) : string := ":" +:+ port.

Definition isPortAvailable (port : string) (w : World) : bool :=
  can_listen w (probe_Addr port).

(** The text before the last colon of an address and the text after it. *)
Fixpoint splitLastColon (s : string) : option (string * string) :=
  match s with
  | EmptyString => None
  | String c r =>
    match splitLastColon r with
    | Some (h, p) => Some (String c h, p)
    | None => if byte_val c =? 58 then Some (EmptyString, r) else None
    end
  end.

Fixpoint hasColon (s : string) : bool :=
  match s with
  | EmptyString => false
  | String c r => (byte_val c =? 58) || hasColon r
  end.

(** [net.SplitHostPort] for a host that is not in brackets: the host may
    hold no colon. *)
Definition SplitHostPort (hostport : string) : option (string * string) :=
  match splitLastColon hostport with
  | Some (host, port) => if hasColon host then None else Some (host, port)
  | None => None
  end.

(** A listener is bound to the loopback interface alone when the host of
    its address names it; with an empty host [net.Listen] listens on all
    the addresses of the machine. *)
Definition isLoopbackHost (host : string) : bool :=
  String.eqb host "127.0.0.1" || String.eqb host "localhost".

Definition listensOnLoopbackOnly (addr : string) : bool :=
  match SplitHostPort addr with
  | Some (host, _) => isLoopbackHost host
  | None => false
  end.

Definition listensOnAllInterfaces (addr : string) : bool :=
  match SplitHostPort addr with
  | Some (host, _) => String.eqb host EmptyString
  | None => false
  end.

(** ** What a call leaves unchanged *)

(** [same_but_fs w w']: only the file system differs. *)
Definition same_but_fs (w w' : World) : Prop := w' = set_fs w (fs w').

(** [grows p perm w w']: from [w] to [w'] nothing of the file system is
    changed or removed, and what is new is a directory on the way to [p]. *)
Definition grows (p : list string) (perm : Z) (w w' : World) : Prop :=
  same_but_fs w w' /\
  (forall q nd, fs w !! q = Some nd -> fs w' !! q = Some nd) /\
  (forall q nd, fs w !! q = None -> fs w' !! q = Some nd ->
     nd = Dir (Z.ldiff perm (umask w)) /\ q `prefix_of` p).

Definition configDirOf (h : list string) : list string := h ++ [".config"; ConfigDirName].

Definition tokenPathOf (h : list string) : list string := configDirOf h ++ [TokenFileName].

(** [dirs_only w w']: from [w] to [w'] nothing but the file system
    changes, no node of it is changed or removed, and a new node is a
    directory on the way to the configuration directory. *)
Definition dirs_only (w w' : World) : Prop :=
  same_but_fs w w' /\
  (forall q nd, fs w !! q = Some nd -> fs w' !! q = Some nd) /\
  (forall q nd, fs w !! q = None -> fs w' !! q = Some nd ->
     exists h, home w = Some h /\ nd = Dir (Z.ldiff mode_0755 (umask w)) /\
               q `prefix_of` configDirOf h).

(** ** Sample worlds, requests and tokens *)

Definition sample_home : list string := ["home"; "ada"].

(** A home directory without a configuration directory. *)
Definition fresh_fs : gmap (list string) node :=
  <[ ["home"] := Dir mode_0755 ]> (<[ sample_home := Dir mode_0755 ]> ∅).

Definition sample_clock : Z := 1793430600 * time.Second.

(** An endpoint that answers every form with a new access token, valid
    for an hour, and no refresh token. *)
Definition granting_endpoint : nat -> list (string * string) -> PostResult * Z :=
  fun _ _ =>
    (PostResponse StatusOK
       (Some (mkTokenResp "new-access" "Bearer" EmptyString 3600 "user-top-read")),
     2 * time.Second).

(** An endpoint that refuses every form. *)
Definition refusing_endpoint : nat -> list (string * string) -> PostResult * Z :=
  fun _ _ => (PostResponse StatusBadRequest None, 2 * time.Second).

Definition sample_world (f : gmap (list string) node)
    (ep : nat -> list (string * string) -> PostResult * Z) : World :=
  mkWorld (Some sample_home) 18 f sample_clock 3600 ep [] [] (fun _ => true).

Definition fresh_world : World := sample_world fresh_fs granting_endpoint.

(** A token that expires [d] nanoseconds after [sample_clock]. *)
Definition token_expiring_in (d : Z) : Token :=
  mkToken "old-access" "old-refresh" "Bearer"
    (time.mkTime (sample_clock + d) 3600).

(** The world after [saveToken] of such a token in [fresh_world]. *)
Definition world_with_token (d : Z) : World :=
  snd (saveToken (token_expiring_in d) fresh_world).

(** The same, with the token file made read-only and the given endpoint. *)
Definition readonly_world (d : Z)
    (ep : nat -> list (string * string) -> PostResult * Z) : World :=
  let w := world_with_token d in
  match fs w !! tokenPathOf sample_home with
  | Some (File _ data) =>
    sample_world (<[ tokenPathOf sample_home := File (4 * 64) data ]> (fs w)) ep
  | _ => w
  end.

Definition set_endpoint (w : World)
    (ep : nat -> list (string * string) -> PostResult * Z) : World :=
  mkWorld (home w) (umask w) (fs w) (clock w) (zone w) ep (posts w) (logged w)
    (can_listen w).

Definition sample_attempt : Attempt :=
  mkAttempt DefaultConfig "state-1" "verifier-1".

Definition good_request (code : string) : Request :=
  mkRequest [("code", code); ("state", "state-1")].

Definition forged_request : Request :=
  mkRequest [("code", "stolen"); ("state", "state-2")].

(** A token whose access token is the single byte [0xFF], which is not
    UTF-8. *)
Definition binary_token : Token :=
  mkToken (String (byte_of 255) EmptyString) "r" "Bearer"
    (time.mkTime sample_clock 0).

(** ** Forms, notices and sample states *)

(** The form [exchangeCodeForToken] posts. *)
Definition exchange_form (a : Attempt) (code : string) : list (string * string) :=
  [("grant_type", "authorization_code");
   ("client_id", ClientID (at_config a));
   ("code", code);
   ("redirect_uri", RedirectURI (at_config a));
   ("code_verifier", at_codeVerifier a)].

(** Whether the handler gets as far as the token exchange for a request. *)
Definition reaches_exchange (a : Attempt) (r : Request) : bool :=
  String.eqb (FormValue r "state") (at_state a)
  && String.eqb (FormValue r "error") EmptyString
  && negb (String.eqb (FormValue r "code") EmptyString).

(** The state of [Login] after a first good request has been served. *)
Definition after_first_request : LoginState :=
  match Login_step sample_attempt (Login_start fresh_world)
          (EvRequest (good_request "code-1")) with
  | Some s => s
  | None => Login_start fresh_world
  end.

(** [Login] waiting, with the context cancelled before any request. *)
Definition cancelled_login : LoginState :=
  mkLoginState fresh_world [] [] [] [] 0 [] Serving true None.

(** The form [refreshToken] posts. *)
Definition refresh_form (config : Config) (refresh : string) : list (string * string) :=
  [("grant_type", "refresh_token"); ("refresh_token", refresh);
   ("client_id", ClientID config)].

(** The token the granting endpoint gives for the old refresh token. *)
Definition refreshed_sample : Token :=
  mkToken "new-access" "old-refresh" "Bearer"
    (time.mkTime (sample_clock + 2 * time.Second + 3600 * time.Second) 3600).

Definition refresh_notice : logEntry :=
  LogLine "Token expired or expiring soon, refreshing...".

Definition client_of (config : Config) (token : Token) : Client :=
  mkClient (ClientID config) (RedirectURI config) (Scopes config) token.

(** A world with a token that expires in 4 minutes and an endpoint that
    refuses the refresh. *)
Definition refused_world : World :=
  set_endpoint (world_with_token (4 * time.Minute)) refusing_endpoint.

Definition store_of (token : Token) : TokenStore :=
  mkTokenStore (AccessToken token) (RefreshToken token) (TokenType token)
    (Expiry token).

(** * The rest of the package, and its callers *)

(** ** Removing the token: os.Remove, deleteToken and Logout *)

(** Whether a directory holds a node. *)
Definition has_child (f : gmap (list string) node) (p : list string) : bool :=
  negb (bool_decide (map_Forall (fun q _ => parent q <> p) f)).

(** [os.Remove]: [unlink] for a file and [rmdir] for a directory, which
    must be empty; both need write and search access to the directory the
    node is in.  A directory that is not empty gives [ENOTEMPTY], which
    POSIX lets a system report as [EEXIST]: the name used here.  The root
    cannot be removed. *)
Definition os_Remove (p : list string) : M unit :=
  fun w =>
    match p with
    | [] => (Err (ErrOS EACCES), w)
    | _ =>
      match node_at (fs w) (parent p) with
      | Some (Dir m) =>
        match fs w !! p with
        | None => (Err (ErrOS ENOENT), w)
        | Some nd =>
          if can_write m && can_search m then
            match nd with
            | File _ _ => (Ok tt, set_fs w (delete p (fs w)))
            | Dir _ =>
              if has_child (fs w) p then (Err (ErrOS EEXIST), w)
              else (Ok tt, set_fs w (delete p (fs w)))
            end
          else (Err (ErrOS EACCES), w)
        end
      | Some (File _ _) => (Err (ErrOS ENOTDIR), w)
      | None => (Err (ErrOS ENOENT), w)
      end
    end.

Definition deleteToken : M unit :=
  do tokenPath <- getTokenPath ;
  fun w =>
    match os_Remove tokenPath w with
    | (Err e, w') =>
      if negb (IsNotExist e)
      then (Err (ErrWrap "failed to remove token file" e), w')
      else (Ok tt, w')
    | r => r
    end.

(** [Logout]; the line it prints on standard output is not part of the
    world. *)
Definition Logout : M unit :=
  do _ <- deleteToken ;
  ret tt.

(** The exported names [cmd/status.go] uses. *)
Definition LoadTokenForStatus : M Token := loadToken.
Definition GetConfigDirForStatus : M (list string) := getConfigDir.
Definition GetTokenPathForStatus : M (list string) := getTokenPath.

(** A home directory whose configuration directory holds a token file [nd]. *)
Definition fs_with_node (nd : node) : gmap (list string) node :=
  <[ tokenPathOf sample_home := nd ]>
    (<[ configDirOf sample_home := Dir mode_0755 ]>
       (<[ sample_home ++ [".config"] := Dir mode_0755 ]> fresh_fs)).

(** The same, with the configuration directory read-only. *)
Definition locked_fs (nd : node) : gmap (list string) node :=
  <[ configDirOf sample_home := Dir (5 * 64 + 5 * 8 + 5) ]> (fs_with_node nd).

(** A world whose token file is in a read-only configuration directory. *)
Definition locked_world : World :=
  sample_world (locked_fs (File mode_0600 "{}")) granting_endpoint.

(** ** PKCE: encoding/base64, crypto/sha256, crypto/rand and net/url *)

Module base64.

(** The alphabet of [base64.URLEncoding]. *)
Definition encodeURL : string :=
  "ABCDEFGHIJKLMNOPQRSTUVWXYZabcdefghijklmnopqrstuvwxyz0123456789-_".

(** [enc.encode[v]]. *)
Definition encode (v : Z) : ascii :=
  match String.get (Z.to_nat v) encodeURL with
  | Some c => c
  | None => byte_of 0
  end.

(** [base64.RawURLEncoding.EncodeToString]: three bytes give four
    characters; the one or two bytes that remain give two or three, and
    no padding is written. *)
Fixpoint EncodeToString (src : string) : string :=
  match src with
  | String a (String b (String c rest)) =>
    let val := Z.lor (Z.lor (Z.shiftl (byte_val a) 16) (Z.shiftl (byte_val b) 8))
                 (byte_val c) in
    String (encode (Z.land (Z.shiftr val 18) 0x3F))
      (String (encode (Z.land (Z.shiftr val 12) 0x3F))
         (String (encode (Z.land (Z.shiftr val 6) 0x3F))
            (String (encode (Z.land val 0x3F)) (EncodeToString rest))))
  | String a (String b EmptyString) =>
    let val := Z.lor (Z.shiftl (byte_val a) 16) (Z.shiftl (byte_val b) 8) in
    String (encode (Z.land (Z.shiftr val 18) 0x3F))
      (String (encode (Z.land (Z.shiftr val 12) 0x3F))
         (String (encode (Z.land (Z.shiftr val 6) 0x3F)) EmptyString))
  | String a EmptyString =>
    let val := Z.shiftl (byte_val a) 16 in
    String (encode (Z.land (Z.shiftr val 18) 0x3F))
      (String (encode (Z.land (Z.shiftr val 12) 0x3F)) EmptyString)
  | EmptyString => EmptyString
  end.

(** The place of a character in an alphabet. *)
Fixpoint index (c : ascii) (alphabet : string) : Z :=
  match alphabet with
  | EmptyString => 0
  | String d r => if Ascii.eqb c d then 0 else 1 + index c r
  end.

End base64.

Module sha256.

(** Words are [uint32]: sums wrap around. *)
Definition mask32 : Z := 0xFFFFFFFF.
Definition add32 (a b : Z) : Z := Z.land (a + b) mask32.

(** [bits.RotateLeft32(x, -n)]. *)
Definition rotr (x n : Z) : Z :=
  Z.lor (Z.shiftr x n) (Z.land (Z.shiftl x (32 - n)) mask32).

(** The round constants [_K], written in decimal. *)
Definition _K : list Z :=
  [1116352408; 1899447441; 3049323471; 3921009573; 961987163; 1508970993;
   2453635748; 2870763221; 3624381080; 310598401; 607225278; 1426881987;
   1925078388; 2162078206; 2614888103; 3248222580; 3835390401; 4022224774;
   264347078; 604807628; 770255983; 1249150122; 1555081692; 1996064986;
   2554220882; 2821834349; 2952996808; 3210313671; 3336571891; 3584528711;
   113926993; 338241895; 666307205; 773529912; 1294757372; 1396182291;
   1695183700; 1986661051; 2177026350; 2456956037; 2730485921; 2820302411;
   3259730800; 3345764771; 3516065817; 3600352804; 4094571909; 275423344;
   430227734; 506948616; 659060556; 883997877; 958139571; 1322822218;
   1537002063; 1747873779; 1955562222; 2024104815; 2227730452; 2361852424;
   2428436474; 2756734187; 3204031479; 3329325298].

Record state : Type := mkState {
  h0 : Z; h1 : Z; h2 : Z; h3 : Z; h4 : Z; h5 : Z; h6 : Z; h7 : Z
}.

Definition init : state :=
  mkState 0x6a09e667 0xbb67ae85 0x3c6ef372 0xa54ff53a
          0x510e527f 0x9b05688c 0x1f83d9ab 0x5be0cd19.

(** The sixteen big-endian words of a block of 64 bytes. *)
Fixpoint words (n : nat) (p : list Z) : list Z :=
  match n with
  | O => []
  | S n' =>
    match p with
    | b0 :: b1 :: b2 :: b3 :: rest =>
      Z.lor (Z.lor (Z.lor (Z.shiftl b0 24) (Z.shiftl b1 16)) (Z.shiftl b2 8)) b3
        :: words n' rest
    | _ => []
    end
  end.

(** The message schedule: [w[i]] for [i] from 16 to 63. *)
Fixpoint schedule (n : nat) (w : list Z) : list Z :=
  match n with
  | O => w
  | S n' =>
    let i := length w in
    let v1 := nth (i - 2) w 0 in
    let t1 := Z.lxor (Z.lxor (rotr v1 17) (rotr v1 19)) (Z.shiftr v1 10) in
    let v2 := nth (i - 15) w 0 in
    let t2 := Z.lxor (Z.lxor (rotr v2 7) (rotr v2 18)) (Z.shiftr v2 3) in
    schedule n'
      (w ++ [add32 (add32 (add32 t1 (nth (i - 7) w 0)) t2) (nth (i - 16) w 0)])
  end.

Definition round (s : state) (k w : Z) : state :=
  let '(mkState a b c d e f g h) := s in
  let t1 :=
    add32 (add32 (add32 (add32 h
      (Z.lxor (Z.lxor (rotr e 6) (rotr e 11)) (rotr e 25)))
      (Z.lxor (Z.land e f) (Z.land (Z.lxor e mask32) g))) k) w in
  let t2 :=
    add32 (Z.lxor (Z.lxor (rotr a 2) (rotr a 13)) (rotr a 22))
      (Z.lxor (Z.lxor (Z.land a b) (Z.land a c)) (Z.land b c)) in
  mkState (add32 t1 t2) a b c (add32 d t1) e f g.

Fixpoint rounds (s : state) (k w : list Z) : state :=
  match k, w with
  | ki :: k', wi :: w' => rounds (round s ki wi) k' w'
  | _, _ => s
  end.

(** One block of [blockGeneric]. *)
Definition block (s : state) (p : list Z) : state :=
  let w := schedule 48 (words 16 p) in
  let '(mkState a b c d e f g h) := rounds s _K w in
  mkState (add32 (h0 s) a) (add32 (h1 s) b) (add32 (h2 s) c) (add32 (h3 s) d)
          (add32 (h4 s) e) (add32 (h5 s) f) (add32 (h6 s) g) (add32 (h7 s) h).

Fixpoint blocks (n : nat) (s : state) (p : list Z) : state :=
  match n with
  | O => s
  | S n' => blocks n' (block s (take 64 p)) (drop 64 p)
  end.

(** The bytes of a word of [w] bytes, the most significant first. *)
Fixpoint bigEndian (w : nat) (x : Z) : list Z :=
  match w with
  | O => []
  | S w' => Z.land (Z.shiftr x (8 * Z.of_nat w')) 0xFF :: bigEndian w' x
  end.

(** The padding of [checkSum]: a one bit, zero bits up to 56 bytes modulo
    64, and the length of the message in bits. *)
Definition padding (len : Z) : list Z :=
  let t := if len mod 64 <? 56 then 56 - len mod 64 else 64 + 56 - len mod 64 in
  0x80 :: repeat 0 (Z.to_nat (t - 1)) ++ bigEndian 8 (Z.land (len * 8) (2 ^ 64 - 1)).

Fixpoint bytes_of (s : string) : list Z :=
  match s with
  | EmptyString => []
  | String c r => byte_val c :: bytes_of r
  end.

Fixpoint string_of (l : list Z) : string :=
  match l with
  | [] => EmptyString
  | b :: r => String (byte_of b) (string_of r)
  end.

(** [sha256.Sum256]: the digest, 32 bytes. *)
Definition Sum256 (data : string) : string :=
  let p := bytes_of data ++ padding (Z.of_nat (String.length data)) in
  let s := blocks (length p / 64) init p in
  string_of (bigEndian 4 (h0 s) ++ bigEndian 4 (h1 s) ++ bigEndian 4 (h2 s)
             ++ bigEndian 4 (h3 s) ++ bigEndian 4 (h4 s) ++ bigEndian 4 (h5 s)
             ++ bigEndian 4 (h6 s) ++ bigEndian 4 (h7 s)).

End sha256.

Module url.

Definition upperhex : string := "0123456789ABCDEF".

Definition hexdigit (v : Z) : ascii :=
  match String.get (Z.to_nat v) upperhex with
  | Some c => c
  | None => byte_of 0
  end.

(** [shouldEscape(c, encodeQueryComponent)]: all but the letters, the
    digits and [-], [_], [.], [~]. *)
Definition shouldEscape (c : ascii) : bool :=
  let v := byte_val c in
  if ((97 <=? v) && (v <=? 122)) || ((65 <=? v) && (v <=? 90))
     || ((48 <=? v) && (v <=? 57))
  then false
  else if (v =? 45) || (v =? 95) || (v =? 46) || (v =? 126) then false
  else true.

(** [url.QueryEscape]: a space becomes [+], another byte that is to be
    escaped becomes [%XX]. *)
Fixpoint QueryEscape (s : string) : string :=
  match s with
  | EmptyString => EmptyString
  | String c r =>
    if shouldEscape c then
      if byte_val c =? 32 then String "+" (QueryEscape r)
      else String "%" (String (hexdigit (Z.shiftr (byte_val c) 4))
                         (String (hexdigit (Z.land (byte_val c) 15)) (QueryEscape r)))
    else String c (QueryEscape r)
  end.

End url.

(** [b := make([]byte, n); rand.Read(b)]: the bytes the source delivers;
    [Login] does not look at the error of [rand.Read], and the bytes a
    failing source has not filled are zero. *)
Fixpoint rand_Read (n : nat) (source : string) : string :=
  match n with
  | O => EmptyString
  | S n' =>
    match source with
    | String c r => String c (rand_Read n' r)
    | EmptyString => String (byte_of 0) (rand_Read n' EmptyString)
    end
  end.

Definition generateCodeVerifier (source : string) : string :=
  base64.EncodeToString (rand_Read 32 source).

Definition generateCodeChallenge (verifier : string) : string :=
  base64.EncodeToString (sha256.Sum256 verifier).

Definition generateState (source : string) : string :=
  base64.EncodeToString (rand_Read 16 source).

(** What [Login] appends to [auth.AuthURL(state)]. *)
Definition pkceQuery (codeChallenge : string) : string :=
  "&code_challenge=" +:+ url.QueryEscape codeChallenge
  +:+ "&code_challenge_method=S256".

(** The characters of a PKCE code verifier that base64url can give:
    letters, digits, [-] and [_]. *)
Definition urlSafe (c : ascii) : bool :=
  let v := byte_val c in
  ((97 <=? v) && (v <=? 122)) || ((65 <=? v) && (v <=? 90))
  || ((48 <=? v) && (v <=? 57)) || (v =? 45) || (v =? 95).

Fixpoint all_bytes (P : ascii -> bool) (s : string) : bool :=
  match s with
  | EmptyString => true
  | String c r => P c && all_bytes P r
  end.

(** ** Login as a call, SmartLogin and the commands *)

(** What surrounds one call of [Login]: the bytes [crypto/rand] delivers
    for the code verifier and for the state, and what happens while
    [Login] waits in its [select]. *)
Record Drive : Type := mkDrive {
  verifierSource : string;
  stateSource : string;
  events : list Event
}.

(** The PKCE parameters [Login] starts with. *)
Definition Login_attempt (config : Config) (d : Drive) : Attempt :=
  mkAttempt config (generateState (stateSource d))
    (generateCodeVerifier (verifierSource d)).

(** [Login(ctx, config)]: the error it returns and the world it leaves,
    when the events are a run at whose end [Login] has returned; [None]
    when they are not. *)
Definition Login (config : Config) (d : Drive) (w : World)
  : option (option error * World) :=
  match Login_run (Login_attempt config d) (Login_start w) (events d) with
  | Some s =>
    match returned s with
    | Some err => Some (err, world s)
    | None => None
    end
  | None => None
  end.

(** A token the endpoint has granted for a code posted with the verifier
    of the attempt. *)
Definition granted (a : Attempt) (w : World) (t : Token) : Prop :=
  exists code n resp elapsed,
    endpoint w n (exchange_form a code)
      = (PostResponse StatusOK (Some resp), elapsed) /\
    AccessToken t = tr_AccessToken resp /\
    RefreshToken t = tr_RefreshToken resp /\
    TokenType t = tr_TokenType resp.

(** What holds of every state of a [Login] started in [w]. *)
Definition Login_inv (a : Attempt) (w : World) (s : LoginState) : Prop :=
  home (world s) = home w /\
  endpoint (world s) = endpoint w /\
  can_listen (world s) = can_listen w /\
  (length (posts w) <= length (posts (world s)))%nat /\
  Forall (granted a w) (tokenChan s ++ tokenBlocked s) /\
  (tokenChan s <> [] -> (length (posts w) < length (posts (world s)))%nat) /\
  match returned s with
  | None => fs (world s) = fs w
  | Some None =>
    server s = ShutDown /\
    (length (posts w) < length (posts (world s)))%nat /\
    exists h perm token data,
      home w = Some h /\ granted a w token /\
      tokenjson.MarshalIndent (store_of token) = Some data /\
      fs (world s) !! tokenPathOf h = Some (File perm data)
  | Some (Some e) =>
    server s = ShutDown /\
    ((exists e', e = ErrWrap "failed to save token" e') \/ fs (world s) = fs w)
  end.

(** [carries w w']: the home directory, the ports and the token endpoint
    are those of [w], and no form posted in [w] is missing. *)
Definition carries (w w' : World) : Prop :=
  home w' = home w /\ can_listen w' = can_listen w /\
  endpoint w' = endpoint w /\
  (length (posts w) <= length (posts w'))%nat.

(** [s[:n]] and [s[n:]]: a bound out of range is a run-time panic,
    [None]. *)
Definition slice_to (s : string) (n : Z) : option string :=
  if (0 <=? n) && (n <=? Z.of_nat (String.length s))
  then Some (take_bytes (Z.to_nat n) s) else None.

Definition slice_from (s : string) (n : Z) : option string :=
  if (0 <=? n) && (n <=? Z.of_nat (String.length s))
  then Some (drop_bytes (Z.to_nat n) s) else None.

(** The environment, as [os.Getenv] reads it: a variable that is not set
    reads as the empty string. *)
Definition GetClientIDFromEnv (getenv : string -> string) : string :=
  let clientID := getenv "SPOTIFY_CLIENT_ID" in
  if negb (String.eqb clientID EmptyString) then clientID else DefaultClientID.

Definition getSmartClientID (getenv : string -> string) : string :=
  let envClientID := getenv "SPOTIFY_CLIENT_ID" in
  if negb (String.eqb envClientID EmptyString) then envClientID
  else DefaultClientID.

Definition ConfigWithClientID (clientID : string) : Config :=
  mkConfig clientID (RedirectURI DefaultConfig) (Port DefaultConfig)
    (Scopes DefaultConfig).

(** The configuration [SmartLogin] makes for a port. *)
Definition smartConfig (getenv : string -> string) (port : string) : Config :=
  mkConfig (getSmartClientID getenv)
    ("http://127.0.0.1:" +:+ port +:+ "/callback") port
    ["user-top-read"; "playlist-modify-private"; "user-read-private"].

(** [showFallbackHelp] prints its help and the last error, and returns an
    error of its own. *)
Definition showFallbackHelp (lastError : error) : error :=
  Errorf "authentication setup required".

(** How a call ends: it returns, it panics, or it has not returned. *)
Inductive Outcome : Type :=
| Returns (err : option error) (w : World)
| Panics (w : World)
| NoReturn.

(** The loop of [SmartLogin] over the ports from index [i] on.  The two
    slices of the client ID are the arguments of the [Printf] before the
    call of [Login]. *)
Fixpoint SmartLogin_from (getenv : string -> string) (drive : string -> Drive)
    (i : nat) (ports : list string) (w : World) : Outcome :=
  match ports with
  | [] => Returns (Some (Errorf "all ports exhausted")) w
  | port :: rest =>
    if negb (isPortAvailable port w) then
      SmartLogin_from getenv drive (S i) rest w
    else
      let config :=
        mkConfig (getSmartClientID getenv)
          ("http://127.0.0.1:" +:+ port +:+ "/callback") port
          ["user-top-read"; "playlist-modify-private"; "user-read-private"] in
      match slice_to (ClientID config) 8,
            slice_from (ClientID config)
              (Z.of_nat (String.length (ClientID config)) - 4) with
      | Some _, Some _ =>
        (* Attempt login with this configuration *)
        match Login config (drive port) w with
        | None => NoReturn
        | Some (Some err, w') =>
          (* If this was the last port, show help *)
          if (i =? length CommonPorts - 1)%nat
          then Returns (Some (showFallbackHelp err)) w'
          else SmartLogin_from getenv drive (S i) rest w'
        | Some (None, w') => Returns None w'
        end
      | _, _ => Panics w
      end
  end.

(** [SmartLogin(ctx)]; [drive port] is what surrounds the [Login] on
    [port]. *)
Definition SmartLogin (getenv : string -> string) (drive : string -> Drive)
    (w : World) : Outcome :=
  SmartLogin_from getenv drive 0 CommonPorts w.

(** *** The commands

    [runSearch], [runDiscover], [runPlaylists] and [runNow] start alike:
    [QuickCheck], then [GetAuthenticatedClient] with a configuration of
    their own; what they do with the client is not modelled.  The result
    is the client they go on with, or the error they return. *)
Definition commandClient (notAuthenticated : string) (wrapped : bool)
    (scopes : list string) (getenv : string -> string) : M Client :=
  fun w =>
    let '(ok, w1) := QuickCheck w in
    if negb ok then (Err (Errorf notAuthenticated), w1)
    else
      let config :=
        mkConfig (GetClientIDFromEnv getenv) "http://127.0.0.1:8808/callback"
          "8808" scopes in
      match GetAuthenticatedClient config w1 with
      | (Err err, w2) =>
        (Err (if wrapped then ErrWrap "authentication failed" err else err), w2)
      | r => r
      end.

Definition runSearch_client : (string -> string) -> M Client :=
  commandClient "not authenticated - run 'moodify login' first" true
    ["user-top-read"; "playlist-modify-private"; "user-read-private"].

Definition runDiscover_client : (string -> string) -> M Client :=
  commandClient "not authenticated" false
    ["user-top-read"; "playlist-modify-private"; "user-read-private"].

Definition runPlaylists_client : (string -> string) -> M Client :=
  commandClient "not authenticated - run 'moodify login' first" true
    ["user-top-read"; "playlist-modify-private"; "user-read-private";
     "playlist-read-private"].

Definition runNow_client : (string -> string) -> M Client :=
  commandClient "not authenticated" false
    ["user-read-currently-playing"; "user-read-playback-state";
     "user-read-private"].

(** [runLogout]. *)
Definition runLogout : M unit := Logout.

(** The line of [runStatus] on the client ID. *)
Inductive ClientIDLine : Type :=
| SharedApp
| CustomApp (shown : string)
| NotConfigured.

(** The first step of [runStatus]; [None] for a run-time panic. *)
Definition runStatus_clientID (getenv : string -> string) : option ClientIDLine :=
  let clientID := GetClientIDFromEnv getenv in
  if String.eqb clientID DefaultClientID then Some SharedApp
  else if negb (String.eqb clientID EmptyString) then
    match slice_to clientID 4,
          slice_from clientID (Z.of_nat (String.length clientID) - 4) with
    | Some a, Some b => Some (CustomApp (a +:+ "..." +:+ b))
    | _, _ => None
    end
  else Some NotConfigured.

(** *** Sample environments and drives *)

Definition no_env : string -> string := fun _ => EmptyString.

Definition env_with_client_id (id : string) : string -> string :=
  fun name => if String.eqb name "SPOTIFY_CLIENT_ID" then id else EmptyString.

(** A world in which only the given ports can be listened on. *)
Definition world_listening (ports : list string) : World :=
  mkWorld (Some sample_home) 18 fresh_fs sample_clock 3600 granting_endpoint
    [] [] (fun addr => existsb (fun p => String.eqb addr (":" +:+ p)) ports).

(** The user approves: the browser comes back with a code and the state
    of the attempt, and [Login] takes the token. *)
Definition approving (source : string) : Drive :=
  mkDrive source source
    [EvRequest (mkRequest [("code", "code-1"); ("state", generateState source)]);
     EvSelect CaseToken].

(** The user refuses. *)
Definition denying (source : string) : Drive :=
  mkDrive source source
    [EvRequest (mkRequest [("error", "access_denied");
                           ("state", generateState source)]);
     EvSelect CaseErr].

(** Nobody answers until the context expires. *)
Definition expiring (source : string) : Drive :=
  mkDrive source source [EvCancel; EvSelect CaseDone].

(** The world a [Login] leaves, and the world a call ends in. *)
Definition world_after_Login (config : Config) (d : Drive) (w : World) : World :=
  match Login config d w with
  | Some (_, w') => w'
  | None => w
  end.

Definition world_after (o : Outcome) (w : World) : World :=
  match o with
  | Returns _ w' => w'
  | Panics w' => w'
  | NoReturn => w
  end.

(** On 8080 the user refuses, on the other ports the user approves. *)
Definition second_thoughts (port : string) : Drive :=
  if String.eqb port "8080" then denying "seed" else approving "seed".

(** *** runStatus: the lines on the authentication *)

Definition minDuration : Z := - 2 ^ 63.
Definition maxDuration : Z := 2 ^ 63 - 1.

(** [t.Sub(u)] for times without a monotonic clock reading: the
    difference as a [Duration], or the least or the greatest [Duration]
    when the difference does not fit. *)
Definition time_Sub (t u : time.Time) : Z :=
  let d := time.wrap64 (time.unixNano t - time.unixNano u) in
  if time.unixNano u + d =? time.unixNano t then d
  else if time.Before t u then minDuration
  else maxDuration.

(** [time.Until(t)]. *)
Definition time_Until (t : time.Time) (w : World) : Z := time_Sub t (now_of w).

Inductive TokenLine : Type :=
| ExpiresIn (timeUntilExpiry : Z)  (** "Token expires: ... from now" *)
| Expired                          (** "Expired (will auto-refresh on next use)" *)
| NoDetails.                       (** the token did not load: no line *)

Inductive AuthLines : Type :=
| Authenticated (line : TokenLine)
| NotAuthenticated.

(** The part of [runStatus] under "Authentication". *)
Definition runStatus_authentication : World -> AuthLines * World :=
  fun w =>
    let '(ok, w1) := QuickCheck w in
    if ok then
      match LoadTokenForStatus w1 with
      | (Ok token, w2) =>
        let timeUntilExpiry := time_Until (Expiry token) w2 in
        if 0 <? timeUntilExpiry
        then (Authenticated (ExpiresIn timeUntilExpiry), w2)
        else (Authenticated Expired, w2)
      | (Err _, w2) => (Authenticated NoDetails, w2)
      end
    else (NotAuthenticated, w1).
(** *** Facts on bytes and on the UTF-8 codec *)

Lemma byte_val_range (c : ascii) : 0 <= byte_val c < 256.
Proof.
  unfold byte_val. pose proof (N_ascii_bounded c) as H. lia.
Qed.

Lemma byte_of_val (c : ascii) : byte_of (byte_val c) = c.
Proof.
  unfold byte_of, byte_val. rewrite N2Z.id. apply ascii_N_embedding.
Qed.

Lemma byte_val_of (z : Z) : 0 <= z < 256 -> byte_val (byte_of z) = z.
Proof.
  intros Hz. unfold byte_of, byte_val.
  rewrite N_ascii_embedding by lia. lia.
Qed.

Lemma byte_val_inj (c d : ascii) : byte_val c = byte_val d -> c = d.
Proof.
  intros H. rewrite <- (byte_of_val c), <- (byte_of_val d). now rewrite H.
Qed.

Module utf8_facts.
Import utf8.

Ltac split_bool :=
  repeat match goal with
  | H : negb _ = false |- _ => apply negb_false_iff in H
  | H : negb _ = true |- _ => apply negb_true_iff in H
  | H : in_range _ _ _ = true |- _ =>
      unfold in_range in H; apply andb_true_iff in H; destruct H
  | H : (_ <=? _) = true |- _ => apply Z.leb_le in H
  | H : (_ <=? _) = false |- _ => apply Z.leb_gt in H
  | H : (_ <? _) = true |- _ => apply Z.ltb_lt in H
  | H : (_ <? _) = false |- _ => apply Z.ltb_ge in H
  | H : (_ =? _) = true |- _ => apply Z.eqb_eq in H
  | H : (_ =? _) = false |- _ => apply Z.eqb_neq in H
  end.

Ltac arith := unfold locb, hicb in *; Z.div_mod_to_equations; lia.

Lemma first_cases (p0 : Z) : 0 <= p0 < 256 ->
  match first p0 with
  | LeadASCII => p0 < 0x80
  | LeadInvalid => 0x80 <= p0
  | LeadSeq sz lo hi =>
      (sz = 2%nat /\ 0xC2 <= p0 <= 0xDF /\ lo = 0x80 /\ hi = 0xBF) \/
      (sz = 3%nat /\ 0xE0 <= p0 <= 0xEF /\ 0x80 <= lo /\ hi <= 0xBF /\
       (p0 = 0xE0 -> lo = 0xA0) /\ (p0 = 0xED -> hi = 0x9F)) \/
      (sz = 4%nat /\ 0xF0 <= p0 <= 0xF4 /\ 0x80 <= lo /\ hi <= 0xBF /\
       (p0 = 0xF0 -> lo = 0x90) /\ (p0 = 0xF4 -> hi = 0x8F))
  end.
Proof.
  intros R. unfold first, locb, hicb.
  repeat match goal with
  | |- context [if ?b then _ else _] => destruct b eqn:?
  end; split_bool; try lia.
  all: try (left; lia).
  all: try (right; left; lia).
  all: try (right; right; lia).
Qed.

Lemma DecodeRune_decoded (s : string) :
  decoded s (fst (DecodeRune s)) (snd (DecodeRune s)).
Proof.
  destruct s as [|c0 p1]; [constructor|].
  pose proof (byte_val_range c0) as R0.
  pose proof (first_cases (byte_val c0) R0) as F.
  unfold DecodeRune.
  destruct (first (byte_val c0)) as [ | | sz lo hi].
  - simpl. now constructor.
  - simpl. now constructor.
  - assert (E : decoded (String c0 p1) RuneError 1) by (constructor; lia).
    destruct p1 as [|c1 p2]; [exact E|].
    pose proof (byte_val_range c1) as R1.
    destruct (negb (in_range lo hi (byte_val c1))) eqn:E1; [exact E|].
    split_bool.
    destruct F as [(-> & F0 & -> & ->) | [(-> & F0 & Flo & Fhi & FE0 & FED)
                                         | (-> & F0 & Flo & Fhi & FF0 & FF4)]].
    + simpl. eapply dec_two; arith.
    + simpl Nat.leb. cbv iota.
      destruct p2 as [|c2 p3]; [exact E|].
      pose proof (byte_val_range c2) as R2.
      destruct (negb (in_range locb hicb (byte_val c2))) eqn:E2; [exact E|].
      split_bool. simpl.
      eapply dec_three; try arith.
    + simpl Nat.leb. cbv iota.
      destruct p2 as [|c2 p3]; [exact E|].
      pose proof (byte_val_range c2) as R2.
      destruct (negb (in_range locb hicb (byte_val c2))) eqn:E2; [exact E|].
      split_bool.
      destruct p3 as [|c3 p4]; [exact E|].
      pose proof (byte_val_range c3) as R3.
      destruct (negb (in_range locb hicb (byte_val c3))) eqn:E3; [exact E|].
      split_bool. simpl.
      eapply dec_four; try arith.
Qed.

Lemma EncodeRune_decoded (s : string) (r : Z) (size : nat) :
  decoded s r size -> (0 < size)%nat -> ~ (r = RuneError /\ size = 1%nat) ->
  EncodeRune r = take_bytes size s.
Proof.
  intros D Hsz Hne. unfold EncodeRune, bytes3, in_range,
    rune1Max, rune2Max, rune3Max, MaxRune, surrogateMin, surrogateMax.
  destruct D as [ | c0 rest H0 | c0 rest H0 | c0 c1 rest r H0 H1 Hr
    | c0 c1 c2 rest r H0 H1 H2 Hr Hlo Hsur
    | c0 c1 c2 c3 rest r H0 H1 H2 H3 Hr Hlo ].
  - lia.
  - exfalso. apply Hne. now split.
  - pose proof (byte_val_range c0).
    replace ((0 <=? byte_val c0) && (byte_val c0 <=? 127)) with true
      by (symmetry; apply andb_true_iff; split; [apply Z.leb_le|apply Z.leb_le]; lia).
    simpl. now rewrite byte_of_val.
  - replace ((0 <=? r) && (r <=? 127)) with false
      by (symmetry; apply andb_false_iff; right; apply Z.leb_gt; lia).
    replace ((0 <=? r) && (r <=? 2047)) with true
      by (symmetry; apply andb_true_iff; split; apply Z.leb_le; lia).
    replace (192 + r / 64) with (byte_val c0) by arith.
    replace (128 + r mod 64) with (byte_val c1) by arith.
    simpl. now rewrite !byte_of_val.
  - replace ((0 <=? r) && (r <=? 127)) with false
      by (symmetry; apply andb_false_iff; right; apply Z.leb_gt; lia).
    replace ((0 <=? r) && (r <=? 2047)) with false
      by (symmetry; apply andb_false_iff; right; apply Z.leb_gt; lia).
    replace (r <? 0) with false by (symmetry; apply Z.ltb_ge; lia).
    replace (1114111 <? r) with false by (symmetry; apply Z.ltb_ge; lia).
    replace ((55296 <=? r) && (r <=? 57343)) with false
      by (symmetry; apply andb_false_iff;
          destruct (Z.leb_spec 55296 r); [right; apply Z.leb_gt; lia|now left]).
    replace (r <=? 65535) with true by (symmetry; apply Z.leb_le; lia).
    replace (224 + r / 4096) with (byte_val c0) by arith.
    replace (128 + (r / 64) mod 64) with (byte_val c1) by arith.
    replace (128 + r mod 64) with (byte_val c2) by arith.
    simpl. now rewrite !byte_of_val.
  - replace ((0 <=? r) && (r <=? 127)) with false
      by (symmetry; apply andb_false_iff; right; apply Z.leb_gt; lia).
    replace ((0 <=? r) && (r <=? 2047)) with false
      by (symmetry; apply andb_false_iff; right; apply Z.leb_gt; lia).
    replace (r <? 0) with false by (symmetry; apply Z.ltb_ge; lia).
    replace (1114111 <? r) with false by (symmetry; apply Z.ltb_ge; lia).
    replace ((55296 <=? r) && (r <=? 57343)) with false
      by (symmetry; apply andb_false_iff; right; apply Z.leb_gt; lia).
    replace (r <=? 65535) with false by (symmetry; apply Z.leb_gt; lia).
    replace (240 + r / 262144) with (byte_val c0) by arith.
    replace (128 + (r / 4096) mod 64) with (byte_val c1) by arith.
    replace (128 + (r / 64) mod 64) with (byte_val c2) by arith.
    replace (128 + r mod 64) with (byte_val c3) by arith.
    simpl. now rewrite !byte_of_val.
Qed.

End utf8_facts.

(** *** The string codec round trip *)

Module json_facts.
Import utf8 utf8_facts json.

Lemma length_append (a b : string) :
  String.length (a +:+ b) = (String.length a + String.length b)%nat.
Proof. induction a as [|c a IH]; simpl; [reflexivity | now rewrite IH]. Qed.

Lemma append_assoc (a b c : string) : (a +:+ b) +:+ c = a +:+ (b +:+ c).
Proof. induction a as [|x a IH]; simpl; [reflexivity | now rewrite IH]. Qed.

Lemma take_drop_bytes (n : nat) (s : string) :
  take_bytes n s +:+ drop_bytes n s = s.
Proof.
  revert s; induction n as [|n IH]; intros [|c s]; simpl; try reflexivity.
  now rewrite IH.
Qed.

Lemma length_drop_bytes (n : nat) (s : string) :
  String.length (drop_bytes n s) = (String.length s - n)%nat.
Proof.
  revert s; induction n as [|n IH]; intros [|c s]; simpl; try reflexivity.
  apply IH.
Qed.

Lemma closed_app (a b : string) (esc : bool) :
  closed esc a = true -> closed false b = true -> closed esc (a +:+ b) = true.
Proof.
  revert esc; induction a as [|c a IH]; intros esc Ha Hb; simpl in *.
  - destruct esc; [discriminate | exact Hb].
  - destruct esc; [now apply IH|].
    destruct (byte_val c =? 34); [discriminate|].
    destruct (byte_val c =? 92); [now apply IH|].
    destruct (byte_val c <? 32); [discriminate | now apply IH].
Qed.

Lemma scan_closed (chunk rest : string) (esc : bool) :
  closed esc chunk = true ->
  scan_string esc (chunk +:+ String dquote rest) = Some (chunk, rest).
Proof.
  revert esc; induction chunk as [|c a IH]; intros esc H; simpl in *.
  - destruct esc; [discriminate | reflexivity].
  - destruct esc; [now rewrite IH|].
    destruct (byte_val c =? 34); [discriminate|].
    destruct (byte_val c =? 92); [now rewrite IH|].
    destruct (byte_val c <? 32); [discriminate | now rewrite IH].
Qed.

Lemma closed_escape_byte (c : ascii) :
  (byte_val c <? 0x80) = true -> closed false (escape_byte c) = true.
Proof.
  destruct c as [[] [] [] [] [] [] [] []]; intros H;
    solve [reflexivity | discriminate H].
Qed.

Lemma unquote_escape_byte (c : ascii) (n : nat) (t : string) :
  (byte_val c <? 0x80) = true ->
  unquoteBody (S n) (escape_byte c +:+ t)
  = prepend_str (String c EmptyString) (unquoteBody n t).
Proof.
  destruct c as [[] [] [] [] [] [] [] []]; intros H;
    solve [reflexivity | discriminate H].
Qed.

Lemma escape_byte_length (c : ascii) : (1 <= String.length (escape_byte c))%nat.
Proof.
  destruct c as [[] [] [] [] [] [] [] []]; vm_compute; lia.
Qed.


Lemma DecodeRune_ascii (c : ascii) (rest : string) :
  (byte_val c <? 0x80) = true -> DecodeRune (String c rest) = (byte_val c, 1%nat).
Proof.
  intros H. unfold DecodeRune, first. now rewrite H.
Qed.

(** A valid encoding is decoded from its own bytes alone. *)
Lemma DecodeRune_prefix (s t : string) (r : Z) (size : nat) :
  DecodeRune s = (r, size) -> (1 < size)%nat ->
  DecodeRune (take_bytes size s +:+ t) = (r, size).
Proof.
  destruct s as [|c0 p1]; [simpl; intros [= <- <-]; lia|].
  unfold DecodeRune.
  destruct (first (byte_val c0)) as [ | | sz lo hi] eqn:F;
    try (intros [= <- <-]; lia).
  destruct p1 as [|c1 p2]; [intros [= <- <-]; lia|].
  destruct (negb (in_range lo hi (byte_val c1))) eqn:E1;
    [intros [= <- <-]; lia|].
  destruct (sz <=? 2)%nat eqn:S2.
  { intros [= <- <-] _. simpl. now rewrite F, E1, S2. }
  destruct p2 as [|c2 p3]; [intros [= <- <-]; lia|].
  destruct (negb (in_range locb hicb (byte_val c2))) eqn:E2;
    [intros [= <- <-]; lia|].
  destruct (sz <=? 3)%nat eqn:S3.
  { intros [= <- <-] _. simpl. now rewrite F, E1, S2, E2, S3. }
  destruct p3 as [|c3 p4]; [intros [= <- <-]; lia|].
  destruct (negb (in_range locb hicb (byte_val c3))) eqn:E3;
    [intros [= <- <-]; lia|].
  intros [= <- <-] _. simpl. now rewrite F, E1, S2, E2, S3, E3.
Qed.

Lemma decoded_length (s : string) (r : Z) (size : nat) :
  decoded s r size -> (size <= String.length s)%nat.
Proof. destruct 1; simpl; lia. Qed.

Lemma drop_take_app (n : nat) (s t : string) :
  (n <= String.length s)%nat -> drop_bytes n (take_bytes n s +:+ t) = t.
Proof.
  revert s; induction n as [|n IH]; intros [|c s] H; simpl in *;
    try reflexivity; try lia.
  apply IH. lia.
Qed.

Lemma length_take_bytes (n : nat) (s : string) :
  (n <= String.length s)%nat -> String.length (take_bytes n s) = n.
Proof.
  revert s; induction n as [|n IH]; intros [|c s] H; simpl in *;
    try reflexivity; try lia.
  rewrite IH; lia.
Qed.

Lemma closed_high (s : string) (r : Z) (size : nat) :
  decoded s r size -> (1 < size)%nat -> closed false (take_bytes size s) = true.
Proof.
  intros D Hs.
  destruct D; try lia; simpl;
  repeat match goal with
  | |- context [byte_val ?c =? ?k] =>
      destruct (Z.eqb_spec (byte_val c) k); [lia|]
  | |- context [byte_val ?c <? ?k] =>
      destruct (Z.ltb_spec (byte_val c) k); [lia|]
  end; reflexivity.
Qed.

Lemma decoded_multi (c : ascii) (rest : string) (r : Z) (size : nat) :
  decoded (String c rest) r size -> 0x80 <= byte_val c ->
  (r =? RuneError) && (size =? 1)%nat = false -> (1 < size)%nat.
Proof.
  intros D A E. inversion D; subst; try lia.
  vm_compute in E. discriminate.
Qed.

Lemma closed_appendBody (k : nat) (s : string) :
  closed false (appendBody k s) = true.
Proof.
  revert s; induction k as [|k IH]; intros s; [reflexivity|].
  destruct s as [|c rest]; [reflexivity|].
  cbn [appendBody].
  destruct (byte_val c <? RuneSelf) eqn:A.
  - apply closed_app; [now apply closed_escape_byte | apply IH].
  - pose proof (DecodeRune_decoded (String c rest)) as D.
    destruct (DecodeRune (String c rest)) as [r size]. simpl in D.
    destruct ((r =? RuneError) && (size =? 1)%nat) eqn:E.
    + apply closed_app; [reflexivity | apply IH].
    + destruct ((r =? 8232) || (r =? 8233)) eqn:L.
      * apply closed_app; [|apply IH].
        apply orb_true_iff in L. destruct L as [L|L]; apply Z.eqb_eq in L;
          subst r; reflexivity.
      * apply closed_app; [|apply IH].
        apply (closed_high _ _ _ D).
        unfold RuneSelf in A. apply Z.ltb_ge in A.
        now apply (decoded_multi _ _ _ _ D).
Qed.

Lemma appendBody_unquote (k : nat) (s : string) (n : nat) :
  valid_fuel k s = true ->
  (String.length (appendBody k s) <= n)%nat ->
  unquoteBody n (appendBody k s) = Some s.
Proof.
  revert s n; induction k as [|k IH]; intros s n V L.
  { destruct s; [|discriminate]. now destruct n. }
  destruct s as [|c rest]; [now destruct n|].
  cbn [appendBody valid_fuel] in *.
  destruct (byte_val c <? RuneSelf) eqn:A.
  - rewrite (DecodeRune_ascii _ _ A) in V.
    assert (E : (byte_val c =? RuneError) && (1 =? 1)%nat = false).
    { apply andb_false_iff; left. apply Z.eqb_neq. unfold RuneError.
      unfold RuneSelf in A. apply Z.ltb_lt in A. lia. }
    rewrite E in V. simpl in V.
    rewrite length_append in L. pose proof (escape_byte_length c).
    destruct n as [|n]; [lia|].
    rewrite (unquote_escape_byte _ _ _ A), IH; [reflexivity | exact V | lia].
  - pose proof (DecodeRune_decoded (String c rest)) as D.
    pose proof (DecodeRune_prefix (String c rest)) as P.
    destruct (DecodeRune (String c rest)) as [r size]. simpl in D.
    destruct ((r =? RuneError) && (size =? 1)%nat) eqn:E; [discriminate|].
    unfold RuneSelf in A. apply Z.ltb_ge in A.
    assert (Hs : (1 < size)%nat) by now apply (decoded_multi _ _ _ _ D).
    assert (Henc : EncodeRune r = take_bytes size (String c rest)).
    { apply EncodeRune_decoded; [exact D | lia | lia]. }
    pose proof (decoded_length _ _ _ D) as Hlen.
    destruct ((r =? 8232) || (r =? 8233)) eqn:Lsep.
    + rewrite length_append in L.
      destruct n as [|n]; [simpl in L; lia|].
      assert (Hu : forall t, unquoteBody (S n)
                 (String bslash ("u202" +:+ String (hex (r mod 16)) EmptyString) +:+ t)
               = prepend_str (EncodeRune r) (unquoteBody n t)).
      { intros t. apply orb_true_iff in Lsep.
        destruct Lsep as [Lr|Lr]; apply Z.eqb_eq in Lr; subst r; reflexivity. }
      rewrite Hu, IH; [| exact V | simpl in L; lia].
      simpl. now rewrite Henc, take_drop_bytes.
    + rewrite length_append in L.
      rewrite length_take_bytes in L by exact Hlen.
      destruct n as [|n]; [lia|].
      assert (Hu : forall t, unquoteBody (S n) (take_bytes size (String c rest) +:+ t)
               = prepend_str (EncodeRune r) (unquoteBody n t)).
      { intros t. destruct size as [|size]; [lia|].
        cbn [take_bytes String.append].
        cbn [unquoteBody].
        destruct (Z.eqb_spec (byte_val c) 92); [lia|].
        destruct (Z.eqb_spec (byte_val c) 34); [lia|].
        destruct (Z.ltb_spec (byte_val c) 32); [lia|].
        destruct (Z.ltb_spec (byte_val c) RuneSelf); [unfold RuneSelf in *; lia|].
        cbn [orb].
        change (String c (take_bytes size rest +:+ t))
          with (take_bytes (S size) (String c rest) +:+ t).
        rewrite (P t r (S size) eq_refl Hs).
        now rewrite drop_take_app. }
      rewrite Hu, IH; [| exact V | lia].
      simpl. now rewrite Henc, take_drop_bytes.
Qed.

Lemma unquote_appendBody (s : string) :
  ValidString s = true -> unquote (appendBody (String.length s) s) = Some s.
Proof.
  intros V. unfold unquote. now apply appendBody_unquote.
Qed.

End json_facts.

(** *** The calendar and the RFC 3339 round trip *)

Module time_facts.
Import time json json_facts.

(** One era of the calendar: the day of the era gives a year of the era
    under 400, a month and a day of that month. *)
Lemma era_day (doe : Z) : 0 <= doe < 146097 ->
  let yoe := (doe - doe / 1460 + doe / 36524 - doe / 146096) / 365 in
  let doy := doe - (365 * yoe + yoe / 4 - yoe / 100) in
  let mp := (5 * doy + 2) / 153 in
  let d := doy - (153 * mp + 2) / 5 + 1 in
  let m := if mp <? 10 then mp + 3 else mp - 9 in
  let ya := if m <=? 2 then yoe + 1 else yoe in
  0 <= yoe < 400 /\ 0 <= mp < 12 /\ 1 <= d <= daysIn m ya.
Proof.
  intros H yoe doy mp d m ya.
  assert (Hy : 0 <= yoe < 400) by (subst yoe; Z.div_mod_to_equations; lia).
  assert (Hd : 0 <= doy <= 365) by (subst doy yoe; Z.div_mod_to_equations; lia).
  assert (Hmp : 0 <= mp < 12) by (subst mp; Z.div_mod_to_equations; lia).
  split; [exact Hy|]. split; [exact Hmp|].
  assert (Hleap : doy = 365 -> isLeap (yoe + 1) = true).
  { intros E. unfold isLeap.
    apply andb_true_iff. split.
    - apply Z.eqb_eq. subst doy yoe; Z.div_mod_to_equations; lia.
    - apply orb_true_iff.
      destruct (Z.eqb_spec ((yoe + 1) mod 100) 0) as [E100|E100]; [right|left; reflexivity].
      apply Z.eqb_eq. subst doy yoe; Z.div_mod_to_equations; lia. }
  destruct (Z.eq_dec mp 11) as [E11|N11].
  - assert (Em : m = 2) by (subst m; rewrite E11; reflexivity).
    assert (Ea : ya = yoe + 1) by (subst ya; rewrite Em; reflexivity).
    rewrite Em, Ea. unfold daysIn. cbn [Z.eqb Pos.eqb].
    destruct (isLeap (yoe + 1)) eqn:L.
    + subst d mp. Z.div_mod_to_equations; lia.
    + assert (doy <> 365) by (intros E; discriminate (Hleap E)).
      subst d mp. Z.div_mod_to_equations; lia.
  - assert (Hm : m <> 2 /\ 1 <= m <= 12 /\ (m = 1 -> mp = 10) /\ (2 < m -> mp = m - 3)).
    { subst m. destruct (Z.ltb_spec mp 10); lia. }
    unfold daysIn. destruct (Z.eqb_spec m 2) as [|_]; [lia|].
    clearbody m. clear Hleap.
    destruct ((m =? 4) || (m =? 6) || (m =? 9) || (m =? 11)) eqn:E30.
    + repeat (apply orb_true_iff in E30; destruct E30 as [E30|E30]);
        apply Z.eqb_eq in E30; subst d mp; Z.div_mod_to_equations; lia.
    + repeat (apply orb_false_iff in E30; destruct E30 as [E30 ?]).
      subst d mp; Z.div_mod_to_equations; lia.
Qed.

Lemma isLeap_era (y e : Z) : isLeap (y + e * 400) = isLeap y.
Proof.
  unfold isLeap.
  replace ((y + e * 400) mod 4) with (y mod 4)
    by (replace (y + e * 400) with (y + (e * 100) * 4) by lia;
        now rewrite Z.mod_add by lia).
  replace ((y + e * 400) mod 100) with (y mod 100)
    by (replace (y + e * 400) with (y + (e * 4) * 100) by lia;
        now rewrite Z.mod_add by lia).
  now rewrite Z.mod_add by lia.
Qed.

Lemma daysIn_era (m y e : Z) : daysIn m (y + e * 400) = daysIn m y.
Proof. unfold daysIn. now rewrite isLeap_era. Qed.

Lemma daysIn_le (m y : Z) : daysIn m y <= 31.
Proof.
  unfold daysIn. destruct (m =? 2); [destruct (isLeap y); lia|].
  destruct ((m =? 4) || (m =? 6) || (m =? 9) || (m =? 11)); lia.
Qed.

Lemma daysToCivil_spec (z : Z) :
  let '(y, m, d) := daysToCivil z in
  1 <= m <= 12 /\ 1 <= d <= daysIn m y /\ civilToDays y m d = z.
Proof.
  unfold daysToCivil.
  set (z' := z + 719468).
  assert (Hdoe : 0 <= z' mod 146097 < 146097) by (apply Z.mod_pos_bound; lia).
  pose proof (era_day _ Hdoe) as C. cbv zeta in C.
  set (doe := z' mod 146097) in *.
  set (era := z' / 146097).
  assert (Hz : z' = era * 146097 + doe)
    by (unfold era, doe; pose proof (Z.div_mod z' 146097); lia).
  set (yoe := (doe - doe / 1460 + doe / 36524 - doe / 146096) / 365) in *.
  set (doy := doe - (365 * yoe + yoe / 4 - yoe / 100)) in *.
  set (mp := (5 * doy + 2) / 153) in *.
  set (d := doy - (153 * mp + 2) / 5 + 1) in *.
  set (m := if mp <? 10 then mp + 3 else mp - 9) in *.
  destruct C as (Hyoe & Hmp0 & Hd).
  assert (Hm : 1 <= m <= 12 /\ (if 2 <? m then m - 3 else m + 9) = mp).
  { unfold m. destruct (Z.ltb_spec mp 10).
    - destruct (Z.ltb_spec 2 (mp + 3)); lia.
    - destruct (Z.ltb_spec 2 (mp - 9)); lia. }
  destruct Hm as [Hm Hmp].
  split; [exact Hm|]. split.
  - destruct (m <=? 2).
    + replace (yoe + era * 400 + 1) with (yoe + 1 + era * 400) by lia.
      rewrite daysIn_era. lia.
    + rewrite daysIn_era. lia.
  - unfold civilToDays. rewrite Hmp.
    assert (Hy : (if m <=? 2
                  then (if m <=? 2 then yoe + era * 400 + 1 else yoe + era * 400) - 1
                  else (if m <=? 2 then yoe + era * 400 + 1 else yoe + era * 400))
                 = yoe + era * 400) by (destruct (m <=? 2); lia).
    rewrite Hy.
    assert (Ed : d = doy - (153 * mp + 2) / 5 + 1) by reflexivity.
    assert (Edoy : doy = doe - (365 * yoe + yoe / 4 - yoe / 100)) by reflexivity.
    assert (Ez : z' = z + 719468) by reflexivity.
    clearbody d doy mp yoe era doe z'.
    replace ((yoe + era * 400) / 400) with era
      by (apply Z.div_unique with yoe; lia).
    replace ((yoe + era * 400) mod 400) with yoe
      by (apply Z.mod_unique with era; lia).
    lia.
Qed.


(** *** Digits *)

Lemma digit_val (d : Z) : 0 <= d <= 9 -> byte_val (digit d) = 48 + d.
Proof. intros H. unfold digit. apply byte_val_of. lia. Qed.

Lemma isDigit_digit (d : Z) : 0 <= d <= 9 -> isDigit (digit d) = true.
Proof.
  intros H. unfold isDigit. rewrite digit_val by exact H.
  apply andb_true_iff. split; apply Z.leb_le; lia.
Qed.

Lemma atoi_acc_digit (acc d : Z) (r : string) :
  0 <= d <= 9 -> atoi_acc acc (String (digit d) r) = atoi_acc (acc * 10 + d) r.
Proof.
  intros H. cbn [atoi_acc]. rewrite isDigit_digit, digit_val by exact H.
  f_equal. lia.
Qed.

Lemma parseUint_pad2 (x lo hi : Z) :
  0 <= x < 100 -> lo <= x <= hi -> parseUint (pad2 x) lo hi = Some x.
Proof.
  intros Hx Hr. unfold parseUint, pad2.
  rewrite !atoi_acc_digit by (Z.div_mod_to_equations; lia).
  cbn [atoi_acc].
  replace (0 * 10 + x / 10) with (x / 10) by lia.
  replace (x / 10 * 10 + x mod 10) with x by (Z.div_mod_to_equations; lia).
  destruct (Z.ltb_spec x lo); [lia|]. destruct (Z.ltb_spec hi x); [lia|].
  reflexivity.
Qed.

Lemma parseUint_pad4 (x : Z) :
  0 <= x <= 9999 -> parseUint (pad4 x) 0 9999 = Some x.
Proof.
  intros Hx. unfold parseUint, pad4.
  rewrite !atoi_acc_digit by (Z.div_mod_to_equations; lia).
  cbn [atoi_acc].
  replace ((((0 * 10 + x / 1000) * 10 + (x / 100) mod 10) * 10
            + (x / 10) mod 10) * 10 + x mod 10) with x
    by (Z.div_mod_to_equations; lia).
  destruct (Z.ltb_spec x 0); [lia|]. destruct (Z.ltb_spec 9999 x); [lia|].
  reflexivity.
Qed.

Lemma atoi_acc_app (acc : Z) (a b : string) :
  atoi_acc acc (a +:+ b) = bind (atoi_acc acc a) (fun v => atoi_acc v b).
Proof.
  revert acc; induction a as [|c a IH]; intros acc; simpl; [reflexivity|].
  destruct (isDigit c); [apply IH | reflexivity].
Qed.

Lemma length_padN (w : nat) (x : Z) : String.length (padN w x) = w.
Proof.
  revert x; induction w as [|w IH]; intros x; simpl; [reflexivity|].
  rewrite length_append, IH. simpl. lia.
Qed.

Lemma atoi_padN (w : nat) (x acc : Z) :
  0 <= x < 10 ^ Z.of_nat w ->
  atoi_acc acc (padN w x) = Some (acc * 10 ^ Z.of_nat w + x).
Proof.
  revert x acc; induction w as [|w IH]; intros x acc Hx.
  - simpl in *. f_equal. lia.
  - rewrite Nat2Z.inj_succ, Z.pow_succ_r in * by lia.
    cbn [padN]. rewrite atoi_acc_app, IH by (Z.div_mod_to_equations; nia).
    cbn [bind]. rewrite atoi_acc_digit by (Z.div_mod_to_equations; lia).
    cbn [atoi_acc]. f_equal. Z.div_mod_to_equations; nia.
Qed.

Lemma allDigits_app (a b : string) :
  allDigits (a +:+ b) = allDigits a && allDigits b.
Proof.
  induction a as [|c a IH]; simpl; [reflexivity|].
  now rewrite IH, andb_assoc.
Qed.

Lemma allDigits_padN (w : nat) (x : Z) : allDigits (padN w x) = true.
Proof.
  revert x; induction w as [|w IH]; intros x; simpl; [reflexivity|].
  rewrite allDigits_app, IH. simpl.
  rewrite isDigit_digit by (Z.div_mod_to_equations; lia). reflexivity.
Qed.

Lemma trimZeros_snoc_zero (a : string) :
  trimZeros (a +:+ String (digit 0) EmptyString) = trimZeros a.
Proof.
  induction a as [|c a IH]; [reflexivity|].
  simpl String.append. cbn [trimZeros]. now rewrite IH.
Qed.

Lemma trimZeros_snoc_nonzero (a : string) (c : ascii) :
  byte_val c <> 48 ->
  trimZeros (a +:+ String c EmptyString) = a +:+ String c EmptyString.
Proof.
  intros Hc. induction a as [|x a IH].
  - simpl. destruct (Z.eqb_spec (byte_val c) 48); [contradiction | reflexivity].
  - simpl String.append. cbn [trimZeros]. rewrite IH.
    destruct a; reflexivity.
Qed.

Lemma allDigits_trimZeros (s : string) :
  allDigits s = true -> allDigits (trimZeros s) = true.
Proof.
  induction s as [|c s IH]; [reflexivity|].
  simpl. intros H. apply andb_true_iff in H. destruct H as [Hc Hs].
  specialize (IH Hs). destruct (trimZeros s) as [|c' s'].
  - destruct (byte_val c =? 48); [reflexivity | simpl; now rewrite Hc].
  - cbn [allDigits] in *. now rewrite Hc.
Qed.

(** The digits of a fraction, trimmed, still say the same nanoseconds. *)
Lemma trimmed_fraction (w : nat) (x : Z) :
  0 <= x < 10 ^ Z.of_nat w ->
  exists v,
    atoi_acc 0 (trimZeros (padN w x)) = Some v /\
    (String.length (trimZeros (padN w x)) <= w)%nat /\
    v * 10 ^ (Z.of_nat w - Z.of_nat (String.length (trimZeros (padN w x)))) = x /\
    (x <> 0 -> trimZeros (padN w x) <> EmptyString).
Proof.
  revert x; induction w as [|w IH]; intros x Hx.
  - simpl in *. exists 0. repeat split; try reflexivity; try lia.
  - rewrite Nat2Z.inj_succ, Z.pow_succ_r in Hx by lia.
    cbn [padN].
    destruct (Z.eq_dec (x mod 10) 0) as [E0|N0].
    + rewrite E0, trimZeros_snoc_zero.
      destruct (IH (x / 10)) as (v & Hv & Hl & He & Hn);
        [Z.div_mod_to_equations; lia|].
      exists v. split; [exact Hv|]. split; [lia|]. split.
      * replace (Z.of_nat (S w) - Z.of_nat (String.length (trimZeros (padN w (x / 10)))))
          with (Z.succ (Z.of_nat w - Z.of_nat (String.length (trimZeros (padN w (x / 10))))))
          by lia.
        rewrite Z.pow_succ_r by lia. Z.div_mod_to_equations; nia.
      * intros Hx0. apply Hn. Z.div_mod_to_equations; lia.
    + assert (Hd : byte_val (digit (x mod 10)) <> 48)
        by (rewrite digit_val by (Z.div_mod_to_equations; lia); lia).
      rewrite (trimZeros_snoc_nonzero _ _ Hd).
      change (padN w (x / 10) +:+ String (digit (x mod 10)) EmptyString)
        with (padN (S w) x).
      exists x. rewrite atoi_padN, length_padN
        by (rewrite Nat2Z.inj_succ, Z.pow_succ_r by lia; lia).
      split; [now rewrite Z.mul_0_l|]. split; [lia|]. split.
      * rewrite Z.sub_diag. simpl. lia.
      * intros _. cbn [padN]. destruct (padN w (x / 10)); discriminate.
Qed.

Lemma parseNanoseconds_appendNano (x : Z) :
  0 < x < 1000000000 ->
  parseNanoseconds (trimZeros (padN 9 x)) = x /\
  allDigits (trimZeros (padN 9 x)) = true /\
  trimZeros (padN 9 x) <> EmptyString.
Proof.
  intros Hx.
  destruct (trimmed_fraction 9 x) as (v & Hv & Hl & He & Hn);
    [simpl; lia|].
  split; [|split].
  - unfold parseNanoseconds.
    assert (Ht : take_bytes 9 (trimZeros (padN 9 x)) = trimZeros (padN 9 x)).
    { rewrite <- (take_drop_bytes 9 (trimZeros (padN 9 x))) at 2.
      pose proof (length_drop_bytes 9 (trimZeros (padN 9 x))) as Hd.
      destruct (drop_bytes 9 (trimZeros (padN 9 x))) as [|c r].
      - clear. induction (take_bytes 9 _) as [|c a IH]; simpl; [reflexivity | now rewrite <- IH].
      - cbn [String.length] in Hd. lia. }
    rewrite Ht, Hv. exact He.
  - apply allDigits_trimZeros, allDigits_padN.
  - apply Hn. lia.
Qed.

Lemma spanDigits_app (ds : string) (c : ascii) (r : string) :
  allDigits ds = true -> isDigit c = false ->
  spanDigits (ds +:+ String c r) = (ds, String c r).
Proof.
  intros Hd Hc. induction ds as [|x ds IH]; simpl in *.
  - now rewrite Hc.
  - apply andb_true_iff in Hd. destruct Hd as [Hx Hd].
    now rewrite Hx, (IH Hd).
Qed.


Lemma parseZone_appendZone (off : Z) :
  off mod 60 = 0 -> Z.abs (Z.quot off 60) / 60 < 24 ->
  parseZone (appendZone off) = Some off.
Proof.
  intros Hm Hh. unfold appendZone.
  destruct (Z.eqb_spec off 0) as [->|Hne]; [reflexivity|].
  set (zone := Z.abs (Z.quot off 60)) in *.
  assert (Hz : 0 <= zone) by (unfold zone; lia).
  assert (Hhh : 0 <= zone / 60 < 100) by (Z.div_mod_to_equations; lia).
  assert (Hmm : 0 <= zone mod 60 < 60) by (apply Z.mod_pos_bound; lia).
  unfold pad2 at 1 2. cbn [String.append]. cbn [parseZone].
  change (String (digit (zone / 60 / 10))
            (String (digit ((zone / 60) mod 10)) EmptyString)) with (pad2 (zone / 60)).
  change (String (digit (zone mod 60 / 10))
            (String (digit ((zone mod 60) mod 10)) EmptyString)) with (pad2 (zone mod 60)).
  rewrite !parseUint_pad2 by lia.
  assert (Hsum : (zone / 60 * 60 + zone mod 60) * 60 = Z.abs off).
  { unfold zone. clearbody zone. Z.to_euclidean_division_equations; lia. }
  destruct (Z.ltb_spec (Z.quot off 60) 0) as [Hneg|Hpos].
  - simpl. f_equal. Z.to_euclidean_division_equations; lia.
  - simpl. f_equal. Z.to_euclidean_division_equations; lia.
Qed.

Lemma appendZone_nondigit (off : Z) :
  exists c r, appendZone off = String c r /\ isDigit c = false /\
              Ascii.eqb c "."%char = false.
Proof.
  unfold appendZone. destruct (off =? 0).
  - now exists "Z"%char, EmptyString.
  - destruct (Z.quot off 60 <? 0); eexists _, _; split; try reflexivity;
      split; reflexivity.
Qed.

Lemma take_pad4 (x : Z) (r : string) : take_bytes 4 (pad4 x +:+ r) = pad4 x.
Proof. reflexivity. Qed.
Lemma drop_pad4 (x : Z) (r : string) : drop_bytes 4 (pad4 x +:+ r) = r.
Proof. reflexivity. Qed.
Lemma take_pad2 (x : Z) (r : string) : take_bytes 2 (pad2 x +:+ r) = pad2 x.
Proof. reflexivity. Qed.
Lemma drop_pad2 (x : Z) (r : string) : drop_bytes 2 (pad2 x +:+ r) = r.
Proof. reflexivity. Qed.

Lemma expect_same (c : ascii) (r : string) : expect c (String c r) = Some r.
Proof. unfold expect. now rewrite Ascii.eqb_refl. Qed.

Lemma parse_appendFormat (t : Time) :
  0 <= fst (fst (daysToCivil (localSec t / 86400))) <= 9999 ->
  zoneOffset t mod 60 = 0 ->
  Z.abs (Z.quot (zoneOffset t) 60) / 60 < 24 ->
  parseRFC3339 (appendFormatRFC3339 t) = Some t.
Proof.
  unfold appendFormatRFC3339.
  pose proof (daysToCivil_spec (localSec t / 86400)) as C.
  destruct (daysToCivil (localSec t / 86400)) as [[year month] day].
  destruct C as (Hmonth & Hday & Hciv).
  cbn [fst]. intros [Hy0 Hy1] Hoff Hzone.
  set (sod := localSec t mod 86400).
  assert (Hsod : 0 <= sod < 86400) by (apply Z.mod_pos_bound; lia).
  pose proof (daysIn_le month year) as Hdi.
  unfold parseRFC3339.
  rewrite take_pad4.
  rewrite parseUint_pad4 by lia. cbn [bind].
  rewrite drop_pad4.
  rewrite expect_same. cbn [bind].
  rewrite take_pad2.
  rewrite parseUint_pad2 by lia. cbn [bind].
  rewrite drop_pad2.
  rewrite expect_same. cbn [bind].
  rewrite take_pad2.
  rewrite parseUint_pad2 by lia. cbn [bind].
  rewrite drop_pad2.
  rewrite expect_same. cbn [bind].
  rewrite take_pad2.
  rewrite parseUint_pad2 by (Z.div_mod_to_equations; lia). cbn [bind].
  rewrite drop_pad2.
  rewrite expect_same. cbn [bind].
  rewrite take_pad2.
  rewrite parseUint_pad2 by (Z.div_mod_to_equations; lia). cbn [bind].
  rewrite drop_pad2.
  rewrite expect_same. cbn [bind].
  rewrite take_pad2.
  rewrite parseUint_pad2 by (Z.div_mod_to_equations; lia). cbn [bind].
  rewrite drop_pad2.
  assert (Hns : 0 <= unixNano t mod Second < 1000000000)
    by (apply Z.mod_pos_bound; reflexivity).
  assert (Hpz : parseZone (appendZone (zoneOffset t)) = Some (zoneOffset t)).
  { now apply parseZone_appendZone. }
  destruct (appendZone_nondigit (zoneOffset t)) as (zc & zr & Ez & Hzd & Hzp).
  assert (Hfinal : forall nsec, nsec = unixNano t mod Second ->
    Some (mkTime ((civilToDays year month day * 86400 + sod / 3600 * 3600
                   + (sod / 60) mod 60 * 60 + sod mod 60 - zoneOffset t) * Second
                  + nsec) (zoneOffset t)) = Some t).
  { intros nsec ->. rewrite Hciv. destruct t as [un off]. f_equal. f_equal.
    unfold sod, localSec, Second in *. cbn [unixNano zoneOffset] in *.
    Z.div_mod_to_equations; lia. }
  unfold appendNano.
  destruct (Z.eqb_spec (unixNano t mod Second) 0) as [E0|N0].
  - cbn [String.append]. rewrite Ez.
    assert (Hsel : (match String zc zr with
                    | String p (String d r) =>
                        if Ascii.eqb p "."%char && isDigit d
                        then let '(ds, rest) := spanDigits (String d r) in
                             (parseNanoseconds ds, rest)
                        else (0, String zc zr)
                    | _ => (0, String zc zr)
                    end) = (0, String zc zr)).
    { destruct zr; [reflexivity|]. now rewrite Hzp. }
    rewrite Hsel, <- Ez, Hpz. cbn [bind]. apply Hfinal. symmetry; exact E0.
  - destruct (parseNanoseconds_appendNano (unixNano t mod Second))
      as (Hpn & Had & Hne); [lia|].
    cbn [String.append].
    destruct (trimZeros (padN 9 (unixNano t mod Second))) as [|d ds] eqn:Etr;
      [contradiction|].
    cbn [String.append]. cbn [Ascii.eqb Bool.eqb andb].
    assert (Hd : isDigit d = true)
      by (cbn [allDigits] in Had; now apply andb_true_iff in Had).
    rewrite Hd.
    change (String d (ds +:+ appendZone (zoneOffset t)))
      with (String d ds +:+ appendZone (zoneOffset t)).
    rewrite Ez, (spanDigits_app _ _ _ Had Hzd), <- Ez, Hpz. cbn [bind].
    apply Hfinal. exact Hpn.
Qed.


(** A time that [MarshalJSON] accepts is read back by [UnmarshalJSON],
    when the zone offset is a whole number of minutes. *)
Lemma parse_format (t : Time) (txt : string) :
  appendStrictRFC3339 t = Some txt -> zoneOffset t mod 60 = 0 ->
  parseRFC3339 txt = Some t.
Proof.
  unfold appendStrictRFC3339.
  pose proof (parse_appendFormat t) as P.
  destruct (daysToCivil (localSec t / 86400)) as [[year month] day].
  cbn [fst] in P.
  destruct ((year <? 0) || (9999 <? year)) eqn:Hy; [discriminate|].
  apply orb_false_iff in Hy. destruct Hy as [Hy0 Hy1].
  apply Z.ltb_ge in Hy0, Hy1.
  destruct (negb (zoneOffset t =? 0) && (24 <=? Z.abs (Z.quot (zoneOffset t) 60) / 60))
    eqn:Hzone; [discriminate|].
  intros H Hoff.
  assert (E : txt = appendFormatRFC3339 t) by congruence.
  rewrite E. apply P; [lia | exact Hoff |].
  apply andb_false_iff in Hzone. destruct Hzone as [Hz|Hz].
  - apply negb_false_iff, Z.eqb_eq in Hz. rewrite Hz. reflexivity.
  - apply Z.leb_gt in Hz. exact Hz.
Qed.


(** *** The text of a time holds no quote, backslash or control character *)

Lemma closed_digit (c : ascii) (r : string) :
  isDigit c = true -> closed false (String c r) = closed false r.
Proof.
  unfold isDigit. intros H. apply andb_true_iff in H. destruct H as [H1 H2].
  apply Z.leb_le in H1, H2. cbn [closed].
  destruct (Z.eqb_spec (byte_val c) 34); [lia|].
  destruct (Z.eqb_spec (byte_val c) 92); [lia|].
  destruct (Z.ltb_spec (byte_val c) 32); [lia|]. reflexivity.
Qed.

Lemma closed_digits (s r : string) :
  allDigits s = true -> closed false (s +:+ r) = closed false r.
Proof.
  induction s as [|c s IH]; [reflexivity|].
  cbn [allDigits]. intros H. apply andb_true_iff in H. destruct H as [Hc Hs].
  cbn [String.append]. rewrite closed_digit by exact Hc. now apply IH.
Qed.

Lemma closed_allDigits (s : string) :
  allDigits s = true -> closed false s = true.
Proof.
  induction s as [|c s IH]; [reflexivity|].
  cbn [allDigits]. intros H. apply andb_true_iff in H. destruct H as [Hc Hs].
  rewrite closed_digit by exact Hc. now apply IH.
Qed.

Lemma allDigits_pad2 (x : Z) : 0 <= x < 100 -> allDigits (pad2 x) = true.
Proof.
  intros H. unfold pad2. cbn [allDigits].
  rewrite !isDigit_digit by (Z.div_mod_to_equations; lia). reflexivity.
Qed.

Lemma allDigits_pad4 (x : Z) : 0 <= x <= 9999 -> allDigits (pad4 x) = true.
Proof.
  intros H. unfold pad4. cbn [allDigits].
  rewrite !isDigit_digit by (Z.div_mod_to_equations; lia). reflexivity.
Qed.

Lemma closed_appendZone (off : Z) :
  Z.abs (Z.quot off 60) / 60 < 24 -> closed false (appendZone off) = true.
Proof.
  intros H. unfold appendZone. destruct (off =? 0); [reflexivity|].
  assert (Hm : 0 <= Z.abs (Z.quot off 60) mod 60 < 60)
    by (apply Z.mod_pos_bound; lia).
  assert (Hh : 0 <= Z.abs (Z.quot off 60) / 60)
    by (apply Z.div_pos; lia).
  assert (E : forall sg, closed false (String sg EmptyString) = true ->
            closed false (String sg (pad2 (Z.abs (Z.quot off 60) / 60) +:+
              String ":"%char (pad2 (Z.abs (Z.quot off 60) mod 60)))) = true).
  { intros sg Hsg.
    change (String sg (?a +:+ ?b)) with (String sg EmptyString +:+ (a +:+ b)).
    apply closed_app; [exact Hsg|].
    rewrite closed_digits by (apply allDigits_pad2; lia).
    change (String ":"%char ?b) with (String ":"%char EmptyString +:+ b).
    apply closed_app; [reflexivity|].
    apply closed_allDigits, allDigits_pad2; lia. }
  destruct (Z.quot off 60 <? 0); apply E; reflexivity.
Qed.

Lemma closed_appendNano (ns : Z) :
  0 <= ns < 1000000000 -> closed false (appendNano ns) = true.
Proof.
  intros H. unfold appendNano. destruct (ns =? 0); [reflexivity|].
  change (String "."%char ?b) with (String "."%char EmptyString +:+ b).
  apply closed_app; [reflexivity|].
  apply closed_allDigits, allDigits_trimZeros, allDigits_padN.
Qed.

Lemma closed_appendFormat (t : Time) :
  0 <= fst (fst (daysToCivil (localSec t / 86400))) <= 9999 ->
  Z.abs (Z.quot (zoneOffset t) 60) / 60 < 24 ->
  closed false (appendFormatRFC3339 t) = true.
Proof.
  unfold appendFormatRFC3339.
  pose proof (daysToCivil_spec (localSec t / 86400)) as C.
  destruct (daysToCivil (localSec t / 86400)) as [[year month] day].
  destruct C as (Hmonth & Hday & Hciv).
  cbn [fst]. intros Hy Hzone.
  pose proof (daysIn_le month year) as Hdi.
  set (sod := localSec t mod 86400).
  assert (Hsod : 0 <= sod < 86400) by (apply Z.mod_pos_bound; lia).
  assert (P : forall (c : ascii) (b : string),
            closed false (String c EmptyString) = true ->
            closed false b = true -> closed false (String c b) = true).
  { intros c b Hc Hb.
    change (String c b) with (String c EmptyString +:+ b).
    now apply closed_app. }
  rewrite closed_digits by (apply allDigits_pad4; lia).
  apply P; [reflexivity|].
  rewrite closed_digits by (apply allDigits_pad2; lia).
  apply P; [reflexivity|].
  rewrite closed_digits by (apply allDigits_pad2; lia).
  apply P; [reflexivity|].
  rewrite closed_digits by (apply allDigits_pad2; Z.div_mod_to_equations; lia).
  apply P; [reflexivity|].
  rewrite closed_digits by (apply allDigits_pad2; Z.div_mod_to_equations; lia).
  apply P; [reflexivity|].
  rewrite closed_digits by (apply allDigits_pad2; Z.div_mod_to_equations; lia).
  apply closed_app.
  - apply closed_appendNano. apply Z.mod_pos_bound. reflexivity.
  - now apply closed_appendZone.
Qed.

End time_facts.

(** *** The token file round trip *)

Module tokenjson_facts.
Import json json_facts time time_facts tokenjson.

Lemma quoted_app (body rest : string) :
  quoted body +:+ rest = String dquote (body +:+ String dquote rest).
Proof. unfold quoted. cbn [String.append]. now rewrite append_assoc. Qed.

Lemma skip_ws_nonspace (c : ascii) (r : string) :
  isSpace c = false -> skip_ws (String c r) = String c r.
Proof. intros H. cbn [skip_ws]. now rewrite H. Qed.

Lemma member_step (n : nat) (key body rest : string) (ts : TokenStore) :
  appendString key = quoted key -> closed false key = true ->
  unquote key = Some key -> closed false body = true ->
  object_members (S n) (member key (quoted body) rest) ts =
    match set_field key (JString body) ts, skip_ws rest with
    | Some ts', String d r4 =>
      if byte_val d =? 0x2C then object_members n r4 ts'
      else if byte_val d =? 0x7D then
        (if is_empty (skip_ws r4) then Some ts' else None)
      else None
    | _, _ => None
    end.
Proof.
  intros Hq Hck Huk Hcb. unfold member. rewrite Hq, !quoted_app.
  cbn [object_members].
  change (skip_ws (String newline (indent +:+ String dquote ?r)))
    with (String dquote r).
  change (byte_val dquote =? 34) with true. cbv iota.
  rewrite (scan_closed key _ false Hck), Huk.
  change (skip_ws (String ":"%char ?r)) with (String ":"%char r).
  rewrite expect_same.
  change (skip_ws (String " "%char (String dquote ?r))) with (String dquote r).
  cbn [scan_value].
  change (byte_val dquote =? 34) with true. cbv iota.
  rewrite (scan_closed body _ false Hcb).
  reflexivity.
Qed.


Lemma member_length (key value rest : string) :
  exists m, String.length (member key value rest) = S (S (S (S m))).
Proof.
  unfold member, indent, appendString. cbn [String.append String.length].
  eexists. reflexivity.
Qed.

Lemma appendString_quoted (s : string) :
  appendString s = quoted (appendBody (String.length s) s).
Proof. reflexivity. Qed.

(** The token file is read back as the record it was written from. *)
Lemma Unmarshal_MarshalIndent (ts ts0 : TokenStore) (data : string) :
  MarshalIndent ts = Some data ->
  utf8.ValidString (ts_AccessToken ts) = true ->
  utf8.ValidString (ts_RefreshToken ts) = true ->
  utf8.ValidString (ts_TokenType ts) = true ->
  zoneOffset (ts_Expiry ts) mod 60 = 0 ->
  Unmarshal data ts0 = Some ts.
Proof.
  intros HM Va Vr Vt Hz. unfold MarshalIndent, MarshalJSON in HM.
  destruct (appendStrictRFC3339 (ts_Expiry ts)) as [txt|] eqn:Etxt;
    [|discriminate].
  assert (Hparse : UnmarshalJSON txt = Some (ts_Expiry ts))
    by (apply parse_format; assumption).
  assert (Hclosed : closed false txt = true).
  { revert Etxt. unfold appendStrictRFC3339.
    pose proof (closed_appendFormat (ts_Expiry ts)) as P.
    destruct (daysToCivil (localSec (ts_Expiry ts) / 86400)) as [[year month] day].
    cbn [fst] in P.
    destruct ((year <? 0) || (9999 <? year)) eqn:Hy; [discriminate|].
    apply orb_false_iff in Hy. destruct Hy as [Hy0 Hy1].
    apply Z.ltb_ge in Hy0, Hy1.
    destruct (negb (zoneOffset (ts_Expiry ts) =? 0)
              && (24 <=? Z.abs (Z.quot (zoneOffset (ts_Expiry ts)) 60) / 60))
      eqn:Hzone; [discriminate|].
    intros E. assert (E' : txt = appendFormatRFC3339 (ts_Expiry ts)) by congruence.
    rewrite E'. apply P; [lia|].
    apply andb_false_iff in Hzone. destruct Hzone as [Hzn|Hzn].
    - apply negb_false_iff, Z.eqb_eq in Hzn. rewrite Hzn. reflexivity.
    - apply Z.leb_gt in Hzn. exact Hzn. }
  assert (Ed : data = String "{"%char
      (member "access_token" (quoted (appendBody (String.length (ts_AccessToken ts)) (ts_AccessToken ts)))
        (String ","%char
      (member "refresh_token" (quoted (appendBody (String.length (ts_RefreshToken ts)) (ts_RefreshToken ts)))
        (String ","%char
      (member "token_type" (quoted (appendBody (String.length (ts_TokenType ts)) (ts_TokenType ts)))
        (String ","%char
      (member "expiry" (quoted txt) (String newline (String "}"%char EmptyString))))))))))
    by (injection HM; intros <-; reflexivity).
  clear HM. subst data.
  unfold Unmarshal.
  set (m4 := member "expiry" _ _).
  set (m3 := member "token_type" _ _).
  set (m2 := member "refresh_token" _ _).
  set (m1 := member "access_token" _ _).
  destruct (member_length "access_token"
              (quoted (appendBody (String.length (ts_AccessToken ts)) (ts_AccessToken ts)))
              (String ","%char m2)) as [m Hlen].
  fold m1 in Hlen.
  cbn [String.length]. rewrite Hlen.
  rewrite skip_ws_nonspace by reflexivity.
  change (byte_val "{"%char =? 123) with true. cbv iota.
  assert (Hs1 : exists r, skip_ws m1 = String dquote r)
    by (eexists; reflexivity).
  destruct Hs1 as [r1 Hs1]. rewrite Hs1.
  change (byte_val dquote =? 125) with false. cbv iota.
  unfold m1.
  rewrite member_step; [| reflexivity | reflexivity | reflexivity | apply closed_appendBody].
  change (set_field "access_token" (JString ?b) ?t)
    with (match set_string (JString b) (ts_AccessToken t) with
          | Some s => Some (mkTokenStore s (ts_RefreshToken t) (ts_TokenType t) (ts_Expiry t))
          | None => None
          end).
  cbn [set_string]. rewrite (unquote_appendBody _ Va).
  rewrite skip_ws_nonspace by reflexivity.
  change (byte_val ","%char =? 44) with true. cbv iota.
  unfold m2.
  rewrite member_step; [| reflexivity | reflexivity | reflexivity | apply closed_appendBody].
  change (set_field "refresh_token" (JString ?b) ?t)
    with (match set_string (JString b) (ts_RefreshToken t) with
          | Some s => Some (mkTokenStore (ts_AccessToken t) s (ts_TokenType t) (ts_Expiry t))
          | None => None
          end).
  cbn [set_string]. rewrite (unquote_appendBody _ Vr).
  rewrite skip_ws_nonspace by reflexivity.
  change (byte_val ","%char =? 44) with true. cbv iota.
  unfold m3.
  rewrite member_step; [| reflexivity | reflexivity | reflexivity | apply closed_appendBody].
  change (set_field "token_type" (JString ?b) ?t)
    with (match set_string (JString b) (ts_TokenType t) with
          | Some s => Some (mkTokenStore (ts_AccessToken t) (ts_RefreshToken t) s (ts_Expiry t))
          | None => None
          end).
  cbn [set_string]. rewrite (unquote_appendBody _ Vt).
  rewrite skip_ws_nonspace by reflexivity.
  change (byte_val ","%char =? 44) with true. cbv iota.
  unfold m4.
  rewrite member_step; [| reflexivity | reflexivity | reflexivity | exact Hclosed].
  change (set_field "expiry" (JString ?b) ?t)
    with (match UnmarshalJSON b with
          | Some e => Some (mkTokenStore (ts_AccessToken t) (ts_RefreshToken t) (ts_TokenType t) e)
          | None => None
          end).
  rewrite Hparse. cbn [ts_AccessToken ts_RefreshToken ts_TokenType ts_Expiry].
  change (skip_ws (String newline (String "}"%char EmptyString)))
    with (String "}"%char EmptyString).
  change (byte_val "}"%char =? 44) with false.
  change (byte_val "}"%char =? 125) with true. cbv iota.
  cbn [skip_ws is_empty]. now destruct ts.
Qed.

End tokenjson_facts.

(** *** The file system calls *)

Lemma same_but_fs_refl (w : World) : same_but_fs w w.
Proof. unfold same_but_fs, set_fs. now destruct w. Qed.

Lemma same_but_fs_trans (w1 w2 w3 : World) :
  same_but_fs w1 w2 -> same_but_fs w2 w3 -> same_but_fs w1 w3.
Proof.
  unfold same_but_fs, set_fs. intros H12 H23. rewrite H23 at 1.
  rewrite H12 at 1 2 3 4 5 6 7 8. reflexivity.
Qed.

Lemma same_but_fs_set (w : World) (f : gmap (list string) node) :
  same_but_fs w (set_fs w f).
Proof. reflexivity. Qed.

Lemma grows_refl (p : list string) (perm : Z) (w : World) : grows p perm w w.
Proof.
  split; [apply same_but_fs_refl|]. split; [auto|].
  intros q nd H1 H2. congruence.
Qed.

Lemma parent_prefix (p : list string) : parent p `prefix_of` p.
Proof.
  unfold parent. destruct p as [|x l]; [reflexivity|].
  exists [List.last (x :: l) x]. apply app_removelast_last. discriminate.
Qed.

Lemma os_Mkdir_grows (p : list string) (perm : Z) (w w' : World) (r : result unit) :
  os_Mkdir p perm w = (r, w') -> grows p perm w w'.
Proof.
  unfold os_Mkdir. intros H.
  destruct (node_at (fs w) p) as [nd|] eqn:Hp.
  { injection H as <- <-. apply grows_refl. }
  destruct (node_at (fs w) (parent p)) as [[m|m d]|];
    try (injection H as <- <-; apply grows_refl).
  destruct (can_write m && can_search m);
    [|injection H as <- <-; apply grows_refl].
  injection H as <- <-.
  assert (Hnone : fs w !! p = None).
  { destruct p; [discriminate Hp | exact Hp]. }
  split; [apply same_but_fs_set|]. cbn [fs set_fs]. split.
  - intros q nd Hq. rewrite lookup_insert_ne; [exact Hq | congruence].
  - intros q nd Hq Hq'. destruct (decide (p = q)) as [->|Hne].
    + rewrite lookup_insert_eq in Hq'. injection Hq' as <-. now split.
    + rewrite lookup_insert_ne in Hq' by exact Hne. congruence.
Qed.

Lemma grows_trans (p q : list string) (perm : Z) (w1 w2 w3 : World) :
  q `prefix_of` p -> grows q perm w1 w2 -> grows p perm w2 w3 -> grows p perm w1 w3.
Proof.
  intros Hqp (S12 & K12 & N12) (S23 & K23 & N23).
  assert (Hu : umask w2 = umask w1) by (rewrite S12; reflexivity).
  split; [eapply same_but_fs_trans; eassumption|]. split.
  - auto.
  - intros x nd Hx Hx3. destruct (fs w2 !! x) as [nd2|] eqn:Hx2.
    + destruct (N12 x nd2 Hx Hx2) as [-> Hpre].
      rewrite (K23 _ _ Hx2) in Hx3. injection Hx3 as <-.
      split; [reflexivity | now transitivity q].
    + rewrite <- Hu. now apply N23.
Qed.

Lemma MkdirAll_rec_grows (n : nat) (p : list string) (perm : Z)
    (w w' : World) (r : result unit) :
  MkdirAll_rec n p perm w = (r, w') -> grows p perm w w'.
Proof.
  revert p w w' r; induction n as [|n IH]; intros p w w' r H; cbn [MkdirAll_rec] in H.
  - destruct (node_at (fs w) p) as [[m|m d]|];
      injection H as <- <-; apply grows_refl.
  - destruct (node_at (fs w) p) as [[m|m d]|];
      try (injection H as <- <-; apply grows_refl).
    destruct (MkdirAll_rec n (parent p) perm w) as [[u|e] w1] eqn:Hrec.
    + apply (grows_trans p (parent p) perm w w1 w');
        [apply parent_prefix | now apply (IH _ _ _ _ Hrec) |].
      apply os_Mkdir_grows in H. destruct H as (S1 & K1 & N1).
      split; [exact S1|]. split; [exact K1|]. exact N1.
    + injection H as <- <-.
      apply IH in Hrec. destruct Hrec as (S1 & K1 & N1).
      split; [exact S1|]. split; [exact K1|].
      intros q nd Hq Hq'. destruct (N1 q nd Hq Hq') as [-> Hpre].
      split; [reflexivity|]. transitivity (parent p); [exact Hpre | apply parent_prefix].
Qed.

Lemma MkdirAll_rec_dir (n : nat) (p : list string) (perm : Z) (w w' : World) :
  MkdirAll_rec n p perm w = (Ok tt, w') ->
  exists m, node_at (fs w') p = Some (Dir m).
Proof.
  destruct n as [|n]; cbn [MkdirAll_rec]; intros H.
  - destruct (node_at (fs w) p) as [[m|m d]|] eqn:Hp; try discriminate.
    injection H as <-. eauto.
  - destruct (node_at (fs w) p) as [[m|m d]|] eqn:Hp; try discriminate.
    { injection H as <-. eauto. }
    destruct (MkdirAll_rec n (parent p) perm w) as [[u|e] w1]; [|discriminate].
    unfold os_Mkdir in H.
    destruct (node_at (fs w1) p) as [nd|] eqn:Hp1; [discriminate|].
    destruct (node_at (fs w1) (parent p)) as [[m|m d]|]; try discriminate.
    destruct (can_write m && can_search m); [|discriminate].
    injection H as <-. cbn [fs set_fs].
    destruct p as [|x l]; [discriminate Hp1|].
    cbn [node_at]. rewrite lookup_insert_eq. eauto.
Qed.

Lemma MkdirAll_rec_exists (n : nat) (p : list string) (perm m : Z) (w : World) :
  node_at (fs w) p = Some (Dir m) -> MkdirAll_rec n p perm w = (Ok tt, w).
Proof. intros H. destruct n; cbn [MkdirAll_rec]; now rewrite H. Qed.

Lemma dirs_only_refl (w : World) : dirs_only w w.
Proof.
  split; [apply same_but_fs_refl|]. split; [auto|].
  intros q nd H1 H2. congruence.
Qed.

Lemma getTokenPath_cases (w : World) :
  match home w with
  | None =>
    getTokenPath w = (Err (ErrWrap "failed to get current user" (ErrOS EUSER)), w)
  | Some h =>
    exists r w', os_MkdirAll (configDirOf h) mode_0755 w = (r, w') /\
      getTokenPath w =
        (match r with
         | Ok _ => Ok (tokenPathOf h)
         | Err e => Err (ErrWrap "failed to create config directory" e)
         end, w')
  end.
Proof.
  unfold getTokenPath, getConfigDir, bindM, wrapErr, user_Current, ret.
  destruct (home w) as [h|]; [|reflexivity].
  fold (configDirOf h).
  destruct (os_MkdirAll (configDirOf h) mode_0755 w) as [[u|e] w'] eqn:E;
    eexists _, _; (split; [reflexivity|]); reflexivity.
Qed.

Lemma getTokenPath_frame (w w' : World) (r : result (list string)) :
  getTokenPath w = (r, w') -> dirs_only w w'.
Proof.
  pose proof (getTokenPath_cases w) as C. intros H.
  destruct (home w) as [h|] eqn:Hh.
  - destruct C as (r0 & w0 & Hmk & Hg). rewrite Hg in H. injection H as _ <-.
    apply MkdirAll_rec_grows in Hmk. destruct Hmk as (S1 & K1 & N1).
    split; [exact S1|]. split; [exact K1|].
    intros q nd Hq Hq'. exists h. destruct (N1 q nd Hq Hq') as [-> Hp]. auto.
  - rewrite C in H. injection H as _ <-. apply dirs_only_refl.
Qed.

Lemma getTokenPath_ok (w w' : World) (p : list string) :
  getTokenPath w = (Ok p, w') ->
  exists h m, home w = Some h /\ p = tokenPathOf h /\
    fs w' !! configDirOf h = Some (Dir m).
Proof.
  pose proof (getTokenPath_cases w) as C. intros H.
  destruct (home w) as [h|] eqn:Hh; [|rewrite C in H; discriminate].
  destruct C as (r0 & w0 & Hmk & Hg). rewrite Hg in H.
  destruct r0 as [[]|e]; [|discriminate]. injection H as <- <-.
  apply MkdirAll_rec_dir in Hmk. destruct Hmk as [m Hm].
  exists h, m. split; [reflexivity|]. split; [reflexivity|].
  unfold configDirOf in *. destruct h; exact Hm.
Qed.

Lemma getTokenPath_present (w : World) (h : list string) (m : Z) :
  home w = Some h -> fs w !! configDirOf h = Some (Dir m) ->
  getTokenPath w = (Ok (tokenPathOf h), w).
Proof.
  intros Hh Hd. pose proof (getTokenPath_cases w) as C. rewrite Hh in C.
  destruct C as (r0 & w0 & Hmk & Hg).
  unfold os_MkdirAll in Hmk. rewrite (MkdirAll_rec_exists _ _ _ m) in Hmk.
  - injection Hmk as <- <-. exact Hg.
  - unfold configDirOf in *. destruct h; exact Hd.
Qed.

(** The world after [loadToken] is the world after its [getTokenPath]. *)
Lemma loadToken_world (w w' : World) (r : result Token) :
  loadToken w = (r, w') -> exists rp, getTokenPath w = (rp, w').
Proof.
  unfold loadToken, bindM. destruct (getTokenPath w) as [[p|e] w1].
  - unfold os_ReadFile. destruct (node_at (fs w1) p) as [[m|m d]|].
    + cbn. intros [= _ <-]. eauto.
    + destruct (can_read m).
      * destruct (tokenjson.Unmarshal d zeroTokenStore); cbn; intros [= _ <-]; eauto.
      * cbn. intros [= _ <-]. eauto.
    + cbn. intros [= _ <-]. eauto.
  - intros [= _ <-]. eauto.
Qed.

Lemma loadToken_frame (w w' : World) (r : result Token) :
  loadToken w = (r, w') -> dirs_only w w'.
Proof.
  intros H. destruct (loadToken_world _ _ _ H) as [rp Hp].
  exact (getTokenPath_frame _ _ _ Hp).
Qed.

(** What a successful [loadToken] has read. *)
Lemma loadToken_ok (w w' : World) (token : Token) :
  loadToken w = (Ok token, w') ->
  exists h m data ts,
    home w = Some h /\ getTokenPath w = (Ok (tokenPathOf h), w') /\
    fs w' !! tokenPathOf h = Some (File m data) /\ can_read m = true /\
    tokenjson.Unmarshal data zeroTokenStore = Some ts /\
    token = mkToken (ts_AccessToken ts) (ts_RefreshToken ts) (ts_TokenType ts)
              (ts_Expiry ts).
Proof.
  unfold loadToken, bindM. destruct (getTokenPath w) as [[p|e] w1] eqn:Hg;
    [|discriminate].
  destruct (getTokenPath_ok _ _ _ Hg) as (h & md & Hh & -> & Hd).
  unfold os_ReadFile.
  assert (Hn : node_at (fs w1) (tokenPathOf h) = fs w1 !! tokenPathOf h).
  { unfold tokenPathOf, configDirOf. destruct h; reflexivity. }
  rewrite Hn. destruct (fs w1 !! tokenPathOf h) as [[m|m d]|] eqn:Hf;
    try (cbn; discriminate).
  destruct (can_read m) eqn:Hr; [|cbn; discriminate].
  destruct (tokenjson.Unmarshal d zeroTokenStore) as [ts|] eqn:Hu;
    [|cbn; discriminate].
  cbn. intros [= <- <-]. exists h, m, d, ts. auto 10.
Qed.

(** *** The callback handler, the token endpoint and the token store *)

Lemma Login_step_request (a : Attempt) (s s' : LoginState) (r : Request) :
  Login_step a s (EvRequest r) = Some s' ->
  server s = Serving /\
  s' = deliver (snd (fst (callback a r (world s))))
         (mkLoginState (snd (callback a r (world s))) (tokenChan s)
            (tokenBlocked s) (errChan s) (errBlocked s) (sends s)
            (replies s ++ [fst (fst (callback a r (world s)))]) (server s)
            (ctxDone s) (returned s)).
Proof.
  cbn [Login_step]. destruct (server s); try discriminate.
  destruct (callback a r (world s)) as [[reply sig] w'].
  intros [= <-]. now split.
Qed.

Lemma deliver_fields (sig : Signal) (s : LoginState) :
  world (deliver sig s) = world s /\ replies (deliver sig s) = replies s /\
  sends (deliver sig s) = S (sends s) /\ server (deliver sig s) = server s.
Proof.
  destruct sig as [e|t]; cbn [deliver].
  - destruct (chan_send (errChan s) (errBlocked s) e). now cbn.
  - destruct (chan_send (tokenChan s) (tokenBlocked s) t). now cbn.
Qed.

Lemma exchangeCodeForToken_posts (c : Config) (code v : string) (w : World) :
  posts (snd (exchangeCodeForToken c code v w))
  = posts w ++ [[("grant_type", "authorization_code"); ("client_id", ClientID c);
                 ("code", code); ("redirect_uri", RedirectURI c);
                 ("code_verifier", v)]].
Proof.
  unfold exchangeCodeForToken, bindM, wrapErr, http_PostForm.
  destruct (endpoint w _ _) as [[e|status body] elapsed]; [reflexivity|].
  destruct (negb (status =? StatusOK)); [reflexivity|].
  destruct body; reflexivity.
Qed.

Lemma callback_posts (a : Attempt) (r : Request) (w : World) :
  posts (snd (callback a r w))
  = posts w ++ (if reaches_exchange a r
                then [exchange_form a (FormValue r "code")] else []).
Proof.
  unfold callback, reaches_exchange.
  destruct (String.eqb (FormValue r "state") (at_state a)); cbn [negb andb];
    [|now rewrite app_nil_r].
  destruct (String.eqb (FormValue r "error") EmptyString); cbn [negb andb];
    [|now rewrite app_nil_r].
  destruct (String.eqb (FormValue r "code") EmptyString); cbn [negb];
    [now rewrite app_nil_r|].
  pose proof (exchangeCodeForToken_posts (at_config a) (FormValue r "code")
                (at_codeVerifier a) w) as P.
  destruct (exchangeCodeForToken _ _ _ w) as [[t|e] w']; exact P.
Qed.

Lemma splitLastColon_none (s : string) :
  hasColon s = false -> splitLastColon s = None.
Proof.
  induction s as [|c s IH]; [reflexivity|].
  cbn [hasColon splitLastColon]. intros H. apply orb_false_iff in H.
  destruct H as [Hc Hs]. now rewrite (IH Hs), Hc.
Qed.

Lemma splitLastColon_some (s : string) :
  hasColon s = true -> exists h p, splitLastColon s = Some (h, p).
Proof.
  induction s as [|c s IH]; [discriminate|].
  cbn [hasColon splitLastColon]. intros H.
  destruct (splitLastColon s) as [[h p]|] eqn:E; [eauto|].
  destruct (byte_val c =? 58); [eauto|].
  cbn [orb] in H. destruct (IH H) as (h & p & Hhp). discriminate.
Qed.

(** The address [":" ++ port] has an empty host, or is no address at all
    when the port holds a colon. *)
Lemma SplitHostPort_colon_port (port : string) :
  SplitHostPort (":" +:+ port)
  = if hasColon port then None else Some (EmptyString, port).
Proof.
  unfold SplitHostPort. cbn [String.append splitLastColon].
  destruct (hasColon port) eqn:H.
  - destruct (splitLastColon_some _ H) as (h & p & ->). reflexivity.
  - rewrite (splitLastColon_none _ H). reflexivity.
Qed.

Lemma refreshToken_posts (config : Config) (refresh : string) (w : World) :
  posts (snd (refreshToken config refresh w)) = posts w ++ [refresh_form config refresh]
  /\ fs (snd (refreshToken config refresh w)) = fs w
  /\ logged (snd (refreshToken config refresh w)) = logged w
  /\ home (snd (refreshToken config refresh w)) = home w
  /\ umask (snd (refreshToken config refresh w)) = umask w.
Proof.
  unfold refreshToken, bindM, wrapErr, http_PostForm, refresh_form.
  destruct (endpoint w _ _) as [[e|status body] elapsed]; [now cbn|].
  destruct (negb (status =? StatusOK)); [now cbn|].
  destruct body; now cbn.
Qed.

(** What [refreshToken] returns when the endpoint answers 200 with a body
    that decodes. *)
Lemma refreshToken_ok (config : Config) (refresh : string) (w : World)
    (resp : tokenResp) (elapsed : Z) :
  endpoint w (length (posts w)) (refresh_form config refresh)
    = (PostResponse StatusOK (Some resp), elapsed) ->
  refreshToken config refresh w
  = (Ok (tokenOfResponse resp
           (if String.eqb (tr_RefreshToken resp) EmptyString
            then refresh else tr_RefreshToken resp)
           (now_of (add_post w (refresh_form config refresh) elapsed))),
     add_post w (refresh_form config refresh) elapsed).
Proof.
  intros H. unfold refreshToken, bindM, wrapErr, http_PostForm.
  fold (refresh_form config refresh). rewrite H. reflexivity.
Qed.

Lemma same_but_fs_fields (w w' : World) :
  same_but_fs w w' ->
  home w' = home w /\ umask w' = umask w /\ clock w' = clock w /\
  zone w' = zone w /\ endpoint w' = endpoint w /\ posts w' = posts w /\
  logged w' = logged w /\ can_listen w' = can_listen w.
Proof. intros ->. now cbn. Qed.

Lemma QuickCheck_world (w : World) :
  snd (QuickCheck w) = snd (loadToken w).
Proof. unfold QuickCheck. now destruct (loadToken w) as [[t|e] w']. Qed.

Lemma os_WriteFile_same_but_fs (p : list string) (data : string) (perm : Z)
    (w w' : World) (r : result unit) :
  os_WriteFile p data perm w = (r, w') -> same_but_fs w w'.
Proof.
  unfold os_WriteFile.
  destruct (node_at (fs w) p) as [[m|m d]|].
  - intros [= _ <-]. apply same_but_fs_refl.
  - destruct (can_write m); intros [= _ <-];
      [apply same_but_fs_set | apply same_but_fs_refl].
  - destruct (node_at (fs w) (parent p)) as [[m|m d]|];
      try (intros [= _ <-]; apply same_but_fs_refl).
    destruct (can_write m && can_search m); intros [= _ <-];
      [apply same_but_fs_set | apply same_but_fs_refl].
Qed.

Lemma saveToken_same_but_fs (token : Token) (w w' : World) (r : result unit) :
  saveToken token w = (r, w') -> same_but_fs w w'.
Proof.
  unfold saveToken, bindM.
  destruct (getTokenPath w) as [[p|e] w1] eqn:Hg.
  - destruct (getTokenPath_frame _ _ _ Hg) as (Hs & _).
    destruct (tokenjson.MarshalIndent _) as [data|].
    + unfold ret, wrapErr.
      destruct (os_WriteFile p data mode_0600 w1) as [[u|e] w2] eqn:Hw;
        intros [= _ <-];
        exact (same_but_fs_trans _ _ _ Hs (os_WriteFile_same_but_fs _ _ _ _ _ _ Hw)).
    + unfold fail. intros [= _ <-]. exact Hs.
  - intros [= _ <-]. exact (proj1 (getTokenPath_frame _ _ _ Hg)).
Qed.

(** [GetAuthenticatedClient] after a successful [loadToken], branch by
    branch. *)
Lemma GetAuthenticatedClient_loaded (config : Config) (w w1 : World) (token : Token) :
  loadToken w = (Ok token, w1) ->
  GetAuthenticatedClient config w =
    if needsRefresh token (now_of w1) then
      match refreshToken config (RefreshToken token) (add_log w1 refresh_notice) with
      | (Err e, w3) => (Err (ErrWrap "failed to refresh token" e), w3)
      | (Ok refreshed, w3) =>
        match saveToken refreshed w3 with
        | (Err e, w4) =>
          (Ok (client_of config refreshed),
           add_log w4 (LogWarning "Warning: failed to save refreshed token" e))
        | (Ok _, w4) => (Ok (client_of config refreshed), w4)
        end
      end
    else (Ok (client_of config token), w1).
Proof.
  intros Hl. unfold GetAuthenticatedClient, bindM at 1. rewrite Hl.
  unfold bindM at 1. cbn [time_Now].
  destruct (needsRefresh token (now_of w1)); [|reflexivity].
  unfold bindM, wrapErr, attempt, log_Println, log_Printf, ret.
  fold refresh_notice.
  destruct (refreshToken config (RefreshToken token) (add_log w1 refresh_notice))
    as [[refreshed|e] w3]; [|reflexivity].
  destruct (saveToken refreshed w3) as [[u|e] w4]; reflexivity.
Qed.

Lemma GetAuthenticatedClient_not_loaded (config : Config) (w w1 : World) (e : error) :
  loadToken w = (Err e, w1) -> GetAuthenticatedClient config w = (Err e, w1).
Proof.
  intros Hl. unfold GetAuthenticatedClient, bindM at 1. now rewrite Hl.
Qed.

Lemma tokenPath_lookup (f : gmap (list string) node) (h : list string) :
  node_at f (tokenPathOf h) = f !! tokenPathOf h.
Proof. unfold tokenPathOf, configDirOf. now destruct h. Qed.

Lemma tokenPath_not_configDir (h : list string) : tokenPathOf h <> configDirOf h.
Proof.
  unfold tokenPathOf. intros E. apply (f_equal length) in E.
  rewrite length_app in E. cbn in E. lia.
Qed.

(** What a successful [saveToken] has done. *)
Lemma saveToken_ok (token : Token) (w w1 : World) :
  saveToken token w = (Ok tt, w1) ->
  exists h wa md data perm,
    home w = Some h /\
    getTokenPath w = (Ok (tokenPathOf h), wa) /\
    fs wa !! configDirOf h = Some (Dir md) /\
    tokenjson.MarshalIndent (store_of token) = Some data /\
    w1 = set_fs wa (<[tokenPathOf h := File perm data]> (fs wa)) /\
    match fs wa !! tokenPathOf h with
    | Some (File old _) => perm = old
    | _ => perm = Z.ldiff mode_0600 (umask w)
    end.
Proof.
  unfold saveToken, bindM. fold (store_of token).
  destruct (getTokenPath w) as [[p|e] wa] eqn:Hg; [|discriminate].
  destruct (getTokenPath_ok _ _ _ Hg) as (h & md & Hh & -> & Hd).
  destruct (getTokenPath_frame _ _ _ Hg) as (Hs & _).
  destruct (same_but_fs_fields _ _ Hs) as (_ & Hu & _).
  destruct (tokenjson.MarshalIndent (store_of token)) as [data|]; [|discriminate].
  unfold ret, wrapErr, os_WriteFile. rewrite tokenPath_lookup.
  destruct (fs wa !! tokenPathOf h) as [[m|m d]|] eqn:Hf.
  - discriminate.
  - destruct (can_write m); [|discriminate]. intros [= <-].
    exists h, wa, md, data, m. rewrite Hf. repeat split; try assumption; reflexivity.
  - destruct (node_at (fs wa) (parent (tokenPathOf h))) as [[m|m d]|];
      try discriminate.
    destruct (can_write m && can_search m); [|discriminate]. intros [= <-].
    exists h, wa, md, data, (Z.ldiff mode_0600 (umask wa)).
    rewrite Hu, Hf. repeat split; try assumption; reflexivity.
Qed.

Lemma mode_0600_owner_only (u : Z) : Z.land (Z.ldiff mode_0600 u) 63 = 0.
Proof.
  apply Z.bits_inj'. intros n Hn.
  rewrite Z.land_spec, Z.ldiff_spec, Z.bits_0.
  destruct (Z_lt_ge_dec n 6) as [Hlt|Hge].
  - assert (Hc : n = 0 \/ n = 1 \/ n = 2 \/ n = 3 \/ n = 4 \/ n = 5) by lia.
    destruct Hc as [->|[->|[->|[->|[->| ->]]]]]; reflexivity.
  - replace (Z.testbit 63 n) with false; [apply andb_false_r|].
    symmetry. apply Z.bits_above_log2; [lia|]. simpl. lia.
Qed.

Lemma mode_0600_kept (u : Z) :
  Z.land u mode_0600 = 0 -> Z.ldiff mode_0600 u = mode_0600.
Proof.
  intros H. apply Z.bits_inj'. intros n Hn. rewrite Z.ldiff_spec.
  apply (f_equal (fun z => Z.testbit z n)) in H.
  rewrite Z.land_spec, Z.bits_0 in H.
  destruct (Z.testbit mode_0600 n); [|reflexivity].
  rewrite andb_true_r in H. now rewrite H.
Qed.

(** A token file that exists keeps its mode: [os.WriteFile] sets the mode
    only of a file it creates. *)
Lemma saveToken_keeps_mode (token : Token) (w w1 : World) (h : list string)
    (old : Z) (data0 : string) :
  home w = Some h -> fs w !! tokenPathOf h = Some (File old data0) ->
  saveToken token w = (Ok tt, w1) ->
  exists data, fs w1 !! tokenPathOf h = Some (File old data).
Proof.
  intros Hh Hf Hsave.
  destruct (saveToken_ok _ _ _ Hsave)
    as (h' & wa & md & data & perm & Hh' & Hg & Hd & Hm & -> & Hperm).
  assert (h' = h) by congruence. subst h'.
  destruct (getTokenPath_frame _ _ _ Hg) as (_ & Hk & _).
  rewrite (Hk _ _ Hf) in Hperm. subst perm.
  exists data. cbn [fs set_fs]. apply lookup_insert_eq.
Qed.

(** ** Facts on the rest of the package *)

Lemma set_fs_same (w : World) : set_fs w (fs w) = w.
Proof. now destruct w. Qed.

Lemma parent_tokenPathOf (h : list string) : parent (tokenPathOf h) = configDirOf h.
Proof. unfold parent, tokenPathOf. apply removelast_last. Qed.

Lemma tokenPathOf_nonnil (h : list string) : tokenPathOf h <> [].
Proof. unfold tokenPathOf. intros H. apply app_eq_nil in H. destruct H; discriminate. Qed.

Lemma configDirOf_lookup (f : gmap (list string) node) (h : list string) :
  node_at f (configDirOf h) = f !! configDirOf h.
Proof.
  unfold configDirOf. destruct (h ++ [".config"; ConfigDirName]) eqn:E; [|reflexivity].
  apply app_eq_nil in E. destruct E; discriminate.
Qed.

Lemma not_prefix_parent (p : list string) : p <> [] -> ~ p `prefix_of` parent p.
Proof.
  intros Hp Hpre. apply prefix_length in Hpre. unfold parent in Hpre.
  rewrite removelast_firstn_len, length_take in Hpre.
  destruct p; [congruence|]. cbn in Hpre. lia.
Qed.

Lemma node_at_None (f : gmap (list string) node) (p : list string) :
  node_at f p = None -> p <> [] /\ f !! p = None.
Proof. destruct p; [discriminate|]. cbn. intros H. split; [discriminate|exact H]. Qed.

Lemma node_at_nonnil (f : gmap (list string) node) (p : list string) :
  p <> [] -> node_at f p = f !! p.
Proof. destruct p; [congruence|reflexivity]. Qed.

(** A second [MkdirAll] finds what the first has left. *)
Lemma MkdirAll_rec_idem (n : nat) (p : list string) (perm : Z) (w w1 : World)
    (r : result unit) :
  MkdirAll_rec n p perm w = (r, w1) -> MkdirAll_rec n p perm w1 = (r, w1).
Proof.
  revert p w w1 r. induction n as [|n IH]; intros p w w1 r; cbn [MkdirAll_rec].
  - destruct (node_at (fs w) p) as [[m|m d]|] eqn:Hp; intros [= <- <-];
      cbn [MkdirAll_rec]; now rewrite Hp.
  - destruct (node_at (fs w) p) as [[m|m d]|] eqn:Hp;
      try (intros [= <- <-]; cbn [MkdirAll_rec]; now rewrite Hp).
    destruct (node_at_None _ _ Hp) as (Hnn & Hnone).
    destruct (MkdirAll_rec n (parent p) perm w) as [[[]|e] w'] eqn:Hrec.
    + pose proof (IH _ _ _ _ Hrec) as Hrec'.
      destruct (MkdirAll_rec_grows _ _ _ _ _ _ Hrec) as (_ & _ & Hnew).
      assert (Hp' : fs w' !! p = None).
      { destruct (fs w' !! p) as [nd|] eqn:E; [|reflexivity].
        destruct (Hnew _ _ Hnone E) as (_ & Hpre).
        now apply not_prefix_parent in Hpre. }
      unfold os_Mkdir. rewrite (node_at_nonnil _ _ Hnn), Hp'.
      destruct (node_at (fs w') (parent p)) as [[m|m d]|] eqn:Hpar.
      * destruct (can_write m && can_search m) eqn:Hperm; intros [= <- <-].
        -- cbn [MkdirAll_rec]. rewrite (node_at_nonnil _ _ Hnn). cbn [fs set_fs].
           now rewrite lookup_insert_eq.
        -- cbn [MkdirAll_rec]. rewrite (node_at_nonnil _ _ Hnn), Hp', Hrec'.
           unfold os_Mkdir. now rewrite (node_at_nonnil _ _ Hnn), Hp', Hpar, Hperm.
      * intros [= <- <-]. cbn [MkdirAll_rec].
        rewrite (node_at_nonnil _ _ Hnn), Hp', Hrec'.
        unfold os_Mkdir. now rewrite (node_at_nonnil _ _ Hnn), Hp', Hpar.
      * intros [= <- <-]. cbn [MkdirAll_rec].
        rewrite (node_at_nonnil _ _ Hnn), Hp', Hrec'.
        unfold os_Mkdir. now rewrite (node_at_nonnil _ _ Hnn), Hp', Hpar.
    + intros [= <- <-].
      pose proof (IH _ _ _ _ Hrec) as Hrec'.
      destruct (MkdirAll_rec_grows _ _ _ _ _ _ Hrec) as (_ & _ & Hnew).
      assert (Hp' : fs w' !! p = None).
      { destruct (fs w' !! p) as [nd|] eqn:E; [|reflexivity].
        destruct (Hnew _ _ Hnone E) as (_ & Hpre).
        now apply not_prefix_parent in Hpre. }
      cbn [MkdirAll_rec]. now rewrite (node_at_nonnil _ _ Hnn), Hp', Hrec'.
Qed.

Lemma getTokenPath_idem (w w1 : World) (r : result (list string)) :
  getTokenPath w = (r, w1) -> getTokenPath w1 = (r, w1).
Proof.
  intros H. pose proof (getTokenPath_frame _ _ _ H) as (Hs & _).
  destruct (same_but_fs_fields _ _ Hs) as (Hh & _).
  revert H. unfold getTokenPath, getConfigDir, bindM, wrapErr, user_Current, ret.
  rewrite Hh. destruct (home w) as [h|]; [|now intros [= <- <-]].
  unfold os_MkdirAll.
  destruct (MkdirAll_rec _ _ mode_0755 w) as [[[]|e] w'] eqn:Hm;
    intros [= <- <-]; now rewrite (MkdirAll_rec_idem _ _ _ _ _ _ Hm).
Qed.

Lemma loadToken_frame_world (w w1 : World) (r : result Token) :
  loadToken w = (r, w1) -> loadToken w1 = (r, w1).
Proof.
  intros H. destruct (loadToken_world _ _ _ H) as (rp & Hg).
  pose proof (getTokenPath_idem _ _ _ Hg) as Hg'.
  revert H. unfold loadToken, bindM. rewrite Hg, Hg'. tauto.
Qed.

(** [os.Remove] of the token path. *)
Lemma os_Remove_tokenPath (h : list string) (w : World) :
  os_Remove (tokenPathOf h) w =
    match fs w !! configDirOf h with
    | Some (Dir m) =>
      match fs w !! tokenPathOf h with
      | None => (Err (ErrOS ENOENT), w)
      | Some nd =>
        if can_write m && can_search m then
          match nd with
          | File _ _ => (Ok tt, set_fs w (delete (tokenPathOf h) (fs w)))
          | Dir _ =>
            if has_child (fs w) (tokenPathOf h) then (Err (ErrOS EEXIST), w)
            else (Ok tt, set_fs w (delete (tokenPathOf h) (fs w)))
          end
        else (Err (ErrOS EACCES), w)
      end
    | Some (File _ _) => (Err (ErrOS ENOTDIR), w)
    | None => (Err (ErrOS ENOENT), w)
    end.
Proof.
  unfold os_Remove.
  destruct (tokenPathOf h) as [|x l] eqn:Ep; [now apply tokenPathOf_nonnil in Ep|].
  rewrite <- Ep, parent_tokenPathOf, configDirOf_lookup. reflexivity.
Qed.

(** What [deleteToken] does to the world. *)
Lemma deleteToken_cases (w w1 : World) (r : result unit) :
  deleteToken w = (r, w1) ->
  exists rp wa,
    getTokenPath w = (rp, wa) /\
    ((w1 = wa /\ (r = Ok tt -> exists h md,
                    home w = Some h /\ rp = Ok (tokenPathOf h) /\
                    fs wa !! configDirOf h = Some (Dir md) /\
                    fs wa !! tokenPathOf h = None)) \/
     (r = Ok tt /\ exists h md,
        home w = Some h /\ rp = Ok (tokenPathOf h) /\
        fs wa !! configDirOf h = Some (Dir md) /\
        w1 = set_fs wa (delete (tokenPathOf h) (fs wa)))).
Proof.
  unfold deleteToken, bindM.
  destruct (getTokenPath w) as [[p|e] wa] eqn:Hg.
  - destruct (getTokenPath_ok _ _ _ Hg) as (h & md & Hh & -> & Hd).
    intros H. exists (Ok (tokenPathOf h)), wa. split; [reflexivity|].
    revert H. rewrite os_Remove_tokenPath, Hd.
    destruct (fs wa !! tokenPathOf h) as [nd|] eqn:Hf.
    + destruct (can_write md && can_search md).
      * destruct nd as [m|m d].
        -- destruct (has_child (fs wa) (tokenPathOf h)); cbn.
           ++ intros [= <- <-]. left. split; [reflexivity|discriminate].
           ++ intros [= <- <-]. right. split; [reflexivity|]. now exists h, md.
        -- intros [= <- <-]. right. split; [reflexivity|]. now exists h, md.
      * cbn. intros [= <- <-]. left. split; [reflexivity|discriminate].
    + cbn. intros [= <- <-]. left. split; [reflexivity|]. intros _. now exists h, md.
  - intros [= <- <-]. exists (Err e), wa. split; [reflexivity|].
    left. split; [reflexivity|discriminate].
Qed.

(** After a [deleteToken] that succeeds the configuration directory is
    there and the token path is free. *)
Lemma deleteToken_ok (w w1 : World) :
  deleteToken w = (Ok tt, w1) ->
  exists h md wa,
    home w = Some h /\ home w1 = Some h /\
    getTokenPath w = (Ok (tokenPathOf h), wa) /\
    same_but_fs wa w1 /\
    fs w1 = delete (tokenPathOf h) (fs wa) /\
    fs w1 !! configDirOf h = Some (Dir md) /\
    fs w1 !! tokenPathOf h = None.
Proof.
  intros H. destruct (deleteToken_cases _ _ _ H) as (rp & wa & Hg & Hc).
  pose proof (getTokenPath_frame _ _ _ Hg) as (Hs & _).
  destruct (same_but_fs_fields _ _ Hs) as (Hh & _).
  destruct Hc as [(-> & Hok)|(_ & h & md & Hhome & -> & Hd & ->)].
  - destruct (Hok eq_refl) as (h & md & Hhome & -> & Hd & Hf).
    exists h, md, wa.
    split; [exact Hhome|]. split; [congruence|]. split; [exact Hg|].
    split; [apply same_but_fs_refl|].
    split; [symmetry; now apply delete_id|]. split; assumption.
  - exists h, md, wa. cbn [fs set_fs home].
    split; [exact Hhome|]. split; [congruence|]. split; [exact Hg|].
    split; [apply same_but_fs_set|]. split; [reflexivity|]. split.
    + rewrite lookup_delete_ne; [exact Hd|]. apply tokenPath_not_configDir.
    + apply lookup_delete_eq.
Qed.

Lemma Logout_deleteToken (w : World) : Logout w = deleteToken w.
Proof.
  unfold Logout, bindM, ret. now destruct (deleteToken w) as [[[]|e] w'].
Qed.

(** The digests of the empty message and of [abc], and the example of
    RFC 7636, appendix B. *)
Lemma Sum256_abc :
  sha256.bytes_of (sha256.Sum256 "abc")
  = [0xba; 0x78; 0x16; 0xbf; 0x8f; 0x01; 0xcf; 0xea; 0x41; 0x41; 0x40; 0xde;
     0x5d; 0xae; 0x22; 0x23; 0xb0; 0x03; 0x61; 0xa3; 0x96; 0x17; 0x7a; 0x9c;
     0xb4; 0x10; 0xff; 0x61; 0xf2; 0x00; 0x15; 0xad].
Proof. vm_compute. reflexivity. Qed.

Lemma generateCodeChallenge_rfc7636 :
  generateCodeChallenge "dBjftJeZ4CVP-mB92K27uhbUJU1p1r_wW1gFWFOEjXk"
  = "E9Melhoa2OwvFrEMTJguCHaoeK1t8URWbuGJSstw-cM".
Proof. vm_compute. reflexivity. Qed.

Module base64_facts.
Import base64.

(** Strings three bytes at a time. *)
Lemma string_ind3 (P : string -> Prop) :
  P EmptyString ->
  (forall a, P (String a EmptyString)) ->
  (forall a b, P (String a (String b EmptyString))) ->
  (forall a b c r, P r -> P (String a (String b (String c r)))) ->
  forall s, P s.
Proof.
  intros H0 H1 H2 H3.
  assert (H : forall s, P s /\ (forall a, P (String a s))
                        /\ (forall a b, P (String a (String b s)))).
  { induction s as [|c r (IH0 & IH1 & IH2)].
    - auto.
    - split; [apply IH1|]. split; [intros a; apply IH2|].
      intros a b. now apply H3. }
  intros s. apply H.
Qed.

Lemma land_0x3F (x : Z) : Z.land x 0x3F = x mod 64.
Proof. change 0x3F with (Z.ones 6). now rewrite Z.land_ones by lia. Qed.

Lemma sextet_range (x : Z) : 0 <= Z.land x 0x3F < 64.
Proof. rewrite land_0x3F. apply Z.mod_pos_bound. lia. Qed.

Lemma below_64 (P : Z -> bool) :
  forallb (fun n => P (Z.of_nat n)) (seq 0 64) = true ->
  forall v, 0 <= v < 64 -> P v = true.
Proof.
  intros H v Hv. rewrite forallb_forall in H.
  specialize (H (Z.to_nat v)). rewrite Z2Nat.id in H by lia.
  apply H, in_seq. lia.
Qed.

Lemma index_encode (v : Z) : 0 <= v < 64 -> index (encode v) encodeURL = v.
Proof.
  intros Hv. apply Z.eqb_eq.
  apply (below_64 (fun v => index (encode v) encodeURL =? v)); [|exact Hv].
  vm_compute. reflexivity.
Qed.

Lemma encode_inj (u v : Z) :
  0 <= u < 64 -> 0 <= v < 64 -> encode u = encode v -> u = v.
Proof.
  intros Hu Hv E. rewrite <- (index_encode u Hu), <- (index_encode v Hv).
  now rewrite E.
Qed.

Lemma encode_urlSafe (v : Z) : 0 <= v < 64 -> urlSafe (encode v) = true.
Proof.
  apply (below_64 (fun v => urlSafe (encode v))). vm_compute. reflexivity.
Qed.

Lemma land_shifted_small (y x k : Z) :
  0 <= k -> 0 <= x < 2 ^ k -> Z.land (y * 2 ^ k) x = 0.
Proof.
  intros Hk Hx. apply Z.bits_inj'. intros n Hn.
  rewrite Z.land_spec, Z.bits_0.
  destruct (Z_lt_ge_dec n k) as [Hlt|Hge].
  - now rewrite Z.mul_pow2_bits_low.
  - rewrite <- (Z.mod_small x (2 ^ k)) by lia.
    rewrite Z.mod_pow2_bits_high by lia. apply andb_false_r.
Qed.

Lemma lor_shifted (y x k : Z) :
  0 <= k -> 0 <= x < 2 ^ k -> Z.lor (Z.shiftl y k) x = y * 2 ^ k + x.
Proof.
  intros Hk Hx. rewrite Z.shiftl_mul_pow2 by lia.
  symmetry. apply Z.add_nocarry_lor. now apply land_shifted_small.
Qed.

(** The 24 bits of a group of three bytes. *)
Lemma val3 (a b c : ascii) :
  Z.lor (Z.lor (Z.shiftl (byte_val a) 16) (Z.shiftl (byte_val b) 8)) (byte_val c)
  = byte_val a * 65536 + byte_val b * 256 + byte_val c.
Proof.
  pose proof (byte_val_range a). pose proof (byte_val_range b).
  pose proof (byte_val_range c).
  rewrite (Z.shiftl_mul_pow2 (byte_val b)) by lia.
  rewrite (lor_shifted (byte_val a) (byte_val b * 2 ^ 8) 16) by lia.
  replace (byte_val a * 2 ^ 16 + byte_val b * 2 ^ 8)
    with ((byte_val a * 256 + byte_val b) * 2 ^ 8) by lia.
  rewrite <- Z.shiftl_mul_pow2 by lia.
  rewrite lor_shifted by lia. lia.
Qed.

Lemma val2 (a b : ascii) :
  Z.lor (Z.shiftl (byte_val a) 16) (Z.shiftl (byte_val b) 8)
  = byte_val a * 65536 + byte_val b * 256.
Proof.
  pose proof (byte_val_range a). pose proof (byte_val_range b).
  rewrite (Z.shiftl_mul_pow2 (byte_val b)) by lia.
  rewrite (lor_shifted (byte_val a) (byte_val b * 2 ^ 8) 16) by lia. lia.
Qed.

Lemma val1 (a : ascii) : Z.shiftl (byte_val a) 16 = byte_val a * 65536.
Proof. rewrite Z.shiftl_mul_pow2 by lia. lia. Qed.

Lemma sextet (x n : Z) : 0 <= n ->
  Z.land (Z.shiftr x n) 0x3F = (x / 2 ^ n) mod 64.
Proof. intros Hn. now rewrite land_0x3F, Z.shiftr_div_pow2. Qed.

Lemma sextet_inj (x y n : Z) :
  0 <= n ->
  encode (Z.land (Z.shiftr x n) 0x3F) = encode (Z.land (Z.shiftr y n) 0x3F) ->
  (x / 2 ^ n) mod 64 = (y / 2 ^ n) mod 64.
Proof.
  intros Hn E. apply encode_inj in E; try apply sextet_range.
  now rewrite !sextet in E.
Qed.

Lemma sextet0_inj (x y : Z) :
  encode (Z.land x 0x3F) = encode (Z.land y 0x3F) -> x mod 64 = y mod 64.
Proof.
  intros E. apply encode_inj in E; try apply sextet_range.
  now rewrite !land_0x3F in E.
Qed.

(** A number of 24 bits is the sum of its four groups of six bits. *)
Lemma sextets_val (v : Z) :
  0 <= v < 16777216 ->
  v = (v / 2 ^ 18) mod 64 * 262144 + (v / 2 ^ 12) mod 64 * 4096
      + (v / 2 ^ 6) mod 64 * 64 + v mod 64.
Proof.
  intros Hv. change (2 ^ 18) with 262144. change (2 ^ 12) with 4096.
  change (2 ^ 6) with 64. Z.div_mod_to_equations. lia.
Qed.

Lemma sextets_inj (u v : Z) :
  0 <= u < 16777216 -> 0 <= v < 16777216 ->
  (u / 2 ^ 18) mod 64 = (v / 2 ^ 18) mod 64 ->
  (u / 2 ^ 12) mod 64 = (v / 2 ^ 12) mod 64 ->
  (u / 2 ^ 6) mod 64 = (v / 2 ^ 6) mod 64 ->
  u mod 64 = v mod 64 ->
  u = v.
Proof.
  intros Hu Hv E1 E2 E3 E4.
  rewrite (sextets_val u Hu), (sextets_val v Hv). congruence.
Qed.

Lemma low_bits_zero (x : Z) :
  (x * 65536 / 2 ^ 6) mod 64 = 0 /\ (x * 65536) mod 64 = 0.
Proof. change (2 ^ 6) with 64. Z.div_mod_to_equations. lia. Qed.

(** Different bytes give different text. *)
Lemma EncodeToString_inj (s t : string) :
  EncodeToString s = EncodeToString t -> s = t.
Proof.
  revert t. induction s as [|a|a b|a b c r IH] using string_ind3;
    intros t; induction t as [|a'|a' b'|a' b' c' r' _] using string_ind3;
    cbn [EncodeToString]; intros E; try discriminate E; try reflexivity.
  - injection E as E1 E2. rewrite !val1 in *.
    apply sextet_inj in E1; [|lia]. apply sextet_inj in E2; [|lia].
    pose proof (byte_val_range a). pose proof (byte_val_range a').
    assert (Hv : byte_val a * 65536 = byte_val a' * 65536).
    { apply sextets_inj; try lia; try assumption.
      - now rewrite !(proj1 (low_bits_zero _)).
      - now rewrite !(proj2 (low_bits_zero _)). }
    f_equal. apply byte_val_inj. lia.
  - injection E as E1 E2 E3. rewrite !val2 in *.
    apply sextet_inj in E1; [|lia]. apply sextet_inj in E2; [|lia].
    apply sextet_inj in E3; [|lia].
    pose proof (byte_val_range a). pose proof (byte_val_range a').
    pose proof (byte_val_range b). pose proof (byte_val_range b').
    assert (Hv : byte_val a * 65536 + byte_val b * 256
                 = byte_val a' * 65536 + byte_val b' * 256).
    { apply sextets_inj; try lia; try assumption.
      replace (byte_val a * 65536 + byte_val b * 256)
        with ((byte_val a * 1024 + byte_val b * 4) * 64) by lia.
      replace (byte_val a' * 65536 + byte_val b' * 256)
        with ((byte_val a' * 1024 + byte_val b' * 4) * 64) by lia.
      now rewrite !Z.mod_mul by lia. }
    assert (byte_val a = byte_val a') by lia.
    assert (byte_val b = byte_val b') by lia.
    f_equal; [now apply byte_val_inj|]. f_equal. now apply byte_val_inj.
  - injection E as E1 E2 E3 E4 E5. rewrite !val3 in *.
    apply sextet_inj in E1; [|lia]. apply sextet_inj in E2; [|lia].
    apply sextet_inj in E3; [|lia]. apply sextet0_inj in E4.
    pose proof (byte_val_range a). pose proof (byte_val_range a').
    pose proof (byte_val_range b). pose proof (byte_val_range b').
    pose proof (byte_val_range c). pose proof (byte_val_range c').
    assert (Hv : byte_val a * 65536 + byte_val b * 256 + byte_val c
                 = byte_val a' * 65536 + byte_val b' * 256 + byte_val c').
    { apply sextets_inj; try lia; assumption. }
    assert (byte_val a = byte_val a') by lia.
    assert (byte_val b = byte_val b') by lia.
    assert (byte_val c = byte_val c') by lia.
    rewrite (IH _ E5).
    f_equal; [now apply byte_val_inj|]. f_equal; [now apply byte_val_inj|].
    f_equal. now apply byte_val_inj.
Qed.

Lemma EncodeToString_urlSafe (s : string) :
  all_bytes urlSafe (EncodeToString s) = true.
Proof.
  induction s as [|a|a b|a b c r IH] using string_ind3; cbn [EncodeToString all_bytes].
  - reflexivity.
  - now rewrite !encode_urlSafe by apply sextet_range.
  - now rewrite !encode_urlSafe by apply sextet_range.
  - rewrite !encode_urlSafe by apply sextet_range. exact IH.
Qed.

(** The length of the text: [(8 n + 5) / 6] characters for [n] bytes. *)
Lemma EncodeToString_length (s : string) :
  Z.of_nat (String.length (EncodeToString s))
  = (8 * Z.of_nat (String.length s) + 5) / 6.
Proof.
  induction s as [|a|a b|a b c r IH] using string_ind3;
    cbn [EncodeToString String.length]; try reflexivity.
  rewrite !Nat2Z.inj_succ, IH. Z.div_mod_to_equations. lia.
Qed.

End base64_facts.

Lemma rand_Read_length (n : nat) (source : string) :
  String.length (rand_Read n source) = n.
Proof.
  revert source. induction n as [|n IH]; intros source; [reflexivity|].
  cbn [rand_Read]. destruct source; cbn [String.length]; now rewrite IH.
Qed.

Lemma string_of_length (l : list Z) :
  String.length (sha256.string_of l) = length l.
Proof. induction l as [|b r IH]; [reflexivity|]. cbn. now rewrite IH. Qed.

(** [Sum256] returns a [[32]byte]. *)
Lemma Sum256_length (data : string) : String.length (sha256.Sum256 data) = 32%nat.
Proof. unfold sha256.Sum256. rewrite string_of_length. reflexivity. Qed.

Lemma urlSafe_not_escaped (c : ascii) : urlSafe c = true -> url.shouldEscape c = false.
Proof.
  unfold urlSafe, url.shouldEscape. cbv zeta.
  destruct ((97 <=? byte_val c) && (byte_val c <=? 122) || (65 <=? byte_val c) && (byte_val c <=? 90)
            || (48 <=? byte_val c) && (byte_val c <=? 57)); [reflexivity|].
  cbn [orb]. intros H. apply orb_true_iff in H. destruct H as [H|H]; rewrite H;
    [reflexivity|]. now rewrite orb_true_r.
Qed.

Lemma QueryEscape_urlSafe (s : string) :
  all_bytes urlSafe s = true -> url.QueryEscape s = s.
Proof.
  induction s as [|c r IH]; [reflexivity|]. cbn [all_bytes url.QueryEscape].
  intros H. apply andb_true_iff in H. destruct H as (Hc & Hr).
  now rewrite (urlSafe_not_escaped _ Hc), (IH Hr).
Qed.

(** *** The token exchange and the handler *)

Lemma exchange_world (a : Attempt) (code : string) (w : World) :
  snd (exchangeCodeForToken (at_config a) code (at_codeVerifier a) w)
  = add_post w (exchange_form a code)
      (snd (endpoint w (length (posts w)) (exchange_form a code))).
Proof.
  unfold exchangeCodeForToken, bindM, wrapErr, http_PostForm.
  fold (exchange_form a code).
  destruct (endpoint w (length (posts w)) (exchange_form a code))
    as [[e|status body] elapsed]; [reflexivity|].
  destruct (negb (status =? StatusOK)); [reflexivity|].
  destruct body; reflexivity.
Qed.

Lemma exchange_ok (a : Attempt) (code : string) (w w' : World) (t : Token) :
  exchangeCodeForToken (at_config a) code (at_codeVerifier a) w = (Ok t, w') ->
  exists resp elapsed,
    endpoint w (length (posts w)) (exchange_form a code)
      = (PostResponse StatusOK (Some resp), elapsed) /\
    t = tokenOfResponse resp (tr_RefreshToken resp) (now_of w').
Proof.
  unfold exchangeCodeForToken, bindM, wrapErr, http_PostForm.
  fold (exchange_form a code).
  destruct (endpoint w (length (posts w)) (exchange_form a code))
    as [[e|status body] elapsed]; [discriminate|].
  destruct (status =? StatusOK) eqn:Es; [|discriminate]. cbn [negb].
  apply Z.eqb_eq in Es. subst status.
  destruct body as [resp|]; [|discriminate].
  unfold time_Now, ret. intros [= <- <-]. now exists resp, elapsed.
Qed.

(** What the handler does to the world, and what a token it sends is. *)
Lemma callback_effect (a : Attempt) (r : Request) (w w' : World)
    (reply : Reply) (sig : Signal) :
  callback a r w = ((reply, sig), w') ->
  home w' = home w /\ fs w' = fs w /\ endpoint w' = endpoint w /\
  can_listen w' = can_listen w /\ logged w' = logged w /\
  (length (posts w) <= length (posts w'))%nat /\
  (forall t, sig = SendToken t ->
     reply = SuccessPage /\ (length (posts w) < length (posts w'))%nat /\
     granted a w t).
Proof.
  unfold callback.
  destruct (negb (FormValue r "state" =? at_state a)%string).
  { intros [= <- <- <-]. repeat split; try lia; discriminate. }
  destruct (negb (FormValue r "error" =? "")%string).
  { intros [= <- <- <-]. repeat split; try lia; discriminate. }
  destruct (FormValue r "code" =? "")%string.
  { intros [= <- <- <-]. repeat split; try lia; discriminate. }
  pose proof (exchange_world a (FormValue r "code") w) as Hw.
  destruct (exchangeCodeForToken (at_config a) (FormValue r "code")
              (at_codeVerifier a) w) as [[t|e] w1] eqn:Hx; cbn [snd] in Hw;
    intros [= <- <- <-]; subst w1; cbn [home fs endpoint can_listen logged posts add_post];
    rewrite length_app; cbn [length].
  - repeat split; try lia; try (injection H as <-).
    destruct (exchange_ok _ _ _ _ _ Hx) as (resp & elapsed & He & ->).
    exists (FormValue r "code"), (length (posts w)), resp, elapsed.
    repeat split; assumption || reflexivity.
  - repeat split; try lia; discriminate.
Qed.

(** *** The run of a [Login] *)

Lemma Login_inv_start (a : Attempt) (w : World) : Login_inv a w (Login_start w).
Proof.
  unfold Login_inv. cbn. repeat split; try lia; try constructor. congruence.
Qed.

Lemma granted_endpoint (a : Attempt) (w w' : World) (t : Token) :
  endpoint w' = endpoint w -> granted a w' t -> granted a w t.
Proof.
  intros He (code & n & resp & elapsed & H & Ht). rewrite He in H.
  now exists code, n, resp, elapsed.
Qed.

Lemma chan_recv_some {A : Type} (buf blocked : list A) (x : A) (b' k' : list A) :
  chan_recv buf blocked = Some (x, b', k') ->
  buf <> [] /\ forall P : A -> Prop, Forall P (buf ++ blocked) ->
                 P x /\ Forall P (b' ++ k').
Proof.
  unfold chan_recv. destruct buf as [|y buf]; [discriminate|].
  destruct blocked as [|z rest]; intros [= <- <- <-].
  - split; [discriminate|]. intros P H. inversion H. split; [assumption|constructor].
  - split; [discriminate|]. intros P H. inversion H as [|? ? Hy Hr]. subst.
    split; [assumption|]. apply Forall_app in Hr. destruct Hr as (_ & Hr). exact Hr.
Qed.

Lemma deliver_state (sig : Signal) (s : LoginState) :
  world (deliver sig s) = world s /\ returned (deliver sig s) = returned s /\
  server (deliver sig s) = server s /\
  (forall P : Token -> Prop,
     Forall P (tokenChan s ++ tokenBlocked s) ->
     (forall t, sig = SendToken t -> P t) ->
     Forall P (tokenChan (deliver sig s) ++ tokenBlocked (deliver sig s))) /\
  (tokenChan (deliver sig s) <> [] ->
   tokenChan s <> [] \/ exists t, sig = SendToken t).
Proof.
  destruct sig as [e|t]; cbn [deliver].
  - destruct (chan_send (errChan s) (errBlocked s) e) as [buf blocked]. cbn.
    repeat split; auto.
  - unfold chan_send. destruct (tokenChan s) as [|x l] eqn:Hc; cbn.
    + repeat split; eauto.
    + repeat split; eauto.
      * intros P HP Ht. change (x :: l ++ tokenBlocked s ++ [t])
          with ((x :: l) ++ tokenBlocked s ++ [t]).
        rewrite app_assoc. apply Forall_app. split; [exact HP|].
        constructor; [now apply Ht|constructor].
Qed.

Lemma Login_step_inv (a : Attempt) (w : World) (s s' : LoginState) (ev : Event) :
  Login_inv a w s -> Login_step a s ev = Some s' -> Login_inv a w s'.
Proof.
  intros (Hh & He & Hc & Hp & Hg & Ht & Hr).
  assert (Hserving : server s = Serving -> returned s = None).
  { intros Hs. destruct (returned s) as [[e|]|]; [| |reflexivity].
    - destruct Hr as (Hr & _). congruence.
    - destruct Hr as (Hr & _). congruence. }
  destruct ev as [r|e| |c]; cbn [Login_step].
  - destruct (server s) eqn:Hs; try discriminate.
    specialize (Hserving eq_refl). rewrite Hserving in Hr.
    destruct (callback a r (world s)) as [[reply sig] w1] eqn:Hcb.
    destruct (callback_effect _ _ _ _ _ _ Hcb)
      as (Hh1 & Hf1 & He1 & Hc1 & _ & Hp1 & Hs1).
    intros [= <-]. unfold Login_inv.
    match goal with |- context [deliver sig ?s0] =>
      set (st := s0); destruct (deliver_state sig st) as (Dw & Dr & _ & Dt & Dn) end.
    rewrite Dw, Dr. subst st. cbn [world returned tokenChan tokenBlocked] in *.
    rewrite Hserving in *.
    split; [congruence|]. split; [congruence|]. split; [congruence|].
    split; [lia|]. split; [|split; [|congruence]].
    + apply Dt; [exact Hg|]. intros t ->.
      destruct (Hs1 t eq_refl) as (_ & _ & Hgr).
      exact (granted_endpoint _ _ _ _ He Hgr).
    + intros Hne. destruct (Dn Hne) as [Hold|(t & ->)].
      * specialize (Ht Hold). lia.
      * destruct (Hs1 t eq_refl) as (_ & Hlt & _). lia.
  - destruct (server s) eqn:Hs; try discriminate.
    specialize (Hserving eq_refl). rewrite Hserving in Hr.
    destruct (chan_send (errChan s) (errBlocked s) (ErrWrap "callback server error" e))
      as [buf blocked].
    intros [= <-]. unfold Login_inv. cbn. rewrite Hserving.
    repeat split; assumption.
  - intros [= <-]. unfold Login_inv. cbn. repeat split; assumption.
  - destruct (returned s) eqn:Hret; [discriminate|].
    destruct c.
    + destruct (chan_recv (tokenChan s) (tokenBlocked s)) as [[[token tc] tb]|] eqn:Hrecv;
        [|discriminate].
      destruct (chan_recv_some _ _ _ _ _ Hrecv) as (Hne & HP).
      destruct (HP _ Hg) as (Hgt & Hrest). specialize (Ht Hne).
      destruct (saveToken token (world s)) as [[[]|err] w1] eqn:Hsave;
        intros [= <-]; unfold Login_inv; cbn;
        destruct (same_but_fs_fields _ _ (saveToken_same_but_fs _ _ _ _ Hsave))
          as (Hh1 & _ & _ & _ & He1 & Hp1 & _ & Hc1).
      * rewrite Hh1, He1, Hc1, Hp1.
        split; [assumption|]. split; [assumption|]. split; [assumption|].
        split; [assumption|]. split; [assumption|]. split; [intros _; assumption|].
        split; [reflexivity|]. split; [assumption|].
        destruct (saveToken_ok _ _ _ Hsave)
          as (h & wa & md & data & perm & Hhome & _ & _ & Hm & -> & _).
        exists h, perm, token, data. split; [congruence|]. split; [assumption|].
        split; [assumption|]. cbn [fs set_fs]. apply lookup_insert_eq.
      * rewrite Hh1, He1, Hc1, Hp1.
        split; [assumption|]. split; [assumption|]. split; [assumption|].
        split; [assumption|]. split; [assumption|]. split; [intros _; assumption|].
        split; [reflexivity|]. left. eauto.
    + destruct (chan_recv (errChan s) (errBlocked s)) as [[[err ec] eb]|];
        [|discriminate].
      intros [= <-]. unfold Login_inv. cbn.
      repeat split; try assumption. now right.
    + destruct (ctxDone s); [|discriminate].
      intros [= <-]. unfold Login_inv. cbn.
      repeat split; try assumption. now right.
Qed.

Lemma Login_run_inv (a : Attempt) (w : World) (evs : list Event) (s s' : LoginState) :
  Login_inv a w s -> Login_run a s evs = Some s' -> Login_inv a w s'.
Proof.
  revert s. induction evs as [|ev evs IH]; intros s Hi; cbn [Login_run].
  - now intros [= <-].
  - destruct (Login_step a s ev) as [s1|] eqn:Hs; [|discriminate].
    apply IH. exact (Login_step_inv _ _ _ _ _ Hi Hs).
Qed.

(** What a [Login] that has returned has done. *)
Lemma Login_returned (config : Config) (d : Drive) (w w' : World) (r : option error) :
  Login config d w = Some (r, w') ->
  exists s,
    Login_inv (Login_attempt config d) w s /\ returned s = Some r /\ world s = w'.
Proof.
  unfold Login.
  destruct (Login_run (Login_attempt config d) (Login_start w) (events d))
    as [s|] eqn:Hrun; [|discriminate].
  destruct (returned s) as [err|] eqn:Hret; [|discriminate].
  intros [= <- <-]. exists s. split; [|now split].
  exact (Login_run_inv _ _ _ _ _ (Login_inv_start _ _) Hrun).
Qed.

Lemma carries_refl (w : World) : carries w w.
Proof. unfold carries. auto. Qed.

Lemma carries_trans (w1 w2 w3 : World) :
  carries w1 w2 -> carries w2 w3 -> carries w1 w3.
Proof.
  unfold carries. intros (A & B & C & D) (E & F & G & H).
  repeat split; try congruence; lia.
Qed.

Lemma Login_carries (config : Config) (d : Drive) (w w' : World) (r : option error) :
  Login config d w = Some (r, w') -> carries w w'.
Proof.
  intros H.
  destruct (Login_returned _ _ _ _ _ H) as (s & (Hh & He & Hc & Hp & _) & _ & <-).
  unfold carries. auto.
Qed.

(** *** SmartLogin *)

(** The two slices [SmartLogin] prints are in range exactly for a client
    ID of eight bytes or more. *)
Lemma printed_slices (cid : string) :
  match slice_to cid 8, slice_from cid (Z.of_nat (String.length cid) - 4) with
  | Some _, Some _ => (8 <= String.length cid)%nat
  | _, _ => (String.length cid < 8)%nat
  end.
Proof.
  unfold slice_to, slice_from. cbn [Z.leb Z.compare andb].
  destruct (8 <=? Z.of_nat (String.length cid)) eqn:E8.
  - apply Z.leb_le in E8.
    destruct ((0 <=? Z.of_nat (String.length cid) - 4)
              && (Z.of_nat (String.length cid) - 4 <=? Z.of_nat (String.length cid))) eqn:E4.
    + lia.
    + apply andb_false_iff in E4. destruct E4 as [E|E]; apply Z.leb_gt in E; lia.
  - apply Z.leb_gt in E8. lia.
Qed.

Lemma isPortAvailable_carries (port : string) (w w' : World) :
  carries w w' -> isPortAvailable port w' = isPortAvailable port w.
Proof. intros (_ & Hc & _). unfold isPortAvailable. now rewrite Hc. Qed.

(** How [SmartLogin] can end. *)
Lemma SmartLogin_from_spec (getenv : string -> string) (drive : string -> Drive)
    (ports : list string) :
  forall (i : nat) (w : World),
  match SmartLogin_from getenv drive i ports w with
  | Returns None w' =>
    exists port w0,
      In port ports /\ isPortAvailable port w = true /\ carries w w0 /\
      Login (smartConfig getenv port) (drive port) w0 = Some (None, w')
  | Returns (Some e) w' =>
    carries w w' /\
    (e = Errorf "all ports exhausted" \/
     (e = Errorf "authentication setup required" /\
      exists k port err w0,
        nth_error ports k = Some port /\ (i + k = length CommonPorts - 1)%nat /\
        isPortAvailable port w = true /\ carries w w0 /\
        Login (smartConfig getenv port) (drive port) w0 = Some (Some err, w')))
  | Panics w' =>
    w' = w /\ (String.length (getSmartClientID getenv) < 8)%nat /\
    exists port, In port ports /\ isPortAvailable port w = true
  | NoReturn => True
  end.
Proof.
  induction ports as [|port rest IH]; intros i w; cbn [SmartLogin_from].
  - split; [apply carries_refl|now left].
  - destruct (isPortAvailable port w) eqn:Ha; cbn [negb].
    + cbn [ClientID]. pose proof (printed_slices (getSmartClientID getenv)) as Hs.
      destruct (slice_to (getSmartClientID getenv) 8) as [a|];
        [destruct (slice_from (getSmartClientID getenv)
                     (Z.of_nat (String.length (getSmartClientID getenv)) - 4)) as [b|]|];
        [|split; [reflexivity|split; [exact Hs|exists port; split; [now left|exact Ha]]]..].
      fold (smartConfig getenv port).
      destruct (Login (smartConfig getenv port) (drive port) w)
        as [[[err|] w1]|] eqn:HL; [| |exact I].
      * pose proof (Login_carries _ _ _ _ _ HL) as Hc.
        destruct (i =? length CommonPorts - 1)%nat eqn:Ei.
        -- split; [exact Hc|]. right. split; [reflexivity|].
           exists 0%nat, port, err, w. apply Nat.eqb_eq in Ei.
           split; [reflexivity|]. split; [lia|]. split; [exact Ha|].
           split; [apply carries_refl|exact HL].
        -- specialize (IH (S i) w1).
           destruct (SmartLogin_from getenv drive (S i) rest w1) as [[e|] w2|w2|].
           ++ destruct IH as (Hc2 & Hcases). split; [exact (carries_trans _ _ _ Hc Hc2)|].
              destruct Hcases as [->|(-> & k & p & err' & w0 & Hk & Hik & Hav & Hc0 & HL')];
                [now left|right]. split; [reflexivity|].
              exists (S k), p, err', w0. split; [exact Hk|]. split; [lia|].
              split; [now rewrite <- (isPortAvailable_carries _ _ _ Hc)|].
              split; [exact (carries_trans _ _ _ Hc Hc0)|exact HL'].
           ++ destruct IH as (p & w0 & Hin & Hav & Hc0 & HL').
              exists p, w0. split; [now right|].
              split; [now rewrite <- (isPortAvailable_carries _ _ _ Hc)|].
              split; [exact (carries_trans _ _ _ Hc Hc0)|exact HL'].
           ++ destruct IH as (_ & Hlt & _). lia.
           ++ exact I.
      * exists port, w. split; [now left|]. split; [exact Ha|].
        split; [apply carries_refl|exact HL].
    + specialize (IH (S i) w).
      destruct (SmartLogin_from getenv drive (S i) rest w) as [[e|] w2|w2|].
      * destruct IH as (Hc2 & Hcases). split; [exact Hc2|].
        destruct Hcases as [->|(-> & k & p & err' & w0 & Hk & Hik & Hav & Hc0 & HL')];
          [now left|right]. split; [reflexivity|].
        exists (S k), p, err', w0. split; [exact Hk|]. split; [lia|]. auto.
      * destruct IH as (p & w0 & Hin & Hrest). exists p, w0. split; [now right|exact Hrest].
      * destruct IH as (-> & Hlt & p & Hin & Hav). split; [reflexivity|].
        split; [exact Hlt|]. exists p. split; [now right|exact Hav].
      * exact I.
Qed.

Lemma SmartLogin_from_busy (getenv : string -> string) (drive : string -> Drive)
    (ports : list string) (i : nat) (w : World) :
  (forall port, In port ports -> isPortAvailable port w = false) ->
  SmartLogin_from getenv drive i ports w
  = Returns (Some (Errorf "all ports exhausted")) w.
Proof.
  revert i. induction ports as [|port rest IH]; intros i Hb; cbn [SmartLogin_from].
  - reflexivity.
  - rewrite (Hb port) by now left. cbn [negb]. apply IH.
    intros p Hp. apply Hb. now right.
Qed.

Lemma SmartLogin_from_short_id (getenv : string -> string) (drive : string -> Drive)
    (ports : list string) (i : nat) (w : World) :
  (String.length (getSmartClientID getenv) < 8)%nat ->
  (exists port, In port ports /\ isPortAvailable port w = true) ->
  SmartLogin_from getenv drive i ports w = Panics w.
Proof.
  intros Hlt. revert i. induction ports as [|port rest IH]; intros i (p & Hin & Hav).
  - destruct Hin.
  - cbn [SmartLogin_from]. destruct (isPortAvailable port w) eqn:Ha; cbn [negb].
    + cbn [ClientID]. pose proof (printed_slices (getSmartClientID getenv)) as Hs.
      destruct (slice_to (getSmartClientID getenv) 8) as [a|];
        [destruct (slice_from (getSmartClientID getenv)
                     (Z.of_nat (String.length (getSmartClientID getenv)) - 4)) as [b|]|];
        try reflexivity. lia.
    + apply IH. destruct Hin as [->|Hin]; [congruence|]. now exists p.
Qed.

Lemma getSmartClientID_length (getenv : string -> string) :
  (String.length (getSmartClientID getenv) < 8)%nat <->
  (0 < String.length (getenv "SPOTIFY_CLIENT_ID") < 8)%nat.
Proof.
  unfold getSmartClientID.
  destruct (getenv "SPOTIFY_CLIENT_ID") as [|c r] eqn:E; cbn [String.eqb negb].
  - cbn. lia.
  - cbn [String.length]. lia.
Qed.

(** *** The commands *)

Lemma GetAuthenticatedClient_posts (config : Config) (w w1 : World) (token : Token) :
  loadToken w = (Ok token, w1) ->
  posts (snd (GetAuthenticatedClient config w))
  = posts w ++ (if needsRefresh token (now_of w1)
                then [refresh_form config (RefreshToken token)] else []).
Proof.
  intros Hl. destruct (loadToken_frame _ _ _ Hl) as (Hs & _).
  destruct (same_but_fs_fields _ _ Hs) as (_ & _ & _ & _ & _ & Hp & _).
  rewrite (GetAuthenticatedClient_loaded _ _ _ _ Hl).
  destruct (needsRefresh token (now_of w1)).
  - pose proof (refreshToken_posts config (RefreshToken token)
                  (add_log w1 refresh_notice)) as (P & _).
    destruct (refreshToken config (RefreshToken token) (add_log w1 refresh_notice))
      as [[refreshed|e] w3]; cbn [snd] in *.
    + destruct (saveToken refreshed w3) as [[u|e] w4] eqn:Hsv; cbn [snd];
        destruct (same_but_fs_fields _ _ (saveToken_same_but_fs _ _ _ _ Hsv))
          as (_ & _ & _ & _ & _ & Hp4 & _); cbn [posts add_log];
        rewrite Hp4, P; cbn [posts add_log]; now rewrite Hp.
    + rewrite P. cbn [posts add_log]. now rewrite Hp.
  - cbn [snd]. now rewrite Hp, app_nil_r.
Qed.

(** A command gets as far as [GetAuthenticatedClient] only with a token
    that [QuickCheck] accepts. *)
Lemma commandClient_cases (msg : string) (wrapped : bool) (scopes : list string)
    (getenv : string -> string) (w : World) :
  commandClient msg wrapped scopes getenv w =
    match loadToken w with
    | (Err _, w1) => (Err (Errorf msg), w1)
    | (Ok token, w1) =>
      if clock w + 1 * time.Minute <? time.unixNano (Expiry token) then
        match GetAuthenticatedClient
                (mkConfig (GetClientIDFromEnv getenv)
                   "http://127.0.0.1:8808/callback" "8808" scopes) w1 with
        | (Err err, w2) =>
          (Err (if wrapped then ErrWrap "authentication failed" err else err), w2)
        | r => r
        end
      else (Err (Errorf msg), w1)
    end.
Proof.
  unfold commandClient, QuickCheck.
  destruct (loadToken w) as [[token|e] w1] eqn:Hl; [|reflexivity].
  destruct (loadToken_frame _ _ _ Hl) as (Hs & _).
  destruct (same_but_fs_fields _ _ Hs) as (_ & _ & Hc & _).
  unfold time.After, time.Add, now_of. cbn [time.unixNano]. rewrite Hc.
  now destruct (clock w + 1 * time.Minute <? time.unixNano (Expiry token)).
Qed.

Lemma time_Sub_positive (t u : time.Time) (m : Z) :
  0 <= m < maxDuration -> time.unixNano u + m < time.unixNano t ->
  m < time_Sub t u.
Proof.
  unfold time_Sub, time.Before, maxDuration. intros Hm Hlt.
  destruct (time.unixNano u + time.wrap64 (time.unixNano t - time.unixNano u)
            =? time.unixNano t) eqn:E.
  - apply Z.eqb_eq in E. lia.
  - destruct (time.unixNano t <? time.unixNano u) eqn:Eb.
    + apply Z.ltb_lt in Eb. lia.
    + apply Z.eqb_neq in E.
      assert (Hbig : 2 ^ 63 <= time.unixNano t - time.unixNano u).
      { destruct (Z_lt_ge_dec (time.unixNano t - time.unixNano u) (2 ^ 63)) as [Hs|Hs];
          [|lia].
        exfalso. apply E. unfold time.wrap64.
        rewrite Z.mod_small by lia. lia. }
      lia.
Qed.

(** The state of an attempt is never empty. *)
Lemma generateState_nonempty (source : string) :
  (generateState source =? "")%string = false.
Proof.
  apply String.eqb_neq. intros E.
  assert (H : Z.of_nat (String.length (generateState source)) = 22).
  { unfold generateState. rewrite base64_facts.EncodeToString_length.
    now rewrite rand_Read_length. }
  rewrite E in H. discriminate H.
Qed.

(** The forms a step of [Login] posts. *)
Lemma Login_step_posts (a : Attempt) (s s' : LoginState) (ev : Event) :
  Login_step a s ev = Some s' ->
  exists codes,
    posts (world s') = posts (world s) ++ map (exchange_form a) codes.
Proof.
  destruct ev as [r|e| |c]; cbn [Login_step].
  - destruct (server s); try discriminate.
    pose proof (callback_posts a r (world s)) as P.
    destruct (callback a r (world s)) as [[reply sig] w1]. cbn [snd] in P.
    intros [= <-].
    match goal with |- context [deliver sig ?s0] =>
      destruct (deliver_state sig s0) as (Dw & _) end.
    rewrite Dw. cbn [world]. rewrite P.
    destruct (reaches_exchange a r).
    + now exists [FormValue r "code"].
    + now exists [].
  - destruct (server s); try discriminate.
    destruct (chan_send (errChan s) (errBlocked s) (ErrWrap "callback server error" e)).
    intros [= <-]. exists []. cbn. now rewrite app_nil_r.
  - intros [= <-]. exists []. cbn. now rewrite app_nil_r.
  - destruct (returned s); [discriminate|]. destruct c.
    + destruct (chan_recv (tokenChan s) (tokenBlocked s)) as [[[token tc] tb]|];
        [|discriminate].
      destruct (saveToken token (world s)) as [[[]|err] w1] eqn:Hsave;
        intros [= <-]; exists []; cbn;
        destruct (same_but_fs_fields _ _ (saveToken_same_but_fs _ _ _ _ Hsave))
          as (_ & _ & _ & _ & _ & Hp & _); now rewrite Hp, app_nil_r.
    + destruct (chan_recv (errChan s) (errBlocked s)) as [[[err ec] eb]|];
        [|discriminate].
      intros [= <-]. exists []. cbn. now rewrite app_nil_r.
    + destruct (ctxDone s); [|discriminate].
      intros [= <-]. exists []. cbn. now rewrite app_nil_r.
Qed.

Lemma Login_run_posts (a : Attempt) (evs : list Event) (s s' : LoginState) :
  Login_run a s evs = Some s' ->
  exists codes,
    posts (world s') = posts (world s) ++ map (exchange_form a) codes.
Proof.
  revert s. induction evs as [|ev evs IH]; intros s; cbn [Login_run].
  - intros [= <-]. exists []. cbn. now rewrite app_nil_r.
  - destruct (Login_step a s ev) as [s1|] eqn:Hs; [|discriminate].
    intros Hrun. destruct (Login_step_posts _ _ _ _ Hs) as (c1 & P1).
    destruct (IH _ Hrun) as (c2 & P2). exists (c1 ++ c2).
    now rewrite P2, P1, map_app, app_assoc.
Qed.

(** The first free port is the port [SmartLogin] uses. *)
Lemma SmartLogin_from_first (getenv : string -> string) (drive : string -> Drive)
    (busy : list string) (port : string) (rest : list string) (i : nat)
    (w w' : World) (r : option error) :
  (forall q, In q busy -> isPortAvailable q w = false) ->
  isPortAvailable port w = true ->
  (8 <= String.length (getSmartClientID getenv))%nat ->
  Login (smartConfig getenv port) (drive port) w = Some (r, w') ->
  SmartLogin_from getenv drive i (busy ++ port :: rest) w =
    match r with
    | None => Returns None w'
    | Some err =>
      if (i + length busy =? length CommonPorts - 1)%nat
      then Returns (Some (showFallbackHelp err)) w'
      else SmartLogin_from getenv drive (S (i + length busy)) rest w'
    end.
Proof.
  intros Hbusy Hav Hlen HL. revert i.
  induction busy as [|q busy IH]; intros i.
  - cbn [app length SmartLogin_from]. rewrite Hav. cbn [negb ClientID].
    pose proof (printed_slices (getSmartClientID getenv)) as Hs.
    destruct (slice_to (getSmartClientID getenv) 8) as [x|];
      [destruct (slice_from (getSmartClientID getenv)
                   (Z.of_nat (String.length (getSmartClientID getenv)) - 4)) as [y|]|];
      try lia.
    fold (smartConfig getenv port). rewrite HL, Nat.add_0_r.
    now destruct r.
  - cbn [app length SmartLogin_from]. rewrite (Hbusy q) by now left. cbn [negb].
    rewrite IH by (intros q' Hq'; apply Hbusy; now right).
    now rewrite Nat.add_succ_comm.
Qed.

(** * The claims *)

(** C1: a callback request whose [state] is not the state of the attempt
    is answered with status 400, the handler sends the error
    [invalid state parameter] on the error channel, and the world is left
    as it was: no form is posted to the token endpoint. *)
Theorem C1_state_mismatch_rejected (a : Attempt) (s s' : LoginState) (r : Request) :
  Login_step a s (EvRequest r) = Some s' ->
  FormValue r "state" <> at_state a ->
  replies s' = replies s ++ [HttpError "Invalid state parameter" StatusBadRequest] /\
  (errChan s', errBlocked s')
    = chan_send (errChan s) (errBlocked s) (Errorf "invalid state parameter") /\
  tokenChan s' = tokenChan s /\ tokenBlocked s' = tokenBlocked s /\
  world s' = world s /\ posts (world s') = posts (world s).
Proof.
  intros Hstep Hne. apply Login_step_request in Hstep. destruct Hstep as [_ ->].
  unfold callback. apply String.eqb_neq in Hne. rewrite Hne. cbn [negb fst snd].
  cbn [deliver]. cbn [errChan errBlocked].
  destruct (chan_send (errChan s) (errBlocked s) (Errorf "invalid state parameter"))
    as [buf blocked]. cbn. auto 10.
Qed.

(** C1 on a forged request, the first of a login. *)
Lemma C1_state_mismatch_witness :
  exists s',
    Login_step sample_attempt (Login_start fresh_world) (EvRequest forged_request) = Some s' /\
    replies s' = [HttpError "Invalid state parameter" StatusBadRequest] /\
    errChan s' = [Errorf "invalid state parameter"] /\
    posts (world s') = [].
Proof.
  eexists. split; [reflexivity|].
  destruct (C1_state_mismatch_rejected sample_attempt (Login_start fresh_world) _
              forged_request eq_refl) as (H1 & H2 & H3 & H4 & H5 & H6).
  - discriminate.
  - split; [exact H1|]. split; [|exact H6].
    apply (f_equal fst) in H2. exact H2.
Defined.

(** C2, as stated, fails: after a first request has been served and its
    token sent, a second request with the state of the attempt and a code
    is served like the first, with a second token exchange and a second
    send on the token channel. *)
Lemma C2_second_request_counterexample :
  sends after_first_request = 1%nat /\
  length (posts (world after_first_request)) = 1%nat /\
  exists s2,
    Login_step sample_attempt after_first_request (EvRequest (good_request "code-2"))
      = Some s2 /\
    length (posts (world s2)) = 2%nat /\ sends s2 = 2%nat /\
    length (tokenChan s2 ++ tokenBlocked s2) = 2%nat.
Proof.
  split; [reflexivity|]. split; [reflexivity|].
  eexists. split; [reflexivity|]. repeat split.
Qed.

(** C2, amended: the handler keeps no record of earlier requests.  Every
    request served while the server is up, whatever was served or signalled
    before, is answered and ends with exactly one send, and posts a token
    exchange exactly when its state matches, it carries no error and it
    carries a code; once [Login] has shut the server down no request is
    served. *)
Theorem C2_every_request_is_handled (a : Attempt) (s : LoginState) (r : Request) :
  (server s = Serving ->
   exists s',
     Login_step a s (EvRequest r) = Some s' /\
     sends s' = S (sends s) /\
     length (replies s') = S (length (replies s)) /\
     posts (world s')
     = posts (world s) ++ (if reaches_exchange a r
                           then [exchange_form a (FormValue r "code")] else [])) /\
  (server s <> Serving -> Login_step a s (EvRequest r) = None).
Proof.
  split.
  - intros Hs. cbn [Login_step]. rewrite Hs.
    pose proof (callback_posts a r (world s)) as P.
    destruct (callback a r (world s)) as [[reply sig] w']. cbn [snd] in P.
    eexists. split; [reflexivity|].
    destruct (deliver_fields sig
                (mkLoginState w' (tokenChan s) (tokenBlocked s) (errChan s)
                   (errBlocked s) (sends s) (replies s ++ [reply]) Serving
                   (ctxDone s) (returned s))) as (Hw & Hr & Hn & _).
    rewrite Hw, Hr, Hn. cbn [world replies sends].
    split; [reflexivity|]. split; [|exact P].
    rewrite length_app. cbn. lia.
  - intros Hs. cbn [Login_step]. destruct (server s); [contradiction | reflexivity..].
Qed.

(** C2 on a second good request, after the first has sent its token. *)
Lemma C2_every_request_is_handled_witness :
  exists s',
    Login_step sample_attempt after_first_request (EvRequest (good_request "code-2"))
      = Some s' /\
    sends s' = 2%nat /\
    posts (world s')
    = posts (world after_first_request)
      ++ [exchange_form sample_attempt "code-2"].
Proof.
  destruct (proj1 (C2_every_request_is_handled sample_attempt after_first_request
                     (good_request "code-2")) eq_refl) as (s' & H1 & H2 & _ & H4).
  exists s'. split; [exact H1|]. split; [exact H2 | exact H4].
Defined.

(** C3: [GetAuthenticatedClient] posts a refresh to the token endpoint
    exactly when the expiry of the loaded token is before the current time
    plus five minutes (it does for a token that expires in 4 minutes, it
    does not for one that expires in 10 minutes, and it does not when no
    token loads); when the refresh succeeds the caller gets a client bound
    to the refreshed token, also when [saveToken] fails, and that failure
    is only logged. *)
Theorem C3_refresh_within_five_minutes (config : Config) (w : World) :
  (forall e w1, loadToken w = (Err e, w1) ->
     posts (snd (GetAuthenticatedClient config w)) = posts w) /\
  (forall token w1,
     loadToken w = (Ok token, w1) ->
     needsRefresh token (now_of w1)
       = (time.unixNano (Expiry token) <? clock w + 5 * time.Minute) /\
     posts (snd (GetAuthenticatedClient config w))
       = posts w ++ (if needsRefresh token (now_of w1)
                     then [refresh_form config (RefreshToken token)] else []) /\
     (time.unixNano (Expiry token) = clock w + 4 * time.Minute ->
      needsRefresh token (now_of w1) = true) /\
     (time.unixNano (Expiry token) = clock w + 10 * time.Minute ->
      needsRefresh token (now_of w1) = false) /\
     (needsRefresh token (now_of w1) = false ->
      fst (GetAuthenticatedClient config w) = Ok (client_of config token)) /\
     (needsRefresh token (now_of w1) = true ->
      forall refreshed w3,
        refreshToken config (RefreshToken token) (add_log w1 refresh_notice)
          = (Ok refreshed, w3) ->
        fst (GetAuthenticatedClient config w) = Ok (client_of config refreshed) /\
        forall e w4,
          saveToken refreshed w3 = (Err e, w4) ->
          logged (snd (GetAuthenticatedClient config w))
          = logged w ++ [refresh_notice;
                         LogWarning "Warning: failed to save refreshed token" e])).
Proof.
  split.
  - intros e w1 Hl. rewrite (GetAuthenticatedClient_not_loaded _ _ _ _ Hl).
    cbn [snd]. destruct (loadToken_frame _ _ _ Hl) as (Hs & _).
    now destruct (same_but_fs_fields _ _ Hs) as (_ & _ & _ & _ & _ & Hp & _).
  - intros token w1 Hl.
    destruct (loadToken_frame _ _ _ Hl) as (Hs & _).
    destruct (same_but_fs_fields _ _ Hs) as (_ & _ & Hc & _ & _ & Hp & Hlog & _).
    assert (Hn : needsRefresh token (now_of w1)
                 = (time.unixNano (Expiry token) <? clock w + 5 * time.Minute)).
    { unfold needsRefresh, time.Before, time.Add, now_of. cbn [time.unixNano].
      now rewrite Hc. }
    rewrite (GetAuthenticatedClient_loaded _ _ _ _ Hl).
    split; [exact Hn|]. split; [|split; [|split; [|split]]].
    + destruct (needsRefresh token (now_of w1)).
      * pose proof (refreshToken_posts config (RefreshToken token)
                      (add_log w1 refresh_notice)) as (P & _).
        destruct (refreshToken config (RefreshToken token) (add_log w1 refresh_notice))
          as [[refreshed|e] w3]; cbn [snd] in *.
        -- destruct (saveToken refreshed w3) as [[u|e] w4] eqn:Hsv; cbn [snd];
             destruct (same_but_fs_fields _ _ (saveToken_same_but_fs _ _ _ _ Hsv))
               as (_ & _ & _ & _ & _ & Hp4 & _); cbn [posts add_log];
             rewrite Hp4, P; cbn [posts add_log]; now rewrite Hp.
        -- rewrite P. cbn [posts add_log]. now rewrite Hp.
      * cbn [snd]. now rewrite Hp, app_nil_r.
    + intros He. rewrite Hn, He. apply Z.ltb_lt. unfold time.Minute, time.Second. lia.
    + intros He. rewrite Hn, He. apply Z.ltb_ge. unfold time.Minute, time.Second. lia.
    + intros ->. reflexivity.
    + intros -> refreshed w3 Hr. rewrite Hr.
      split; [destruct (saveToken refreshed w3) as [[u|e] w4]; reflexivity|].
      intros e w4 Hsv. rewrite Hsv. cbn [snd logged add_log].
      destruct (same_but_fs_fields _ _ (saveToken_same_but_fs _ _ _ _ Hsv))
        as (_ & _ & _ & _ & _ & _ & Hl4 & _).
      pose proof (refreshToken_posts config (RefreshToken token)
                    (add_log w1 refresh_notice)) as (_ & _ & L & _).
      rewrite Hr in L. cbn [snd] in L.
      rewrite Hl4, L. cbn [logged add_log]. rewrite Hlog, <- app_assoc. reflexivity.
Qed.

(** C3 on a token that expires in 4 minutes in a file that cannot be
    written, and on a token that expires in 10 minutes. *)
Lemma C3_refresh_witness :
  posts (snd (GetAuthenticatedClient DefaultConfig
                (readonly_world (4 * time.Minute) granting_endpoint)))
    = [refresh_form DefaultConfig "old-refresh"] /\
  posts (snd (GetAuthenticatedClient DefaultConfig
                (world_with_token (10 * time.Minute)))) = [] /\
  fst (GetAuthenticatedClient DefaultConfig
         (readonly_world (4 * time.Minute) granting_endpoint))
    = Ok (client_of DefaultConfig refreshed_sample) /\
  logged (snd (GetAuthenticatedClient DefaultConfig
                 (readonly_world (4 * time.Minute) granting_endpoint)))
    = [refresh_notice;
       LogWarning "Warning: failed to save refreshed token"
         (ErrWrap "failed to write token file" (ErrOS EACCES))].
Proof.
  assert (Hl4 : loadToken (readonly_world (4 * time.Minute) granting_endpoint)
                = (Ok (token_expiring_in (4 * time.Minute)),
                   readonly_world (4 * time.Minute) granting_endpoint))
    by (vm_compute; reflexivity).
  assert (Hl10 : loadToken (world_with_token (10 * time.Minute))
                 = (Ok (token_expiring_in (10 * time.Minute)),
                    world_with_token (10 * time.Minute)))
    by (vm_compute; reflexivity).
  destruct (proj2 (C3_refresh_within_five_minutes DefaultConfig _) _ _ Hl4)
    as (_ & Hp4 & H4 & _ & _ & Hr).
  destruct (proj2 (C3_refresh_within_five_minutes DefaultConfig _) _ _ Hl10)
    as (_ & Hp10 & _ & H10 & _ & _).
  assert (N4 : needsRefresh (token_expiring_in (4 * time.Minute))
                 (now_of (readonly_world (4 * time.Minute) granting_endpoint)) = true)
    by (apply H4; vm_compute; reflexivity).
  assert (N10 : needsRefresh (token_expiring_in (10 * time.Minute))
                  (now_of (world_with_token (10 * time.Minute))) = false)
    by (apply H10; vm_compute; reflexivity).
  rewrite N4 in Hp4. rewrite N10 in Hp10.
  split; [exact Hp4|]. split; [exact Hp10|].
  assert (Hrt : refreshToken DefaultConfig
              (RefreshToken (token_expiring_in (4 * time.Minute)))
              (add_log (readonly_world (4 * time.Minute) granting_endpoint)
                 refresh_notice)
            = (Ok refreshed_sample,
               add_post (add_log (readonly_world (4 * time.Minute) granting_endpoint)
                           refresh_notice)
                 (refresh_form DefaultConfig "old-refresh") (2 * time.Second)))
    by (vm_compute; reflexivity).
  destruct (Hr N4 _ _ Hrt) as (Hc & Hlog).
  split; [exact Hc|].
  apply Hlog with (w4 := add_post (add_log (readonly_world (4 * time.Minute) granting_endpoint)
                           refresh_notice)
                 (refresh_form DefaultConfig "old-refresh") (2 * time.Second)).
  vm_compute; reflexivity.
Defined.

(** C4: when the refresh fails, [GetAuthenticatedClient] returns that
    failure as an error, and the file system is the one [loadToken] left:
    every file, and the token file in particular, is as it was before the
    call. *)
Theorem C4_refresh_failure_keeps_token_file (config : Config) (w w1 w3 : World)
    (token : Token) (e : error) :
  loadToken w = (Ok token, w1) ->
  needsRefresh token (now_of w1) = true ->
  refreshToken config (RefreshToken token) (add_log w1 refresh_notice) = (Err e, w3) ->
  GetAuthenticatedClient config w = (Err (ErrWrap "failed to refresh token" e), w3) /\
  fs w3 = fs w1 /\
  (forall q perm data,
     fs w3 !! q = Some (File perm data) <-> fs w !! q = Some (File perm data)) /\
  (exists h perm data,
     home w = Some h /\
     fs w !! tokenPathOf h = Some (File perm data) /\
     fs w3 !! tokenPathOf h = Some (File perm data)).
Proof.
  intros Hl Hn Hr.
  rewrite (GetAuthenticatedClient_loaded _ _ _ _ Hl), Hn, Hr.
  split; [reflexivity|].
  pose proof (refreshToken_posts config (RefreshToken token)
                (add_log w1 refresh_notice)) as (_ & Hfs & _).
  rewrite Hr in Hfs. cbn [snd fs add_log] in Hfs.
  split; [exact Hfs|].
  destruct (loadToken_frame _ _ _ Hl) as (Hs & Hk & Hnew).
  assert (Hfiles : forall q perm data,
            fs w3 !! q = Some (File perm data) <-> fs w !! q = Some (File perm data)).
  { intros q perm data. rewrite Hfs. split.
    - intros Hq. destruct (fs w !! q) as [nd|] eqn:Hw.
      + rewrite (Hk _ _ Hw) in Hq. exact Hq.
      + destruct (Hnew _ _ Hw Hq) as (h & _ & Hd & _). discriminate Hd.
    - apply Hk. }
  split; [exact Hfiles|].
  destruct (loadToken_ok _ _ _ Hl) as (h & m & data & ts & Hh & _ & Hf & _).
  exists h, m, data. split; [exact Hh|].
  rewrite <- Hfs in Hf. split; [apply Hfiles; exact Hf | exact Hf].
Qed.

(** C4 on an endpoint that refuses the refresh. *)
Lemma C4_refresh_failure_witness :
  fst (GetAuthenticatedClient DefaultConfig refused_world)
    = Err (ErrWrap "failed to refresh token"
             (ErrorfInt "refresh request failed with status" StatusBadRequest)) /\
  fs (snd (GetAuthenticatedClient DefaultConfig refused_world)) = fs refused_world.
Proof.
  assert (Hl : loadToken refused_world
               = (Ok (token_expiring_in (4 * time.Minute)), refused_world))
    by (vm_compute; reflexivity).
  destruct (C4_refresh_failure_keeps_token_file DefaultConfig refused_world
              refused_world
              (add_post (add_log refused_world refresh_notice)
                 (refresh_form DefaultConfig "old-refresh") (2 * time.Second))
              (token_expiring_in (4 * time.Minute))
              (ErrorfInt "refresh request failed with status" StatusBadRequest)
              Hl) as (Hg & Hfs & _).
  - vm_compute; reflexivity.
  - vm_compute; reflexivity.
  - rewrite Hg. split; [reflexivity | exact Hfs].
Defined.

(** C5: when the context is done and neither channel holds a value, the
    only case the [select] of [Login] can take is the cancellation: the
    server is shut down, [Login] returns the error
    [authentication cancelled], and the world, with its token file, is as
    it was.  Whatever case a [select] takes, the server is shut down and
    [Login] returns. *)
Theorem C5_cancellation_shuts_down (a : Attempt) (s : LoginState) :
  returned s = None -> ctxDone s = true -> tokenChan s = [] -> errChan s = [] ->
  (exists s', Login_step a s (EvSelect CaseDone) = Some s') /\
  (forall c s', Login_step a s (EvSelect c) = Some s' ->
     c = CaseDone /\ server s' = ShutDown /\
     returned s' = Some (Some (Errorf "authentication cancelled")) /\
     world s' = world s) /\
  (forall s0 c s', Login_step a s0 (EvSelect c) = Some s' ->
     server s' = ShutDown /\ exists err, returned s' = Some err).
Proof.
  intros Hret Hdone Htok Herr. split; [|split].
  - cbn [Login_step]. rewrite Hret, Hdone. eauto.
  - intros c s'. cbn [Login_step]. rewrite Hret, Hdone, Htok, Herr.
    destruct c; cbn [chan_recv]; try discriminate.
    intros [= <-]. cbn. auto.
  - intros s0 c s'. cbn [Login_step].
    destruct (returned s0); [discriminate|].
    destruct c.
    + destruct (chan_recv (tokenChan s0) (tokenBlocked s0)) as [[[t tc] tb]|];
        [|discriminate].
      destruct (saveToken t (world s0)) as [[u|e] w']; intros [= <-]; cbn; eauto.
    + destruct (chan_recv (errChan s0) (errBlocked s0)) as [[[e ec] eb]|];
        [|discriminate].
      intros [= <-]; cbn; eauto.
    + destruct (ctxDone s0); [|discriminate]. intros [= <-]; cbn; eauto.
Qed.

(** C5 on a login cancelled before any request. *)
Lemma C5_cancellation_witness :
  exists s',
    Login_step sample_attempt cancelled_login (EvSelect CaseDone) = Some s' /\
    server s' = ShutDown /\
    returned s' = Some (Some (Errorf "authentication cancelled")) /\
    fs (world s') = fresh_fs.
Proof.
  destruct (C5_cancellation_shuts_down sample_attempt cancelled_login
              eq_refl eq_refl eq_refl eq_refl) as ((s' & Hs) & Hall & _).
  exists s'. split; [exact Hs|].
  destruct (Hall _ _ Hs) as (_ & H1 & H2 & H3).
  split; [exact H1|]. split; [exact H2|]. rewrite H3. reflexivity.
Defined.

(** C6, as stated, fails for a token that is not text: the byte [0xFF] in
    the access token is written as the escape of U+FFFD, and read back as
    the three bytes of that character. *)
Lemma C6_binary_token_counterexample :
  exists w1 token',
    saveToken binary_token fresh_world = (Ok tt, w1) /\
    loadToken w1 = (Ok token', w1) /\
    AccessToken binary_token = String (byte_of 255) EmptyString /\
    AccessToken token'
      = String (byte_of 239) (String (byte_of 191) (String (byte_of 189) EmptyString)) /\
    token' <> binary_token.
Proof.
  eexists _, _. split; [vm_compute; reflexivity|].
  split; [vm_compute; reflexivity|].
  split; [reflexivity|]. split; [reflexivity|]. discriminate.
Qed.

(** C6, amended: for a token whose three strings are valid UTF-8 and whose
    expiry has a zone offset of whole minutes, after a [saveToken] that
    succeeds the token file holds the token: [loadToken] returns a token
    equal in all four fields whenever the file can be read, and fails
    otherwise.  A token file that [saveToken] creates has mode 0600 less
    the bits of the umask: no bit of group or others, and 0600 itself when
    the umask clears none of these two bits. *)
Theorem C6_save_load_round_trip (token : Token) (w w1 : World) :
  utf8.ValidString (AccessToken token) = true ->
  utf8.ValidString (RefreshToken token) = true ->
  utf8.ValidString (TokenType token) = true ->
  time.zoneOffset (Expiry token) mod 60 = 0 ->
  saveToken token w = (Ok tt, w1) ->
  (forall token' w2, loadToken w1 = (Ok token', w2) -> token' = token) /\
  exists h perm data,
    home w = Some h /\
    fs w1 !! tokenPathOf h = Some (File perm data) /\
    (can_read perm = true -> loadToken w1 = (Ok token, w1)) /\
    (fs w !! tokenPathOf h = None ->
     perm = Z.ldiff mode_0600 (umask w) /\ Z.land perm 63 = 0 /\
     (Z.land (umask w) mode_0600 = 0 -> perm = mode_0600)).
Proof.
  intros Va Vr Vt Hz Hsave.
  destruct (saveToken_ok _ _ _ Hsave)
    as (h & wa & md & data & perm & Hh & Hg & Hd & Hm & -> & Hperm).
  destruct (getTokenPath_frame _ _ _ Hg) as (Hs & Hk & Hnew).
  destruct (same_but_fs_fields _ _ Hs) as (Hha & _).
  set (w1 := set_fs wa (<[tokenPathOf h := File perm data]> (fs wa))).
  assert (Hh1 : home w1 = Some h) by (unfold w1; cbn; congruence).
  assert (Hd1 : fs w1 !! configDirOf h = Some (Dir md)).
  { unfold w1. cbn [fs set_fs]. rewrite lookup_insert_ne; [exact Hd|].
    apply tokenPath_not_configDir. }
  assert (Hf1 : fs w1 !! tokenPathOf h = Some (File perm data)).
  { unfold w1. cbn [fs set_fs]. apply lookup_insert_eq. }
  assert (Hu : tokenjson.Unmarshal data zeroTokenStore = Some (store_of token)).
  { apply (tokenjson_facts.Unmarshal_MarshalIndent _ _ _ Hm); assumption. }
  assert (Hload : loadToken w1
                  = if can_read perm then (Ok token, w1)
                    else (Err (ErrWrap "failed to read token file" (ErrOS EACCES)), w1)).
  { unfold loadToken, bindM. rewrite (getTokenPath_present _ _ _ Hh1 Hd1).
    unfold os_ReadFile. rewrite tokenPath_lookup, Hf1.
    destruct (can_read perm); [|reflexivity].
    rewrite Hu. unfold ret. now destruct token. }
  split.
  - intros token' w2. rewrite Hload. destruct (can_read perm); [|discriminate].
    now intros [= <- _].
  - exists h, perm, data. split; [exact Hh|]. split; [exact Hf1|]. split.
    + intros Hr. now rewrite Hload, Hr.
    + intros Hnone.
      assert (Hnone' : fs wa !! tokenPathOf h = None).
      { destruct (fs wa !! tokenPathOf h) as [nd|] eqn:Hfa; [|reflexivity].
        destruct (Hnew _ _ Hnone Hfa) as (h' & Hh' & _ & Hpre).
        assert (h' = h) by congruence. subst h'.
        apply prefix_length in Hpre. unfold tokenPathOf in Hpre.
        rewrite length_app in Hpre. cbn in Hpre. lia. }
      rewrite Hnone' in Hperm. subst perm.
      split; [reflexivity|]. split; [apply mode_0600_owner_only|].
      apply mode_0600_kept.
Qed.

(** C6 on a token saved in a home directory without a token file, under
    the umask 022. *)
Lemma C6_save_load_witness :
  loadToken (world_with_token (10 * time.Minute))
    = (Ok (token_expiring_in (10 * time.Minute)), world_with_token (10 * time.Minute)) /\
  exists data,
    fs (world_with_token (10 * time.Minute)) !! tokenPathOf sample_home
      = Some (File mode_0600 data).
Proof.
  destruct (C6_save_load_round_trip (token_expiring_in (10 * time.Minute))
              fresh_world (world_with_token (10 * time.Minute)))
    as (_ & h & perm & data & Hh & Hf & Hr & Hp); try (vm_compute; reflexivity).
  injection Hh as <-.
  destruct (Hp ltac:(vm_compute; reflexivity)) as (_ & _ & Hm).
  assert (E : perm = mode_0600) by (apply Hm; vm_compute; reflexivity).
  subst perm. split; [apply Hr; reflexivity | exists data; exact Hf].
Defined.

(** C7: [QuickCheck] is true exactly when a token loads and its expiry is
    more than one minute after the current time; so it is false for a
    token that has expired or expires in 30 seconds, and true for one that
    expires in 10 minutes. *)
Theorem C7_QuickCheck_one_minute_guard (w : World) :
  (fst (QuickCheck w) = true <->
   exists token w',
     loadToken w = (Ok token, w') /\
     clock w + 1 * time.Minute < time.unixNano (Expiry token)) /\
  (forall token w' d,
     loadToken w = (Ok token, w') ->
     time.unixNano (Expiry token) = clock w + d ->
     (d <= 0 -> fst (QuickCheck w) = false) /\
     (d = 30 * time.Second -> fst (QuickCheck w) = false) /\
     (d = 10 * time.Minute -> fst (QuickCheck w) = true)).
Proof.
  assert (Hq : forall token w', loadToken w = (Ok token, w') ->
            fst (QuickCheck w)
            = (clock w + 1 * time.Minute <? time.unixNano (Expiry token))).
  { intros token w' Hl. unfold QuickCheck. rewrite Hl. cbn [fst].
    destruct (loadToken_frame _ _ _ Hl) as (Hs & _).
    destruct (same_but_fs_fields _ _ Hs) as (_ & _ & Hc & _).
    unfold time.After, time.Add, now_of. cbn [time.unixNano]. now rewrite Hc. }
  split; [split|].
  - intros H.
    destruct (loadToken w) as [[token|e] w'] eqn:Hl.
    + exists token, w'. split; [reflexivity|].
      rewrite (Hq _ _ eq_refl) in H. now apply Z.ltb_lt.
    + unfold QuickCheck in H. rewrite Hl in H. discriminate H.
  - intros (token & w' & Hl & Hlt). rewrite (Hq _ _ Hl). now apply Z.ltb_lt.
  - intros token w' d Hl Hd. rewrite (Hq _ _ Hl), Hd.
    unfold time.Minute, time.Second.
    split; [|split]; intros Hdd.
    + apply Z.ltb_ge. lia.
    + apply Z.ltb_ge. lia.
    + apply Z.ltb_lt. lia.
Qed.

(** C7 on tokens that expire in 30 seconds, in 10 minutes, and a second ago. *)
Lemma C7_QuickCheck_witness :
  fst (QuickCheck (world_with_token (30 * time.Second))) = false /\
  fst (QuickCheck (world_with_token (10 * time.Minute))) = true /\
  fst (QuickCheck (world_with_token (- 1 * time.Second))) = false.
Proof.
  split; [|split].
  - refine (proj1 (proj2 (proj2 (C7_QuickCheck_one_minute_guard _)
        (token_expiring_in (30 * time.Second)) (world_with_token (30 * time.Second))
        (30 * time.Second) _ _)) eq_refl); vm_compute; reflexivity.
  - refine (proj2 (proj2 (proj2 (C7_QuickCheck_one_minute_guard _)
        (token_expiring_in (10 * time.Minute)) (world_with_token (10 * time.Minute))
        (10 * time.Minute) _ _)) eq_refl); vm_compute; reflexivity.
  - refine (proj1 (proj2 (C7_QuickCheck_one_minute_guard _)
        (token_expiring_in (- 1 * time.Second)) (world_with_token (- 1 * time.Second))
        (- 1 * time.Second) _ _) _); vm_compute; try reflexivity. discriminate.
Defined.

(** C8, as stated, fails: in a home directory without a configuration
    directory, [QuickCheck] creates [.config] and [.config/moodify]. *)
Lemma C8_QuickCheck_creates_directories :
  fs fresh_world !! configDirOf sample_home = None /\
  fs (snd (QuickCheck fresh_world)) !! configDirOf sample_home
    = Some (Dir mode_0755) /\
  fs (snd (QuickCheck fresh_world)) !! (sample_home ++ [".config"])
    = Some (Dir mode_0755) /\
  fs (snd (QuickCheck fresh_world)) <> fs fresh_world.
Proof.
  assert (H : fs (snd (QuickCheck fresh_world)) !! configDirOf sample_home
              = Some (Dir mode_0755)) by (vm_compute; reflexivity).
  split; [vm_compute; reflexivity|]. split; [exact H|].
  split; [vm_compute; reflexivity|].
  intros E. rewrite E in H. vm_compute in H. discriminate H.
Qed.

(** C8, amended: [QuickCheck] posts nothing to the token endpoint, writes
    no log line, and creates, changes and removes no file; it changes and
    removes no directory, and the only nodes it may create are the
    configuration directory and the directories on the way to it, which
    [getTokenPath] makes when they are missing. *)
Theorem C8_QuickCheck_frame (w : World) :
  posts (snd (QuickCheck w)) = posts w /\
  logged (snd (QuickCheck w)) = logged w /\
  clock (snd (QuickCheck w)) = clock w /\
  (forall q nd, fs w !! q = Some nd -> fs (snd (QuickCheck w)) !! q = Some nd) /\
  (forall q perm data,
     fs (snd (QuickCheck w)) !! q = Some (File perm data) ->
     fs w !! q = Some (File perm data)) /\
  (forall q nd,
     fs w !! q = None -> fs (snd (QuickCheck w)) !! q = Some nd ->
     exists h, home w = Some h /\ nd = Dir (Z.ldiff mode_0755 (umask w)) /\
               q `prefix_of` configDirOf h).
Proof.
  rewrite QuickCheck_world.
  destruct (loadToken w) as [r w'] eqn:Hl. cbn [snd].
  destruct (loadToken_frame _ _ _ Hl) as (Hs & Hk & Hn).
  destruct (same_but_fs_fields _ _ Hs) as (_ & _ & Hc & _ & _ & Hp & Hlog & _).
  split; [exact Hp|]. split; [exact Hlog|]. split; [exact Hc|].
  split; [exact Hk|]. split; [|exact Hn].
  intros q perm data Hq. destruct (fs w !! q) as [nd|] eqn:Hw.
  - rewrite (Hk _ _ Hw) in Hq. exact Hq.
  - destruct (Hn _ _ Hw Hq) as (h & _ & Hd & _). discriminate Hd.
Qed.

(** C8 on a home directory without a configuration directory. *)
Lemma C8_QuickCheck_frame_witness :
  posts (snd (QuickCheck fresh_world)) = [] /\
  fs (snd (QuickCheck fresh_world)) !! sample_home = Some (Dir mode_0755) /\
  exists h,
    home fresh_world = Some h /\
    Dir mode_0755 = Dir (Z.ldiff mode_0755 (umask fresh_world)) /\
    configDirOf sample_home `prefix_of` configDirOf h.
Proof.
  destruct (C8_QuickCheck_frame fresh_world) as (Hp & _ & _ & Hk & _ & Hn).
  split; [exact Hp|]. split.
  - apply Hk. vm_compute; reflexivity.
  - apply (Hn (configDirOf sample_home) (Dir mode_0755));
      vm_compute; reflexivity.
Defined.

(** C9, as stated, fails: the address of the callback server and the
    address of the probe, for the default port, have an empty host, so the
    listener is on all the interfaces of the machine, not on the loopback
    interface alone. *)
Lemma C9_loopback_counterexample :
  SplitHostPort (server_Addr DefaultConfig) = Some (EmptyString, "8808") /\
  listensOnLoopbackOnly (server_Addr DefaultConfig) = false /\
  listensOnAllInterfaces (server_Addr DefaultConfig) = true /\
  listensOnLoopbackOnly (probe_Addr DefaultPort) = false /\
  listensOnAllInterfaces (probe_Addr DefaultPort) = true.
Proof. repeat split. Qed.

(** C9, amended: the callback server and the probe of [isPortAvailable]
    listen on the address made of a colon and the port, whose host is
    empty: never on the loopback interface alone, and, for a port without a
    colon (as those of [CommonPorts]), on all interfaces.  Only the
    redirect URI names the loopback host. *)
Theorem C9_listens_on_all_interfaces (config : Config) (port : string) :
  listensOnLoopbackOnly (server_Addr config) = false /\
  listensOnLoopbackOnly (probe_Addr port) = false /\
  (hasColon (Port config) = false ->
   SplitHostPort (server_Addr config) = Some (EmptyString, Port config) /\
   listensOnAllInterfaces (server_Addr config) = true) /\
  (hasColon port = false ->
   SplitHostPort (probe_Addr port) = Some (EmptyString, port) /\
   listensOnAllInterfaces (probe_Addr port) = true) /\
  Forall (fun p => listensOnAllInterfaces (probe_Addr p) = true) CommonPorts /\
  SplitHostPort "127.0.0.1:8808" = Some ("127.0.0.1", "8808").
Proof.
  unfold listensOnLoopbackOnly, listensOnAllInterfaces, server_Addr, probe_Addr.
  rewrite !SplitHostPort_colon_port.
  split; [destruct (hasColon (Port config)); reflexivity|].
  split; [destruct (hasColon port); reflexivity|].
  split; [intros ->; now split|].
  split; [intros ->; now split|].
  split; [|reflexivity].
  repeat constructor.
Qed.

(** C9 on the default configuration and the port 8080. *)
Lemma C9_listens_on_all_interfaces_witness :
  SplitHostPort (server_Addr DefaultConfig) = Some (EmptyString, DefaultPort) /\
  listensOnAllInterfaces (probe_Addr "8080") = true.
Proof.
  destruct (C9_listens_on_all_interfaces DefaultConfig "8080")
    as (_ & _ & Hs & Hp & _).
  split; [exact (proj1 (Hs eq_refl)) | exact (proj2 (Hp eq_refl))].
Defined.

(** C10: when the answer to a refresh carries no refresh token, the token
    [refreshToken] returns keeps the refresh token it was called with. *)
Theorem C10_refresh_token_retained (config : Config) (refresh : string)
    (w : World) (resp : tokenResp) (elapsed : Z) :
  endpoint w (length (posts w)) (refresh_form config refresh)
    = (PostResponse StatusOK (Some resp), elapsed) ->
  tr_RefreshToken resp = EmptyString ->
  exists token w',
    refreshToken config refresh w = (Ok token, w') /\
    RefreshToken token = refresh /\
    AccessToken token = tr_AccessToken resp.
Proof.
  intros H Hempty. rewrite (refreshToken_ok _ _ _ _ _ H).
  eexists _, _. split; [reflexivity|]. rewrite Hempty. now cbn.
Qed.

(** C10 on an endpoint that answers without a refresh token. *)
Lemma C10_refresh_token_retained_witness :
  exists token w',
    refreshToken DefaultConfig "old-refresh" fresh_world = (Ok token, w') /\
    RefreshToken token = "old-refresh" /\
    AccessToken token = "new-access".
Proof.
  exact (C10_refresh_token_retained DefaultConfig "old-refresh" fresh_world
           _ _ eq_refl eq_refl).
Defined.

(** * Further properties *)

(** X1: a second [loadToken] gives the result of the first and changes
    nothing, and so does a second [QuickCheck]: the directories a call
    creates are created by the first call. *)
Theorem X1_loadToken_twice (w : World) :
  loadToken (snd (loadToken w)) = loadToken w /\
  QuickCheck (snd (QuickCheck w)) = QuickCheck w.
Proof.
  assert (H : loadToken (snd (loadToken w)) = loadToken w).
  { destruct (loadToken w) as [r w1] eqn:Hl. cbn [snd].
    exact (loadToken_frame_world _ _ _ Hl). }
  split; [exact H|].
  rewrite QuickCheck_world. unfold QuickCheck. rewrite H.
  destruct (loadToken w) as [[token|e] w1] eqn:Hl; [|reflexivity].
  destruct (loadToken_frame _ _ _ Hl) as (Hs & _).
  reflexivity.
Qed.

(** X2: after a [Logout] that succeeds nobody is logged in: [loadToken]
    fails with "no token found, please run login first", [QuickCheck] is
    false and [GetAuthenticatedClient] fails with the error of
    [loadToken]; none of the three changes the world. *)
Theorem X2_Logout_then_not_authenticated (w w1 : World) :
  Logout w = (Ok tt, w1) ->
  loadToken w1 = (Err (Errorf "no token found, please run login first"), w1) /\
  QuickCheck w1 = (false, w1) /\
  forall config,
    GetAuthenticatedClient config w1
    = (Err (Errorf "no token found, please run login first"), w1).
Proof.
  rewrite Logout_deleteToken. intros H.
  destruct (deleteToken_ok _ _ H) as (h & md & wa & _ & Hh & _ & _ & _ & Hd & Hf).
  assert (Hl : loadToken w1
               = (Err (Errorf "no token found, please run login first"), w1)).
  { unfold loadToken, bindM. rewrite (getTokenPath_present _ _ _ Hh Hd).
    unfold os_ReadFile. now rewrite tokenPath_lookup, Hf. }
  split; [exact Hl|]. split.
  - unfold QuickCheck. now rewrite Hl.
  - intros config. exact (GetAuthenticatedClient_not_loaded _ _ _ _ Hl).
Qed.

(** X2 on a home directory that holds a token good for ten more minutes. *)
Lemma X2_Logout_witness :
  fst (QuickCheck (world_with_token (10 * time.Minute))) = true /\
  QuickCheck (snd (Logout (world_with_token (10 * time.Minute))))
  = (false, snd (Logout (world_with_token (10 * time.Minute)))).
Proof.
  split; [vm_compute; reflexivity|].
  apply (X2_Logout_then_not_authenticated (world_with_token (10 * time.Minute))).
  vm_compute. reflexivity.
Defined.

(** X3: a missing token file is no error for [Logout]: when the token
    path is free after [getTokenPath], [Logout] returns nil; and a
    [Logout] after a [Logout] that succeeded returns nil and changes
    nothing. *)
Theorem X3_Logout_without_token (w : World) :
  (forall p wa, getTokenPath w = (Ok p, wa) -> fs wa !! p = None ->
     Logout w = (Ok tt, wa)) /\
  (forall w1, Logout w = (Ok tt, w1) -> Logout w1 = (Ok tt, w1)).
Proof.
  assert (Hfree : forall v h md,
            home v = Some h -> fs v !! configDirOf h = Some (Dir md) ->
            fs v !! tokenPathOf h = None -> deleteToken v = (Ok tt, v)).
  { intros v h md Hh Hd Hf. unfold deleteToken, bindM.
    rewrite (getTokenPath_present _ _ _ Hh Hd).
    rewrite os_Remove_tokenPath, Hd, Hf. reflexivity. }
  split.
  - intros p wa Hg Hf. rewrite Logout_deleteToken.
    destruct (getTokenPath_ok _ _ _ Hg) as (h & md & Hh & -> & Hd).
    unfold deleteToken, bindM. rewrite Hg.
    rewrite os_Remove_tokenPath, Hd, Hf. reflexivity.
  - intros w1. rewrite !Logout_deleteToken. intros H.
    destruct (deleteToken_ok _ _ H) as (h & md & wa & _ & Hh & _ & _ & _ & Hd & Hf).
    exact (Hfree _ _ _ Hh Hd Hf).
Qed.

(** X3 on a home directory nobody has logged in from, and on what the
    [Logout] there leaves. *)
Lemma X3_Logout_without_token_witness :
  Logout fresh_world = (Ok tt, snd (Logout fresh_world)) /\
  Logout (snd (Logout fresh_world)) = (Ok tt, snd (Logout fresh_world)).
Proof.
  assert (H : Logout fresh_world = (Ok tt, snd (Logout fresh_world)))
    by (vm_compute; reflexivity).
  split; [exact H|].
  exact (proj2 (X3_Logout_without_token fresh_world) _ H).
Defined.

(** X4: what [Logout] leaves alone.  It posts nothing, logs nothing and
    does not touch the clock; it removes no node but the token file, and
    none at all when it fails; the only nodes it may create are the
    configuration directory and the directories on the way to it. *)
Theorem X4_Logout_frame (w w1 : World) (r : result unit) :
  Logout w = (r, w1) ->
  posts w1 = posts w /\ logged w1 = logged w /\ clock w1 = clock w /\
  (forall q nd, fs w !! q = Some nd ->
     fs w1 !! q = Some nd \/
     (r = Ok tt /\ exists h, home w = Some h /\ q = tokenPathOf h)) /\
  (forall q nd, fs w !! q = None -> fs w1 !! q = Some nd ->
     exists h, home w = Some h /\ nd = Dir (Z.ldiff mode_0755 (umask w)) /\
               q `prefix_of` configDirOf h).
Proof.
  rewrite Logout_deleteToken. intros H.
  destruct (deleteToken_cases _ _ _ H) as (rp & wa & Hg & Hc).
  destruct (getTokenPath_frame _ _ _ Hg) as (Hs & Hk & Hn).
  destruct (same_but_fs_fields _ _ Hs) as (_ & _ & Hcl & _ & _ & Hp & Hlog & _).
  destruct Hc as [(-> & _)|(-> & h & md & Hhome & -> & Hd & ->)].
  - split; [exact Hp|]. split; [exact Hlog|]. split; [exact Hcl|].
    split; [|exact Hn]. intros q nd Hq. left. exact (Hk _ _ Hq).
  - cbn [posts logged clock fs set_fs].
    split; [exact Hp|]. split; [exact Hlog|]. split; [exact Hcl|]. split.
    + intros q nd Hq. destruct (decide (q = tokenPathOf h)) as [->|Hne].
      * right. split; [reflexivity|]. now exists h.
      * left. rewrite lookup_delete_ne; [exact (Hk _ _ Hq)|congruence].
    + intros q nd Hq Hq1. apply (Hn q nd Hq).
      destruct (decide (q = tokenPathOf h)) as [->|Hne].
      * now rewrite lookup_delete_eq in Hq1.
      * now rewrite lookup_delete_ne in Hq1 by congruence.
Qed.

(** X4 on a configuration directory that is read-only: [Logout] fails and
    the token file stays. *)
Lemma X4_Logout_frame_witness :
  Logout locked_world
  = (Err (ErrWrap "failed to remove token file" (ErrOS EACCES)), locked_world) /\
  fs locked_world !! tokenPathOf sample_home = Some (File mode_0600 "{}").
Proof.
  assert (H : Logout locked_world
              = (Err (ErrWrap "failed to remove token file" (ErrOS EACCES)),
                 locked_world)) by (vm_compute; reflexivity).
  split; [exact H|].
  destruct (X4_Logout_frame _ _ _ H) as (_ & _ & _ & Hk & _).
  destruct (Hk (tokenPathOf sample_home) (File mode_0600 "{}"))
    as [Hkept|(Hr & _)]; [vm_compute; reflexivity|exact Hkept|discriminate Hr].
Defined.

(** X5: [saveToken] over a token file that exists succeeds only when the
    file is writable by its owner, and then the file keeps the mode it
    had: the 0600 of [os.WriteFile] is used only for a file it creates. *)
Theorem X5_saveToken_over_existing_file (token : Token) (w w1 : World)
    (h : list string) (old : Z) (data0 : string) :
  home w = Some h -> fs w !! tokenPathOf h = Some (File old data0) ->
  saveToken token w = (Ok tt, w1) ->
  can_write old = true /\
  exists data,
    tokenjson.MarshalIndent (store_of token) = Some data /\
    fs w1 !! tokenPathOf h = Some (File old data).
Proof.
  intros Hh Hf. unfold saveToken, bindM. fold (store_of token).
  destruct (getTokenPath w) as [[p|e] wa] eqn:Hg; [|discriminate].
  destruct (getTokenPath_ok _ _ _ Hg) as (h' & md & Hh' & -> & Hd).
  assert (h' = h) by congruence. subst h'.
  destruct (getTokenPath_frame _ _ _ Hg) as (_ & Hk & _).
  destruct (tokenjson.MarshalIndent (store_of token)) as [data|]; [|discriminate].
  unfold ret, wrapErr, os_WriteFile. rewrite tokenPath_lookup, (Hk _ _ Hf).
  destruct (can_write old); [|discriminate]. intros [= <-].
  split; [reflexivity|]. exists data. split; [reflexivity|].
  cbn [fs set_fs]. apply lookup_insert_eq.
Qed.

(** X5 on a token file of mode 0644. *)
Lemma X5_saveToken_over_existing_file_witness :
  exists data,
    fs (snd (saveToken (token_expiring_in (10 * time.Minute))
               (sample_world (fs_with_node (File (6 * 64 + 4 * 8 + 4) "{}"))
                  granting_endpoint)))
      !! tokenPathOf sample_home
    = Some (File (6 * 64 + 4 * 8 + 4) data).
Proof.
  destruct (X5_saveToken_over_existing_file (token_expiring_in (10 * time.Minute))
              (sample_world (fs_with_node (File (6 * 64 + 4 * 8 + 4) "{}"))
                 granting_endpoint)
              (snd (saveToken (token_expiring_in (10 * time.Minute))
                      (sample_world (fs_with_node (File (6 * 64 + 4 * 8 + 4) "{}"))
                         granting_endpoint)))
              sample_home (6 * 64 + 4 * 8 + 4) "{}")
    as (_ & data & _ & Hf); try (vm_compute; reflexivity).
  exists data. exact Hf.
Defined.

(** X6: whatever [crypto/rand] delivers, the code verifier is 43
    characters and the state 22, and the code challenge of any verifier
    is 43 characters; all three are made of letters, digits, [-] and [_]
    only. *)
Theorem X6_pkce_parameters_shape (source verifier : string) :
  String.length (generateCodeVerifier source) = 43%nat /\
  all_bytes urlSafe (generateCodeVerifier source) = true /\
  String.length (generateState source) = 22%nat /\
  all_bytes urlSafe (generateState source) = true /\
  String.length (generateCodeChallenge verifier) = 43%nat /\
  all_bytes urlSafe (generateCodeChallenge verifier) = true.
Proof.
  assert (L : forall s n m, String.length s = n ->
                (8 * Z.of_nat n + 5) / 6 = Z.of_nat m ->
                String.length (base64.EncodeToString s) = m).
  { intros s n m Hs Hm. apply Nat2Z.inj.
    now rewrite base64_facts.EncodeToString_length, Hs. }
  unfold generateCodeVerifier, generateState, generateCodeChallenge.
  split; [apply (L _ 32%nat); [apply rand_Read_length|reflexivity]|].
  split; [apply base64_facts.EncodeToString_urlSafe|].
  split; [apply (L _ 16%nat); [apply rand_Read_length|reflexivity]|].
  split; [apply base64_facts.EncodeToString_urlSafe|].
  split; [apply (L _ 32%nat); [apply Sum256_length|reflexivity]|].
  apply base64_facts.EncodeToString_urlSafe.
Qed.

(** X7: the state and the code verifier lose nothing of the random bytes
    they are made from: two states are equal exactly when their 16 bytes
    are, two verifiers exactly when their 32 bytes are. *)
Theorem X7_state_and_verifier_keep_the_random_bytes (source1 source2 : string) :
  (generateState source1 = generateState source2 <->
   rand_Read 16 source1 = rand_Read 16 source2) /\
  (generateCodeVerifier source1 = generateCodeVerifier source2 <->
   rand_Read 32 source1 = rand_Read 32 source2).
Proof.
  unfold generateState, generateCodeVerifier.
  split; (split; [apply base64_facts.EncodeToString_inj|now intros ->]).
Qed.

(** X8: [url.QueryEscape] leaves a code challenge as it is, so the
    authorization URL of [Login] carries the challenge itself, the
    unpadded base64url text of the SHA-256 digest of the code verifier. *)
Theorem X8_challenge_in_the_authorization_URL (verifier : string) :
  pkceQuery (generateCodeChallenge verifier)
  = "&code_challenge=" +:+ base64.EncodeToString (sha256.Sum256 verifier)
    +:+ "&code_challenge_method=S256".
Proof.
  unfold pkceQuery. rewrite QueryEscape_urlSafe; [reflexivity|].
  apply base64_facts.EncodeToString_urlSafe.
Qed.

(** X9: a [Login] that returns an error other than a failure of
    [saveToken] has created, changed and removed no file and no
    directory: a refused authorization, a wrong state, a failed exchange,
    a server that cannot listen and a cancelled context all leave the
    token store as it was. *)
Theorem X9_Login_error_leaves_files (config : Config) (d : Drive) (w w' : World)
    (e : error) :
  Login config d w = Some (Some e, w') ->
  (forall e', e <> ErrWrap "failed to save token" e') ->
  fs w' = fs w.
Proof.
  intros H Hne.
  destruct (Login_returned _ _ _ _ _ H) as (s & (_ & _ & _ & _ & _ & _ & Hr) & Hret & <-).
  rewrite Hret in Hr. destruct Hr as (_ & [(e' & ->)|Hfs]); [|exact Hfs].
  now destruct (Hne e').
Qed.

(** X9 on a user who refuses the authorization, with a token in the
    home directory. *)
Lemma X9_Login_error_witness :
  fs (world_after_Login DefaultConfig (denying "seed")
        (world_with_token (10 * time.Minute)))
  = fs (world_with_token (10 * time.Minute)).
Proof.
  apply (X9_Login_error_leaves_files DefaultConfig (denying "seed")
           (world_with_token (10 * time.Minute)) _
           (Errorf "authorization error: access_denied - ")).
  - vm_compute. reflexivity.
  - discriminate.
Defined.

(** X10: [Login] returns nil only after a token exchange has been
    posted, and then the token file holds, as its JSON text, a token the
    endpoint granted with status 200 for a code posted with the code
    verifier of this attempt. *)
Theorem X10_Login_nil_has_saved_a_granted_token (config : Config) (d : Drive)
    (w w' : World) :
  Login config d w = Some (None, w') ->
  (length (posts w) < length (posts w'))%nat /\
  exists h perm token data,
    home w = Some h /\
    granted (Login_attempt config d) w token /\
    tokenjson.MarshalIndent (store_of token) = Some data /\
    fs w' !! tokenPathOf h = Some (File perm data).
Proof.
  intros H.
  destruct (Login_returned _ _ _ _ _ H) as (s & (_ & _ & _ & _ & _ & _ & Hr) & Hret & <-).
  rewrite Hret in Hr. destruct Hr as (_ & Hp & Hex). split; [exact Hp|exact Hex].
Qed.

(** X10 on a user who approves, in a home directory without a
    configuration directory. *)
Lemma X10_Login_nil_witness :
  (length (posts fresh_world)
   < length (posts (world_after_Login DefaultConfig (approving "seed") fresh_world)))%nat /\
  exists h perm token data,
    home fresh_world = Some h /\
    granted (Login_attempt DefaultConfig (approving "seed")) fresh_world token /\
    tokenjson.MarshalIndent (store_of token) = Some data /\
    fs (world_after_Login DefaultConfig (approving "seed") fresh_world)
      !! tokenPathOf h = Some (File perm data).
Proof.
  apply (X10_Login_nil_has_saved_a_granted_token DefaultConfig (approving "seed")
           fresh_world).
  vm_compute. reflexivity.
Defined.

(** X11: what the handler answers goes with what it sends.  The success
    page is written exactly when a token is sent, after an exchange that
    succeeded; an answer 400 goes with an error and no exchange; an
    answer 500 goes with the error of an exchange that failed.  No other
    pair of answer and send occurs. *)
Theorem X11_reply_goes_with_signal (a : Attempt) (r : Request) (w : World) :
  match callback a r w with
  | ((SuccessPage, SendToken t), w') =>
    reaches_exchange a r = true /\
    exchangeCodeForToken (at_config a) (FormValue r "code") (at_codeVerifier a) w
    = (Ok t, w')
  | ((HttpError _ code, SendErr e), w') =>
    (code = StatusBadRequest /\ w' = w /\ reaches_exchange a r = false) \/
    (code = StatusInternalServerError /\ reaches_exchange a r = true /\
     exists err,
       exchangeCodeForToken (at_config a) (FormValue r "code") (at_codeVerifier a) w
       = (Err err, w') /\
       e = ErrWrap "failed to exchange code for token" err)
  | _ => False
  end.
Proof.
  unfold callback, reaches_exchange.
  destruct (FormValue r "state" =? at_state a)%string; cbn [negb andb];
    [|left; auto].
  destruct (FormValue r "error" =? "")%string; cbn [negb andb]; [|left; auto].
  destruct (FormValue r "code" =? "")%string; cbn [negb]; [left; auto|].
  destruct (exchangeCodeForToken (at_config a) (FormValue r "code")
              (at_codeVerifier a) w) as [[t|err] w'].
  - auto.
  - right. split; [reflexivity|]. split; [reflexivity|]. now exists err.
Qed.

(** X12: when none of the common ports can be listened on, [SmartLogin]
    returns "all ports exhausted" and has attempted no login: the world
    is as it was. *)
Theorem X12_SmartLogin_no_port (getenv : string -> string)
    (drive : string -> Drive) (w : World) :
  (forall port, In port CommonPorts -> isPortAvailable port w = false) ->
  SmartLogin getenv drive w = Returns (Some (Errorf "all ports exhausted")) w.
Proof. apply SmartLogin_from_busy. Qed.

(** X12 on a machine whose common ports are all in use. *)
Lemma X12_SmartLogin_no_port_witness :
  SmartLogin no_env (fun _ => approving "seed") (world_listening ["9999"])
  = Returns (Some (Errorf "all ports exhausted")) (world_listening ["9999"]).
Proof.
  apply X12_SmartLogin_no_port.
  intros port Hin. cbn in Hin.
  destruct Hin as [<-|[<-|[<-|[<-|[<-|[]]]]]]; reflexivity.
Defined.

(** X13: an error of [SmartLogin] is one of two fixed errors, neither of
    which carries the error of [Login].  "authentication setup required"
    is returned only when the last common port, 9000, was free and the
    [Login] on it failed; when that port is in use and every [Login] on
    the others has failed, the error is "all ports exhausted". *)
Theorem X13_SmartLogin_errors (getenv : string -> string)
    (drive : string -> Drive) (w w' : World) (e : error) :
  SmartLogin getenv drive w = Returns (Some e) w' ->
  e = Errorf "all ports exhausted" \/
  (e = Errorf "authentication setup required" /\
   isPortAvailable "9000" w = true /\
   exists err w0,
     Login (smartConfig getenv "9000") (drive "9000") w0 = Some (Some err, w')).
Proof.
  intros H. pose proof (SmartLogin_from_spec getenv drive CommonPorts 0 w) as S.
  unfold SmartLogin in H. rewrite H in S.
  destruct S as (_ & [->|(-> & k & port & err & w0 & Hk & Hik & Hav & _ & HL)]);
    [now left|right].
  cbn in Hik. subst k. cbn in Hk. injection Hk as <-.
  split; [reflexivity|]. split; [exact Hav|]. now exists err, w0.
Qed.

(** X13 on a machine where only port 3000 is free and the user refuses:
    the error is not the one of the help. *)
Lemma X13_SmartLogin_errors_witness :
  Errorf "all ports exhausted" = Errorf "all ports exhausted" \/
  (Errorf "all ports exhausted" = Errorf "authentication setup required" /\
   isPortAvailable "9000" (world_listening ["3000"]) = true /\
   exists err w0,
     Login (smartConfig no_env "9000") (denying "seed") w0
     = Some (Some err,
             world_after (SmartLogin no_env (fun _ => denying "seed")
                            (world_listening ["3000"]))
               (world_listening ["3000"]))).
Proof.
  apply (X13_SmartLogin_errors no_env (fun _ => denying "seed")
           (world_listening ["3000"])).
  vm_compute. reflexivity.
Defined.

(** X14: [SmartLogin] panics exactly when [SPOTIFY_CLIENT_ID] is set to
    fewer than eight bytes and one of the common ports is free: the
    slice [config.ClientID[:8]] it prints is out of range.  It panics
    before any login is attempted. *)
Theorem X14_SmartLogin_short_client_id (getenv : string -> string)
    (drive : string -> Drive) (w : World) :
  (SmartLogin getenv drive w = Panics w <->
   (0 < String.length (getenv "SPOTIFY_CLIENT_ID") < 8)%nat /\
   exists port, In port CommonPorts /\ isPortAvailable port w = true) /\
  (forall w', SmartLogin getenv drive w = Panics w' -> w' = w).
Proof.
  pose proof (SmartLogin_from_spec getenv drive CommonPorts 0 w) as S.
  unfold SmartLogin. split; [split|].
  - intros H. rewrite H in S. destruct S as (_ & Hlt & Hex).
    split; [now apply getSmartClientID_length|exact Hex].
  - intros (Hlt & Hex). apply SmartLogin_from_short_id; [|exact Hex].
    now apply getSmartClientID_length.
  - intros w' H. rewrite H in S. now destruct S as (-> & _).
Qed.

(** X14 on a client ID of three bytes. *)
Lemma X14_SmartLogin_short_client_id_witness :
  SmartLogin (env_with_client_id "abc") (fun _ => approving "seed") fresh_world
  = Panics fresh_world.
Proof.
  apply (proj1 (X14_SmartLogin_short_client_id (env_with_client_id "abc")
                  (fun _ => approving "seed") fresh_world)).
  split; [cbn; lia|]. exists "8808"%string. split; [now left|reflexivity].
Defined.

(** X15: [SmartLogin] returns nil only when a [Login] on a common port
    that was free has returned nil: a token exchange has been posted and
    the token file holds a token the endpoint granted. *)
Theorem X15_SmartLogin_nil_has_saved_a_token (getenv : string -> string)
    (drive : string -> Drive) (w w' : World) :
  SmartLogin getenv drive w = Returns None w' ->
  exists port h perm token data,
    In port CommonPorts /\ isPortAvailable port w = true /\
    home w = Some h /\
    granted (Login_attempt (smartConfig getenv port) (drive port)) w token /\
    tokenjson.MarshalIndent (store_of token) = Some data /\
    fs w' !! tokenPathOf h = Some (File perm data) /\
    (length (posts w) < length (posts w'))%nat.
Proof.
  intros H. pose proof (SmartLogin_from_spec getenv drive CommonPorts 0 w) as S.
  unfold SmartLogin in H. rewrite H in S.
  destruct S as (port & w0 & Hin & Hav & (Hh & _ & He & Hp) & HL).
  destruct (Login_returned _ _ _ _ _ HL)
    as (s & (_ & _ & _ & _ & _ & _ & Hr) & Hret & <-).
  rewrite Hret in Hr.
  destruct Hr as (_ & Hlt & h & perm & token & data & Hhome & Hg & Hm & Hf).
  exists port, h, perm, token, data.
  split; [exact Hin|]. split; [exact Hav|]. split; [congruence|].
  split; [exact (granted_endpoint _ _ _ _ He Hg)|].
  split; [exact Hm|]. split; [exact Hf|]. lia.
Qed.

(** X15 on a machine where 8808 is in use, the user refuses on 8080 and
    approves on 3000. *)
Lemma X15_SmartLogin_nil_witness :
  exists port h perm token data,
    In port CommonPorts /\
    isPortAvailable port (world_listening ["8080"; "3000"]) = true /\
    home (world_listening ["8080"; "3000"]) = Some h /\
    granted (Login_attempt (smartConfig no_env port) (second_thoughts port))
      (world_listening ["8080"; "3000"]) token /\
    tokenjson.MarshalIndent (store_of token) = Some data /\
    fs (world_after (SmartLogin no_env second_thoughts
                       (world_listening ["8080"; "3000"]))
          (world_listening ["8080"; "3000"]))
      !! tokenPathOf h = Some (File perm data) /\
    (length (posts (world_listening ["8080"; "3000"]))
     < length (posts (world_after (SmartLogin no_env second_thoughts
                                     (world_listening ["8080"; "3000"]))
                        (world_listening ["8080"; "3000"]))))%nat.
Proof.
  apply (X15_SmartLogin_nil_has_saved_a_token no_env second_thoughts
           (world_listening ["8080"; "3000"])).
  vm_compute. reflexivity.
Defined.

(** X16: [runSearch], [runDiscover], [runPlaylists] and [runNow] refresh
    the token only in a window: a refresh is posted exactly when the
    stored token expires more than one minute and less than five minutes
    from now.  With a token that has expired, or expires within a minute,
    the command returns its "not authenticated" error and posts nothing,
    whatever refresh token the file holds. *)
Theorem X16_commands_refresh_window (msg : string) (wrapped : bool)
    (scopes : list string) (getenv : string -> string) (w : World) :
  (forall e w1, loadToken w = (Err e, w1) ->
     commandClient msg wrapped scopes getenv w = (Err (Errorf msg), w1)) /\
  (forall token w1, loadToken w = (Ok token, w1) ->
     (time.unixNano (Expiry token) <= clock w + 1 * time.Minute ->
      commandClient msg wrapped scopes getenv w = (Err (Errorf msg), w1)) /\
     posts (snd (commandClient msg wrapped scopes getenv w))
     = posts w ++
       (if (clock w + 1 * time.Minute <? time.unixNano (Expiry token))
           && (time.unixNano (Expiry token) <? clock w + 5 * time.Minute)
        then [refresh_form
                (mkConfig (GetClientIDFromEnv getenv)
                   "http://127.0.0.1:8808/callback" "8808" scopes)
                (RefreshToken token)]
        else [])).
Proof.
  rewrite commandClient_cases. split.
  - intros e w1 Hl. now rewrite Hl.
  - intros token w1 Hl. rewrite Hl.
    destruct (loadToken_frame _ _ _ Hl) as (Hs & _).
    destruct (same_but_fs_fields _ _ Hs) as (_ & _ & Hc & _ & _ & Hp & _).
    split.
    + intros Hle. apply Z.ltb_ge in Hle. now rewrite Hle.
    + destruct (clock w + 1 * time.Minute <? time.unixNano (Expiry token)); cbn [andb].
      * pose proof (loadToken_frame_world _ _ _ Hl) as Hl1.
        pose proof (GetAuthenticatedClient_posts
                      (mkConfig (GetClientIDFromEnv getenv)
                         "http://127.0.0.1:8808/callback" "8808" scopes) _ _ _ Hl1) as P.
        replace (needsRefresh token (now_of w1))
          with (time.unixNano (Expiry token) <? clock w + 5 * time.Minute) in P
          by (unfold needsRefresh, time.Before, time.Add, now_of; cbn [time.unixNano];
              now rewrite Hc).
        rewrite Hp in P. rewrite <- P.
        now destruct (GetAuthenticatedClient _ w1) as [[c|err] w2].
      * cbn [snd]. now rewrite Hp, app_nil_r.
Qed.

(** X16 on a token that expired ten minutes ago, with the refresh token
    still in the file and an endpoint that would grant the refresh. *)
Lemma X16_commands_refresh_window_witness :
  fst (runSearch_client no_env (world_with_token (- (10 * time.Minute))))
  = Err (Errorf "not authenticated - run 'moodify login' first") /\
  posts (snd (runSearch_client no_env (world_with_token (- (10 * time.Minute))))) = [].
Proof.
  assert (Hl : loadToken (world_with_token (- (10 * time.Minute)))
               = (Ok (token_expiring_in (- (10 * time.Minute))),
                  world_with_token (- (10 * time.Minute))))
    by (vm_compute; reflexivity).
  destruct (proj2 (X16_commands_refresh_window
                     "not authenticated - run 'moodify login' first" true
                     ["user-top-read"; "playlist-modify-private"; "user-read-private"]
                     no_env (world_with_token (- (10 * time.Minute)))) _ _ Hl)
    as (Hexp & _).
  unfold runSearch_client. rewrite Hexp; [split; reflexivity|].
  vm_compute. discriminate.
Defined.

(** X17: [GetClientIDFromEnv] never returns the empty string, and
    [getSmartClientID] returns the same; so [runStatus] never reports
    that no client ID is configured.  [runStatus] panics exactly when
    [SPOTIFY_CLIENT_ID] is set to fewer than four bytes: the slices of
    the client ID it prints are out of range. *)
Theorem X17_client_id_of_the_environment (getenv : string -> string) :
  GetClientIDFromEnv getenv <> EmptyString /\
  getSmartClientID getenv = GetClientIDFromEnv getenv /\
  runStatus_clientID getenv <> Some NotConfigured /\
  (runStatus_clientID getenv = None <->
   (0 < String.length (getenv "SPOTIFY_CLIENT_ID") < 4)%nat).
Proof.
  unfold runStatus_clientID, GetClientIDFromEnv, getSmartClientID.
  set (id := getenv "SPOTIFY_CLIENT_ID").
  destruct (id =? "")%string eqn:E0; cbn [negb]; rewrite ?E0; cbn [negb].
  - apply String.eqb_eq in E0. rewrite E0.
    split; [discriminate|]. split; [reflexivity|].
    split; [discriminate|]. split; [intros H; discriminate H|]. cbn. lia.
  - apply String.eqb_neq in E0.
    assert (Hpos : (0 < String.length id)%nat)
      by (destruct id; [congruence|cbn; lia]).
    split; [exact E0|]. split; [reflexivity|].
    destruct (id =? DefaultClientID)%string eqn:Ed.
    + apply String.eqb_eq in Ed. split; [discriminate|].
      split; [intros H; discriminate H|]. rewrite Ed. cbn. lia.
    + unfold slice_to, slice_from. cbn [Z.leb Z.compare andb].
      destruct (4 <=? Z.of_nat (String.length id)) eqn:E4.
      * apply Z.leb_le in E4.
        replace ((0 <=? Z.of_nat (String.length id) - 4)
                 && (Z.of_nat (String.length id) - 4
                     <=? Z.of_nat (String.length id))) with true
          by (symmetry; apply andb_true_iff; split; apply Z.leb_le; lia).
        cbv beta iota.
        split; [discriminate|]. split; [intros H; discriminate H|lia].
      * apply Z.leb_gt in E4. cbv beta iota.
        split; [discriminate|]. split; [intros _; lia|reflexivity].
Qed.

(** X18: as long as the clock reads the same, [runStatus] never prints
    that the token has expired and will be refreshed on the next use:
    under "Authentication" it reports either that nobody is
    authenticated, or a token that expires more than one minute from
    now. *)
Theorem X18_runStatus_never_reports_expired (w : World) :
  match fst (runStatus_authentication w) with
  | NotAuthenticated => fst (QuickCheck w) = false
  | Authenticated (ExpiresIn d) => fst (QuickCheck w) = true /\ 1 * time.Minute < d
  | Authenticated Expired => False
  | Authenticated NoDetails => False
  end.
Proof.
  unfold runStatus_authentication, LoadTokenForStatus.
  assert (Hidem : loadToken (snd (loadToken w)) = loadToken w) by (destruct (loadToken w) as [r0 w0] eqn:Hl0; exact (loadToken_frame_world _ _ _ Hl0)).
  unfold QuickCheck in *.
  destruct (loadToken w) as [[token|e] w1] eqn:Hl; cbn [fst snd] in *; [|reflexivity].
  destruct (time.After (Expiry token) (time.Add (now_of w1) (1 * time.Minute))) eqn:Ha;
    [|reflexivity].
  rewrite Hidem. unfold time_Until.
  assert (Hlt : 1 * time.Minute < time_Sub (Expiry token) (now_of w1)).
  { apply time_Sub_positive.
    - unfold maxDuration, time.Minute, time.Second. lia.
    - unfold time.After, time.Add in Ha. cbn [time.unixNano] in Ha.
      now apply Z.ltb_lt in Ha. }
  replace (0 <? time_Sub (Expiry token) (now_of w1)) with true
    by (symmetry; apply Z.ltb_lt; unfold time.Minute, time.Second in Hlt; lia).
  cbn [fst]. split; [reflexivity|exact Hlt].
Qed.

(** X19: a callback request without a [state] parameter is never
    accepted: whatever [crypto/rand] delivered for the state, also
    nothing at all, the handler answers 400 "Invalid state parameter",
    sends "invalid state parameter" and posts no token exchange. *)
Theorem X19_missing_state_rejected (config : Config) (d : Drive) (r : Request)
    (w : World) :
  FormValue r "state" = EmptyString ->
  callback (Login_attempt config d) r w
  = ((HttpError "Invalid state parameter" StatusBadRequest,
      SendErr (Errorf "invalid state parameter")), w).
Proof.
  intros Hs. unfold callback. rewrite Hs. cbn [at_state Login_attempt].
  rewrite String.eqb_sym, generateState_nonempty. reflexivity.
Qed.

(** X19 on a request with a code only, when [crypto/rand] has delivered
    nothing. *)
Lemma X19_missing_state_witness :
  callback (Login_attempt DefaultConfig (mkDrive "" "" []))
    (mkRequest [("code", "stolen")]) fresh_world
  = ((HttpError "Invalid state parameter" StatusBadRequest,
      SendErr (Errorf "invalid state parameter")), fresh_world).
Proof. apply X19_missing_state_rejected. reflexivity. Defined.

(** X20: [SmartLogin] uses the first common port that is free: the ports
    before it are skipped without a login, and when the [Login] on it
    returns nil, [SmartLogin] returns nil in the world that [Login] has
    left, with no other port tried. *)
Theorem X20_SmartLogin_first_free_port (getenv : string -> string)
    (drive : string -> Drive) (busy : list string) (port : string)
    (rest : list string) (w w' : World) :
  CommonPorts = busy ++ port :: rest ->
  (forall q, In q busy -> isPortAvailable q w = false) ->
  isPortAvailable port w = true ->
  (8 <= String.length (getSmartClientID getenv))%nat ->
  Login (smartConfig getenv port) (drive port) w = Some (None, w') ->
  SmartLogin getenv drive w = Returns None w'.
Proof.
  intros Hports Hbusy Hav Hlen HL. unfold SmartLogin. rewrite Hports.
  now rewrite (SmartLogin_from_first _ _ _ _ _ _ _ _ _ Hbusy Hav Hlen HL).
Qed.

(** X20 on a machine where 8808 and 8080 are in use and the user
    approves. *)
Lemma X20_SmartLogin_first_free_port_witness :
  SmartLogin no_env (fun _ => approving "seed") (world_listening ["3000"; "9000"])
  = Returns None
      (world_after_Login (smartConfig no_env "3000") (approving "seed")
         (world_listening ["3000"; "9000"])).
Proof.
  apply (X20_SmartLogin_first_free_port no_env (fun _ => approving "seed")
           ["8808"; "8080"] "3000" ["8000"; "9000"]).
  - reflexivity.
  - intros q Hq. cbn in Hq. destruct Hq as [<-|[<-|[]]]; reflexivity.
  - reflexivity.
  - cbn. lia.
  - vm_compute. reflexivity.
Defined.

(** X21: all that a [Login] posts to the token endpoint are exchanges of
    authorization codes, each with the client ID and the redirect URI of
    its configuration and the code verifier of this attempt, the verifier
    whose challenge went into the authorization URL; a [Login] that
    returns nil has posted at least one. *)
Theorem X21_Login_posts_only_its_exchanges (config : Config) (d : Drive)
    (w w' : World) (r : option error) :
  Login config d w = Some (r, w') ->
  exists codes,
    posts w'
    = posts w ++
      map (fun code =>
             [("grant_type", "authorization_code");
              ("client_id", ClientID config);
              ("code", code);
              ("redirect_uri", RedirectURI config);
              ("code_verifier", generateCodeVerifier (verifierSource d))]) codes /\
    (r = None -> codes <> []).
Proof.
  unfold Login.
  destruct (Login_run (Login_attempt config d) (Login_start w) (events d))
    as [s|] eqn:Hrun; [|discriminate].
  destruct (returned s) as [err|] eqn:Hret; [|discriminate].
  intros [= <- <-].
  destruct (Login_run_posts _ _ _ _ Hrun) as (codes & P). cbn [world Login_start] in P.
  exists codes. split; [exact P|].
  intros ->. intros ->. cbn in P. rewrite app_nil_r in P.
  pose proof (Login_run_inv _ _ _ _ _ (Login_inv_start _ _) Hrun)
    as (_ & _ & _ & _ & _ & _ & Hr).
  rewrite Hret in Hr. destruct Hr as (_ & Hlt & _). rewrite P in Hlt. lia.
Qed.

(** X21 on a user who approves. *)
Lemma X21_Login_posts_witness :
  exists codes,
    posts (world_after_Login DefaultConfig (approving "seed") fresh_world)
    = posts fresh_world ++
      map (fun code =>
             [("grant_type", "authorization_code");
              ("client_id", ClientID DefaultConfig);
              ("code", code);
              ("redirect_uri", RedirectURI DefaultConfig);
              ("code_verifier", generateCodeVerifier "seed")]) codes /\
    (@None error = None -> codes <> []).
Proof.
  apply (X21_Login_posts_only_its_exchanges DefaultConfig (approving "seed")
           fresh_world).
  vm_compute. reflexivity.
Defined.
